(** * Real-time messaging backend: shallow embedding and verified properties

    The development embeds the messaging subsystem of the Django/Channels
    backend:

    - [messaging/middleware.py]  : [JWTAuthMiddleware], [get_user_from_token]
    - [messaging/permissions.py] : [check_mutual_follow], [can_message_user]
    - [messaging/models.py]      : [ConversationManager], [Conversation], [Message]
    - [messaging/views.py]       : [MarkMessagesReadView]
    - [messaging/consumers.py]   : [ChatConsumer]

    Python [str] values are sequences of Unicode code points, [bytes] values
    are sequences of octets, dictionaries are finite maps, Django tables are
    lists of rows, and the effects of a consumer (socket frames, channel-layer
    calls, raised exceptions) are threaded through a state-and-error monad. *)

From stdpp Require Import gmap strings list fin_maps.
From Stdlib Require Import Strings.Byte Strings.Ascii.

Open Scope N_scope.

(** ** Python values *)

(** A Python [str]: the list of its code points. *)
Abbreviation str := (list N).

(** A Python [bytes] object. *)
Definition bytes := list byte.

(** String and bytes literals of the source. *)
Definition py (s : string) : str :=
  (λ a, Ascii.N_of_ascii a) <$> String.list_ascii_of_string s.

Definition pyb (s : string) : bytes := String.list_byte_of_string s.

Arguments py : simpl never.
Arguments pyb : simpl never.

#[global] Instance byte_eq_dec : EqDecision byte := Byte.byte_eq_dec.

(** The exceptions the modelled code can raise.  [JSONDecodeError] is
    kept apart from the [ValueError] it derives from: [receive] catches
    it alone. *)
Inductive exn :=
| UnicodeDecodeError
| ValueError
| JSONDecodeError
| IndexError
| AttributeError
| TypeError
| RecursionError
| Http404.

#[global] Instance exn_eq_dec : EqDecision exn.
Proof. solve_decision. Defined.

(** The outcome of a call that reads but does not change the world. *)
Inductive result (A : Type) :=
| Ok (a : A)
| Raise (e : exn).
Arguments Ok {A} a.
Arguments Raise {A} e.

#[global] Instance result_ret : MRet result := λ A a, Ok a.
#[global] Instance result_bind : MBind result := λ A B f r,
  match r with
  | Ok a => f a
  | Raise e => Raise e
  end.

Module pystr.

(** [c in s] for a one-character [c]. *)
Definition contains (c : N) (s : str) : bool := existsb (N.eqb c) s.

(** [s.split(sep)] for a one-character separator: every occurrence
    splits, and the empty string yields one empty token. *)
Fixpoint split (sep : N) (s : str) : list str :=
  match s with
  | [] => [[]]
  | c :: s' =>
      if c =? sep then [] :: split sep s'
      else match split sep s' with
           | w :: ws => (c :: w) :: ws
           | [] => [[c]]
           end
  end.

(** [s.split(sep, 1)]: only the first occurrence splits. *)
Fixpoint split1 (sep : N) (s : str) : list str :=
  match s with
  | [] => [[]]
  | c :: s' =>
      if c =? sep then [[]; s']
      else match split1 sep s' with
           | w :: ws => (c :: w) :: ws
           | [] => [[c]]
           end
  end.

(** [str.isspace] on one code point: the Unicode white space set. *)
Definition isspace (c : N) : bool :=
  ((0x09 <=? c) && (c <=? 0x0D)) || ((0x1C <=? c) && (c <=? 0x20))
  || (c =? 0x85) || (c =? 0xA0) || (c =? 0x1680)
  || ((0x2000 <=? c) && (c <=? 0x200A))
  || (c =? 0x2028) || (c =? 0x2029) || (c =? 0x202F)
  || (c =? 0x205F) || (c =? 0x3000).

Fixpoint lstrip (s : str) : str :=
  match s with
  | c :: s' => if isspace c then lstrip s' else s
  | [] => []
  end.

Definition rstrip (s : str) : str := reverse (lstrip (reverse s)).

(** [s.strip()] *)
Definition strip (s : str) : str := rstrip (lstrip s).

(** [len(s)] *)
Definition len (s : str) : N := N.of_nat (length s).

(** [a < b] on strings: lexicographic on code points, a proper prefix
    being smaller. *)
Fixpoint lt (a b : str) : bool :=
  match a, b with
  | _, [] => false
  | [], _ :: _ => true
  | x :: a', y :: b' =>
      if x <? y then true else if y <? x then false else lt a' b'
  end.

Definition continuation (b : N) : bool := (0x80 <=? b) && (b <=? 0xBF).

(** The strict UTF-8 decoder on octet values: shortest form only, no
    surrogates, nothing above U+10FFFF. *)
Fixpoint utf8 (bs : list N) : option str :=
  match bs with
  | [] => Some []
  | b0 :: r0 =>
      if b0 <? 0x80 then cons b0 <$> utf8 r0
      else if (0xC2 <=? b0) && (b0 <=? 0xDF) then
        match r0 with
        | b1 :: r1 =>
            if continuation b1
            then cons ((b0 - 0xC0) * 64 + (b1 - 0x80)) <$> utf8 r1
            else None
        | _ => None
        end
      else if (0xE0 <=? b0) && (b0 <=? 0xEF) then
        match r0 with
        | b1 :: b2 :: r2 =>
            if ((if b0 =? 0xE0 then 0xA0 else 0x80) <=? b1)
               && (b1 <=? (if b0 =? 0xED then 0x9F else 0xBF))
               && continuation b2
            then cons ((b0 - 0xE0) * 4096 + (b1 - 0x80) * 64 + (b2 - 0x80))
                   <$> utf8 r2
            else None
        | _ => None
        end
      else if (0xF0 <=? b0) && (b0 <=? 0xF4) then
        match r0 with
        | b1 :: b2 :: b3 :: r3 =>
            if ((if b0 =? 0xF0 then 0x90 else 0x80) <=? b1)
               && (b1 <=? (if b0 =? 0xF4 then 0x8F else 0xBF))
               && continuation b2 && continuation b3
            then cons ((b0 - 0xF0) * 262144 + (b1 - 0x80) * 4096
                       + (b2 - 0x80) * 64 + (b3 - 0x80)) <$> utf8 r3
            else None
        | _ => None
        end
      else None
  end.

(** [b.decode('utf-8')] *)
Definition decode (b : bytes) : result str :=
  match utf8 (Byte.to_N <$> b) with
  | Some s => Ok s
  | None => Raise UnicodeDecodeError
  end.

End pystr.

(** ** The user table ([base/models.py])

    [MyUser] has [username] as its primary key, so a row is identified
    with its username; [followers] is the asymmetric many-to-many relation
    of the model: [(a, b)] is in [follows] when [a] is among [b.followers]. *)

Inductive User :=
| AnonymousUser
| MyUser (username : str).

#[global] Instance User_eq_dec : EqDecision User.
Proof. solve_decision. Defined.

(** [user.username]; Django's [AnonymousUser] carries the empty string. *)
Definition username (u : User) : str :=
  match u with
  | AnonymousUser => []
  | MyUser n => n
  end.

Definition datetime := Z.
Definition uuid := N.

Record Conversation := {
  conv_id : uuid;
  participant_1 : str;
  participant_2 : str;
  created_at : datetime;
  updated_at : datetime;
}.

Record Message := {
  msg_id : uuid;
  conversation : uuid;
  sender : str;
  content : str;
  msg_created_at : datetime;
  read_at : option datetime;
  is_read : bool;
}.

#[global] Instance Conversation_eq_dec : EqDecision Conversation.
Proof. solve_decision. Defined.

#[global] Instance Message_eq_dec : EqDecision Message.
Proof. solve_decision. Defined.

(** The database: the tables the messaging code reads and writes, and the
    supply behind [uuid.uuid4].  The reading of the clock ([auto_now],
    [timezone.now()]) is an argument of each operation that takes one. *)
Record Database := {
  users : gset str;
  follows : gset (str * str);
  conversations : list Conversation;
  messages : list Message;
  next_uuid : uuid;
}.

(** [MyUser.objects.get(username=name)]; [None] stands for
    [MyUser.DoesNotExist]. *)
Definition MyUser_objects_get (db : Database) (name : str) : option User :=
  if bool_decide (name ∈ users db) then Some (MyUser name) else None.

(** The code point of a character literal of the source. *)
Definition ord (a : Ascii.ascii) : N := Ascii.N_of_ascii a.
Arguments ord a%_char.

(** Truth value of an optional string: [None] and [''] are falsy. *)
Definition truthy (t : option str) : bool :=
  match t with
  | Some (_ :: _) => true
  | _ => false
  end.

(** The connection scope: the handshake metadata the server hands to the
    application, the [user] entry the middleware writes, and the
    [room_name] captured by the route [ws/chat/(?P<room_name>\w+)/$]. *)
Record Scope := {
  scope_headers : option (list (bytes * bytes));
  scope_query_string : option bytes;
  scope_user : option User;
  scope_room_name : str;
}.

Definition set_scope_user (u : User) (scope : Scope) : Scope :=
  {| scope_headers := scope_headers scope;
     scope_query_string := scope_query_string scope;
     scope_user := Some u;
     scope_room_name := scope_room_name scope |}.

(** ** [messaging/middleware.py] *)
Module middleware.

Section Authenticator.

(** The token verifier of [rest_framework_simplejwt]: [None] when
    [AccessToken(token_key)] raises [TokenError] (bad signature,
    expired, malformed), otherwise the value of the [user_id] claim,
    if the token has one. *)
Variable AccessToken : str → option (option str).

Definition get_user_from_token (db : Database) (token_key : str) : User :=
  match AccessToken token_key with
  | Some user_id =>
      if truthy user_id then
        match MyUser_objects_get db (default [] user_id) with
        | Some user => user
        | None => AnonymousUser
        end
      else AnonymousUser
  | None => AnonymousUser
  end.

(** The inner loop of [_parse_cookies] over the items of one cookie
    header. *)
Fixpoint cookie_items (items : list str) (cookies : gmap str str)
  : result (gmap str str) :=
  match items with
  | [] => Ok cookies
  | item :: rest =>
      let item := pystr.strip item in
      if pystr.contains (ord "=") item then
        match pystr.split1 (ord "=") item with
        | [key; value] =>
            cookie_items rest (<[pystr.strip key := pystr.strip value]> cookies)
        | _ => Raise ValueError
        end
      else cookie_items rest cookies
  end.

Fixpoint cookie_headers (headers : list (bytes * bytes))
  (cookies : gmap str str) : result (gmap str str) :=
  match headers with
  | [] => Ok cookies
  | (header_name, header_value) :: rest =>
      if bool_decide (header_name = pyb "cookie") then
        cookie_string ← pystr.decode header_value;
        cookies ← cookie_items (pystr.split (ord ";") cookie_string) cookies;
        cookie_headers rest cookies
      else cookie_headers rest cookies
  end.

Definition _parse_cookies (headers : list (bytes * bytes))
  : result (gmap str str) :=
  cookie_headers headers ∅.

(** [dict(pairs)]: every element must have exactly two components,
    and a later pair overrides an earlier one with the same key. *)
Fixpoint dict (pairs : list (list str)) (d : gmap str str)
  : result (gmap str str) :=
  match pairs with
  | [] => Ok d
  | [k; v] :: rest => dict rest (<[k := v]> d)
  | _ :: _ => Raise ValueError
  end.

Definition _get_token_from_query (scope : Scope) : result (option str) :=
  query_string ← pystr.decode (default [] (scope_query_string scope));
  params ← dict (pystr.split (ord "=")
                   <$> filter (λ item, pystr.contains (ord "=") item = true)
                         (pystr.split (ord "&") query_string)) ∅;
  mret (params !! py "token").

(** [JWTAuthMiddleware.__call__], up to the call of the inner
    application: the scope that application receives. *)
Definition __call__ (db : Database) (scope : Scope) : result Scope :=
  let scope := set_scope_user AnonymousUser scope in
  cookies ← _parse_cookies (default [] (scope_headers scope));
  let token := cookies !! py "access_token" in
  token ← (if truthy token then mret token
           else _get_token_from_query scope);
  if truthy token
  then mret (set_scope_user
               (get_user_from_token db (default [] token)) scope)
  else mret scope.

End Authenticator.

End middleware.

(** ** [messaging/permissions.py]

    A [MyUser] instance is identified with its primary key, so the
    functions take usernames; [user1 == user2] on model instances is
    equality of primary keys. *)
Module permissions.

Definition check_mutual_follow (db : Database) (user1 user2 : str) : bool :=
  if bool_decide (user1 = user2) then false
  else
    let user1_follows_user2 := bool_decide ((user1, user2) ∈ follows db) in
    let user2_follows_user1 := bool_decide ((user2, user1) ∈ follows db) in
    user1_follows_user2 && user2_follows_user1.

Definition can_message_user (db : Database) (from_user to_user : str)
  : bool * option str :=
  if bool_decide (from_user = to_user)
  then (false, Some (py "Cannot message yourself"))
  else if negb (check_mutual_follow db from_user to_user)
  then (false, Some (py "You can only message users who follow you back"))
  else (true, None).

End permissions.

(** ** [messaging/models.py] *)
Module models.

(** [Conversation.objects.get_or_create(participant_1=p1, participant_2=p2)]
    at clock reading [t]: the row with these two columns if there is
    one, otherwise a new row whose primary key comes from the supply. *)
Definition get_or_create (t : datetime) (db : Database) (p1 p2 : str)
  : (Conversation * bool) * Database :=
  match
    list_find (λ c, participant_1 c = p1 ∧ participant_2 c = p2)
      (conversations db)
  with
  | Some (_, c) => ((c, false), db)
  | None =>
      let c := {| conv_id := next_uuid db;
                  participant_1 := p1; participant_2 := p2;
                  created_at := t; updated_at := t |} in
      ((c, true),
       {| users := users db; follows := follows db;
          conversations := conversations db ++ [c];
          messages := messages db;
          next_uuid := next_uuid db + 1 |})
  end.

(** [ConversationManager.get_or_create_between] *)
Definition get_or_create_between (t : datetime) (db : Database)
  (user1 user2 : str) : (Conversation * bool) * Database :=
  let '(p1, p2) :=
    if pystr.lt user1 user2 then (user1, user2) else (user2, user1) in
  get_or_create t db p1 p2.

(** [ConversationManager.for_user] *)
Definition for_user (db : Database) (user : str) : list Conversation :=
  filter (λ c, participant_1 c = user ∨ participant_2 c = user)
    (conversations db).

(** [Conversation.get_other_participant] *)
Definition get_other_participant (c : Conversation) (user : str) : str :=
  if bool_decide (participant_1 c = user) then participant_2 c
  else participant_1 c.

(** [Conversation.get_room_name] *)
Definition get_room_name (c : Conversation) : str :=
  participant_1 c ++ py "_" ++ participant_2 c.

(** [Conversation.get_unread_count] *)
Definition get_unread_count (db : Database) (c : Conversation) (user : str)
  : nat :=
  length (filter (λ m, conversation m = conv_id c ∧ is_read m = false
                       ∧ sender m ≠ user) (messages db)).

(** The [UniqueConstraint] named [unique_conversation] of
    [Conversation.Meta]: no two rows agree on both participant columns. *)
Definition unique_conversation (db : Database) : Prop :=
  ∀ i j c c', conversations db !! i = Some c → conversations db !! j = Some c' →
    participant_1 c = participant_1 c' → participant_2 c = participant_2 c' →
    i = j.

(** The ordering the [Conversation] docstring asks of every row:
    participants stored in alphabetical order by username. *)
Definition canonical (db : Database) : Prop :=
  ∀ c, c ∈ conversations db →
    pystr.lt (participant_1 c) (participant_2 c) = true.

(** Two rows are between the same two users, in either order. *)
Definition same_pair (c c' : Conversation) : Prop :=
  (participant_1 c = participant_1 c' ∧ participant_2 c = participant_2 c')
  ∨ (participant_1 c = participant_2 c' ∧ participant_2 c = participant_1 c').

End models.

(** ** [messaging/views.py] *)
Module views.

(** The rows [MarkMessagesReadView.patch] updates: the unread messages
    of the conversation that the requesting user did not send. *)
Definition unread_from_other (conversation_id : uuid) (user : str)
  (m : Message) : Prop :=
  conversation m = conversation_id ∧ is_read m = false ∧ sender m ≠ user.

#[global] Instance unread_from_other_dec cid user m :
  Decision (unread_from_other cid user m).
Proof. unfold unread_from_other. apply _. Defined.

Definition set_read (t : datetime) (m : Message) : Message :=
  {| msg_id := msg_id m; conversation := conversation m;
     sender := sender m; content := content m;
     msg_created_at := msg_created_at m;
     read_at := Some t; is_read := true |}.

(** [MarkMessagesReadView.patch] for the authenticated [user] at clock
    reading [t]: [Http404] unless the user is a participant of the
    conversation with that id, otherwise the [marked_read] field of the
    response and the database after the [update]. *)
Definition patch (t : datetime) (db : Database) (user : str)
  (conversation_id : uuid) : result (nat * Database) :=
  match
    list_find (λ c, (participant_1 c = user ∨ participant_2 c = user)
                    ∧ conv_id c = conversation_id) (conversations db)
  with
  | None => Raise Http404
  | Some (_, conversation) =>
      let selected := unread_from_other (conv_id conversation) user in
      let updated_count := length (filter selected (messages db)) in
      Ok (updated_count,
          {| users := users db; follows := follows db;
             conversations := conversations db;
             messages := (λ m, if decide (selected m) then set_read t m
                               else m) <$> messages db;
             next_uuid := next_uuid db |})
  end.

End views.

(** ** JSON values, channel-layer events and socket frames *)

Local Unset Elimination Schemes.

(** What [json.loads] returns: [None], a [bool], a number, a [str], a
    [list] or a [dict] with string keys. *)
Inductive json :=
| JNull
| JBool (b : bool)
| JInt (z : Z)
| JFloat (mantissa exponent : Z)
| JStr (s : str)
| JList (l : list json)
| JDict (d : gmap str json).

Local Set Elimination Schemes.

(** [j == s] for a string literal [s]. *)
Definition is_str (j : json) (s : str) : bool :=
  match j with
  | JStr t => bool_decide (t = s)
  | _ => false
  end.

(** The event dictionaries handed to [channel_layer.group_send]; the
    constructor is the [type] entry.  [message_id] is [None] when the
    dictionary has no such key. *)
Inductive Event :=
| chat_message_event (content sender : str) (timestamp : datetime)
    (message_id : option uuid)
| typing_indicator_event (username : str) (is_typing : bool)
| read_receipt_event (reader : str) (message_ids : json)
| user_joined_event (username : str)
| user_left_event (username : str).

(** The text of an [error] frame. *)
Inductive ErrorText :=
| error_text (message : str)
| unknown_message_type (message_type : json).

(** The dictionaries serialised to the client socket; [timestamp] is the
    clock reading rendered by [isoformat() + 'Z'], and a [message_id] of
    [None] is JSON [null]. *)
Inductive Frame :=
| chat_message_frame (content sender : str) (timestamp : datetime)
    (message_id : option uuid)
| typing_frame (username : str) (is_typing : bool)
| read_receipt_frame (reader : str) (message_ids : json)
| user_joined_frame (username : str)
| user_left_frame (username : str)
| error_frame (message : ErrorText).

(** The observable steps of a consumer, in the order they happen. *)
Inductive Action :=
| Accept (channel : str)
| Close (channel : str) (code : N)
| Send (channel : str) (frame : Frame)
| GroupAdd (group channel : str)
| GroupDiscard (group channel : str)
| GroupSend (group : str) (event : Event).

(** The process state shared by all consumers: the database, the clock,
    the groups of the channel layer, the events queued for each channel
    and the trace of steps taken so far. *)
Record World := {
  db : Database;
  clock : datetime;
  groups : gmap str (gset str);
  pending : list (str * Event);
  trace : list Action;
}.

(** The channels currently in a group. *)
Definition members (w : World) (group : str) : gset str :=
  default ∅ (groups w !! group).

(** ** The effect monad of a consumer *)

Inductive outcome (A : Type) :=
| Returned (a : A) (w : World)
| Raised (e : exn) (w : World).
Arguments Returned {A} a w.
Arguments Raised {A} e w.

Definition M (A : Type) : Type := World → outcome A.

#[global] Instance M_ret : MRet M := λ A a w, Returned a w.
#[global] Instance M_bind : MBind M := λ A B f m w,
  match m w with
  | Returned a w' => f a w'
  | Raised e w' => Raised e w'
  end.

Definition raise {A} (e : exn) : M A := λ w, Raised e w.

Definition lift {A} (r : result A) : M A := λ w,
  match r with
  | Ok a => Returned a w
  | Raise e => Raised e w
  end.

(** Reading an attribute that may not have been assigned yet. *)
Definition attr {A} (a : option A) : M A :=
  match a with
  | Some x => mret x
  | None => raise AttributeError
  end.

Definition read_db : M Database := λ w, Returned (db w) w.
Definition read_clock : M datetime := λ w, Returned (clock w) w.

Definition log (a : Action) (w : World) : World :=
  {| db := db w; clock := clock w; groups := groups w;
     pending := pending w; trace := trace w ++ [a] |}.

Definition emit (a : Action) : M unit := λ w, Returned () (log a w).

(** The channel layer, as the in-memory layer of Channels implements it.
    The channel handed to it is always the consumer's own [channel_name],
    which the layer generated itself; its check of that name is left out. *)
Module channel_layer.

(** The characters [\d] matches in a [str] pattern: the decimal digits
    of Unicode (category Nd, version 14.0 as in Python 3.11), by their
    ranges. *)
Definition decimal_digits : list (N * N) :=
  [(0x30, 0x39); (0x660, 0x669); (0x6F0, 0x6F9); (0x7C0, 0x7C9);
   (0x966, 0x96F); (0x9E6, 0x9EF); (0xA66, 0xA6F); (0xAE6, 0xAEF);
   (0xB66, 0xB6F); (0xBE6, 0xBEF); (0xC66, 0xC6F); (0xCE6, 0xCEF);
   (0xD66, 0xD6F); (0xDE6, 0xDEF); (0xE50, 0xE59); (0xED0, 0xED9);
   (0xF20, 0xF29); (0x1040, 0x1049); (0x1090, 0x1099); (0x17E0, 0x17E9);
   (0x1810, 0x1819); (0x1946, 0x194F); (0x19D0, 0x19D9); (0x1A80, 0x1A89);
   (0x1A90, 0x1A99); (0x1B50, 0x1B59); (0x1BB0, 0x1BB9); (0x1C40, 0x1C49);
   (0x1C50, 0x1C59); (0xA620, 0xA629); (0xA8D0, 0xA8D9); (0xA900, 0xA909);
   (0xA9D0, 0xA9D9); (0xA9F0, 0xA9F9); (0xAA50, 0xAA59); (0xABF0, 0xABF9);
   (0xFF10, 0xFF19); (0x104A0, 0x104A9); (0x10D30, 0x10D39);
   (0x11066, 0x1106F); (0x110F0, 0x110F9); (0x11136, 0x1113F);
   (0x111D0, 0x111D9); (0x112F0, 0x112F9); (0x11450, 0x11459);
   (0x114D0, 0x114D9); (0x11650, 0x11659); (0x116C0, 0x116C9);
   (0x11730, 0x11739); (0x118E0, 0x118E9); (0x11950, 0x11959);
   (0x11C50, 0x11C59); (0x11D50, 0x11D59); (0x11DA0, 0x11DA9);
   (0x16A60, 0x16A69); (0x16AC0, 0x16AC9); (0x16B50, 0x16B59);
   (0x1D7CE, 0x1D7FF); (0x1E140, 0x1E149); (0x1E2F0, 0x1E2F9);
   (0x1E950, 0x1E959); (0x1FBF0, 0x1FBF9)].

Definition re_digit (c : N) : bool :=
  existsb (λ r, (r.1 <=? c) && (c <=? r.2)) decimal_digits.

(** A character of the class [[a-zA-Z\d\-_.]]. *)
Definition group_name_char (c : N) : bool :=
  ((ord "a" <=? c) && (c <=? ord "z"))
  || ((ord "A" <=? c) && (c <=? ord "Z"))
  || re_digit c
  || bool_decide (c = ord "-") || bool_decide (c = ord "_")
  || bool_decide (c = ord ".").

(** [group_name_regex.match(name)] for the pattern [^[a-zA-Z\d\-_.]+$];
    the [$] also matches before a newline that ends the name. *)
Definition group_name_regex (name : str) : bool :=
  let body :=
    match reverse name with
    | c :: rest => if bool_decide (c = 10) then reverse rest else name
    | [] => name
    end in
  negb (bool_decide (body = [])) && forallb group_name_char body.

(** [MAX_NAME_LENGTH] *)
Definition MAX_NAME_LENGTH : N := 100.

(** [match_type_and_length], on a string. *)
Definition match_type_and_length (name : str) : bool :=
  pystr.len name <? MAX_NAME_LENGTH.

Definition valid_group_name (name : str) : bool :=
  match_type_and_length name && group_name_regex name.

(** [require_valid_group_name]: [TypeError] on a name that is too long
    or does not match. *)
Definition require_valid_group_name (name : str) : M unit :=
  if valid_group_name name then mret () else raise TypeError.

Definition group_add (group channel : str) : M unit :=
  require_valid_group_name group;;
  ((λ w,
      Returned ()
        (log (GroupAdd group channel)
           {| db := db w; clock := clock w;
              groups := <[group := {[channel]} ∪ members w group]> (groups w);
              pending := pending w; trace := trace w |})) : M unit).

Definition group_discard (group channel : str) : M unit :=
  require_valid_group_name group;;
  ((λ w,
      let groups' :=
        match groups w !! group with
        | Some channels =>
            let channels' := channels ∖ {[channel]} in
            if decide (channels' = ∅) then delete group (groups w)
            else <[group := channels']> (groups w)
        | None => groups w
        end in
      Returned ()
        (log (GroupDiscard group channel)
           {| db := db w; clock := clock w; groups := groups';
              pending := pending w; trace := trace w |})) : M unit).

(** Every channel of the group gets the event queued. *)
Definition group_send (group : str) (event : Event) : M unit :=
  require_valid_group_name group;;
  ((λ w,
      Returned ()
        (log (GroupSend group event)
           {| db := db w; clock := clock w; groups := groups w;
              pending := pending w
                         ++ ((λ c, (c, event)) <$> elements (members w group));
              trace := trace w |})) : M unit).

End channel_layer.

(** ** [messaging/consumers.py] *)
Module consumers.

(** A [ChatConsumer] instance: what Channels gives it ([scope],
    [channel_name]) and the attributes [connect] assigns, [None] while
    unassigned. *)
Record ChatConsumer := {
  scope : Scope;
  channel_name : str;
  user : option User;
  room_name : option str;
  room_group_name : option str;
}.

(** The instance Channels creates for a new connection. *)
Definition new (scope : Scope) (channel_name : str) : ChatConsumer :=
  {| scope := scope; channel_name := channel_name;
     user := None; room_name := None; room_group_name := None |}.

(** [isinstance(user, AnonymousUser) or not user.is_authenticated];
    [is_authenticated] is constantly true on a [MyUser]. *)
Definition is_anonymous (u : User) : bool :=
  match u with
  | AnonymousUser => true
  | MyUser _ => false
  end.

(** [l[i]] *)
Definition index (l : list str) (i : nat) : M str :=
  match l !! i with
  | Some x => mret x
  | None => raise IndexError
  end.

(** [self.send(text_data=json.dumps(frame))] *)
Definition send (self : ChatConsumer) (frame : Frame) : M unit :=
  emit (Send (channel_name self) frame).

(** [self.close(code=code)] *)
Definition close (self : ChatConsumer) (code : N) : M unit :=
  emit (Close (channel_name self) code).

(** [self.accept()] *)
Definition accept (self : ChatConsumer) : M unit :=
  emit (Accept (channel_name self)).

Definition send_error (self : ChatConsumer) (message : ErrorText) : M unit :=
  send self (error_frame message).

Definition _get_timestamp (self : ChatConsumer) : M datetime := read_clock.

Definition _check_mutual_follow (self : ChatConsumer) (other_username : str)
  : M bool :=
  db ← read_db;
  match MyUser_objects_get db other_username with
  | Some other_user =>
      self_user ← attr (user self);
      match self_user with
      | MyUser name =>
          mret (permissions.check_mutual_follow db name (username other_user))
      | AnonymousUser => raise AttributeError
      end
  | None => mret false
  end.

(** [_can_join_room]: the conditional expression reads
    [participants[1]] first, then [participants[0]] or [participants[1]]
    again. *)
Definition _can_join_room (self : ChatConsumer) : M bool :=
  room_name ← attr (room_name self);
  let participants := pystr.split (ord "_") room_name in
  self_user ← attr (user self);
  if negb (bool_decide (username self_user ∈ participants)) then mret false
  else
    second ← index participants 1;
    other_username ← (if bool_decide (second = username self_user)
                      then index participants 0
                      else index participants 1);
    _check_mutual_follow self other_username.

(** [connect]: the consumer it returns carries the three attributes,
    which are assigned before the first check. *)
Definition connect (self : ChatConsumer) : M ChatConsumer :=
  let self_user := default AnonymousUser (scope_user (scope self)) in
  let name := scope_room_name (scope self) in
  let group := py "chat_" ++ name in
  let self := {| scope := scope self; channel_name := channel_name self;
                 user := Some self_user; room_name := Some name;
                 room_group_name := Some group |} in
  if is_anonymous self_user then
    close self 4001;; mret self
  else
    can_join ← _can_join_room self;
    if negb can_join then
      close self 4003;; mret self
    else
      channel_layer.group_add group (channel_name self);;
      accept self;;
      channel_layer.group_send group
        (user_joined_event (username self_user));;
      mret self.

(** [disconnect]: [hasattr(self, 'room_group_name')] is the test on the
    optional attribute; both kinds of user have a [username], so the
    default of [getattr(self.user, 'username', 'Unknown')] is never
    taken. *)
Definition disconnect (self : ChatConsumer) (close_code : N) : M unit :=
  match room_group_name self with
  | Some group =>
      self_user ← attr (user self);
      channel_layer.group_send group (user_left_event (username self_user));;
      channel_layer.group_discard group (channel_name self)
  | None => mret ()
  end.

(** [_handle_chat_message]: [data.get('content', '').strip()] needs a
    string; the only effect of the accepted case is the [group_send]. *)
Definition _handle_chat_message (self : ChatConsumer) (data : gmap str json)
  : M unit :=
  content ← match default (JStr []) (data !! py "content") with
            | JStr s => mret (pystr.strip s)
            | _ => raise AttributeError
            end;
  if bool_decide (content = []) then
    send_error self (error_text (py "Message content cannot be empty"))
  else if 2000 <? pystr.len content then
    send_error self (error_text (py "Message too long (max 2000 characters)"))
  else
    group ← attr (room_group_name self);
    self_user ← attr (user self);
    timestamp ← _get_timestamp self;
    channel_layer.group_send group
      (chat_message_event content (username self_user) timestamp None).

Definition _handle_typing_start (self : ChatConsumer) : M unit :=
  group ← attr (room_group_name self);
  self_user ← attr (user self);
  channel_layer.group_send group
    (typing_indicator_event (username self_user) true).

Definition _handle_typing_stop (self : ChatConsumer) : M unit :=
  group ← attr (room_group_name self);
  self_user ← attr (user self);
  channel_layer.group_send group
    (typing_indicator_event (username self_user) false).

Definition _handle_mark_read (self : ChatConsumer) (data : gmap str json)
  : M unit :=
  let message_ids := default (JList []) (data !! py "message_ids") in
  group ← attr (room_group_name self);
  self_user ← attr (user self);
  channel_layer.group_send group
    (read_receipt_event (username self_user) message_ids).

(** [receive], given the outcome of [json.loads(text_data)]: the value
    it returns or the exception it raises.  Only [JSONDecodeError] is
    caught; the [ValueError] of an integer literal beyond the digit
    limit and the [RecursionError] of deep nesting leave the method. *)
Definition receive (self : ChatConsumer) (loaded : result json) : M unit :=
  match loaded with
  | Raise JSONDecodeError =>
      send_error self (error_text (py "Invalid JSON format"))
  | Raise e => raise e
  | Ok (JDict data) =>
      let message_type :=
        default (JStr (py "chat_message")) (data !! py "type") in
      if is_str message_type (py "chat_message") then
        _handle_chat_message self data
      else if is_str message_type (py "typing_start") then
        _handle_typing_start self
      else if is_str message_type (py "typing_stop") then
        _handle_typing_stop self
      else if is_str message_type (py "mark_read") then
        _handle_mark_read self data
      else send_error self (unknown_message_type message_type)
  | Ok _ => raise AttributeError
  end.



(** *** Event handlers: what a consumer does with an event of its group *)

Definition chat_message (self : ChatConsumer)
  (content sender : str) (timestamp : datetime) (message_id : option uuid)
  : M unit :=
  send self (chat_message_frame content sender timestamp message_id).

Definition typing_indicator (self : ChatConsumer) (name : str)
  (is_typing : bool) : M unit :=
  self_user ← attr (user self);
  if negb (bool_decide (name = username self_user))
  then send self (typing_frame name is_typing)
  else mret ().

Definition read_receipt (self : ChatConsumer) (reader : str)
  (message_ids : json) : M unit :=
  self_user ← attr (user self);
  if negb (bool_decide (reader = username self_user))
  then send self (read_receipt_frame reader message_ids)
  else mret ().

Definition user_joined (self : ChatConsumer) (name : str) : M unit :=
  self_user ← attr (user self);
  if negb (bool_decide (name = username self_user))
  then send self (user_joined_frame name)
  else mret ().

Definition user_left (self : ChatConsumer) (name : str) : M unit :=
  self_user ← attr (user self);
  if negb (bool_decide (name = username self_user))
  then send self (user_left_frame name)
  else mret ().

(** Channels calls the method named by the [type] entry of the event. *)
Definition dispatch (self : ChatConsumer) (event : Event) : M unit :=
  match event with
  | chat_message_event content sender timestamp message_id =>
      chat_message self content sender timestamp message_id
  | typing_indicator_event name is_typing =>
      typing_indicator self name is_typing
  | read_receipt_event reader message_ids =>
      read_receipt self reader message_ids
  | user_joined_event name => user_joined self name
  | user_left_event name => user_left self name
  end.

End consumers.

(** ** Observations on a step of the world *)

(** The step from [w] to [w'] is one broadcast of [event] to [group]: the
    event is queued for every channel of the group, and nothing else
    changes; in particular nothing is written to the database. *)
Definition broadcast (group : str) (event : Event) (w w' : World) : Prop :=
  trace w' = trace w ++ [GroupSend group event]
  ∧ pending w' = pending w ++ ((λ c, (c, event)) <$> elements (members w group))
  ∧ db w' = db w ∧ groups w' = groups w ∧ clock w' = clock w.

(** The step from [w] to [w'] is one frame written to the socket of
    [channel]: no event is queued for anyone and nothing else changes. *)
Definition replied (channel : str) (frame : Frame) (w w' : World) : Prop :=
  trace w' = trace w ++ [Send channel frame]
  ∧ pending w' = pending w
  ∧ db w' = db w ∧ groups w' = groups w ∧ clock w' = clock w.

(** ** Scenario data *)
Module scenario.

Definition alice : str := py "alice".
Definition bob : str := py "bob".
Definition carol : str := py "carol".
Definition dave : str := py "dave".
Definition zed : str := py "zed".

(** [alice] and [bob] follow each other; [carol] follows [dave], who
    does not follow back. *)
Definition db0 : Database :=
  {| users := {[alice; bob; carol; dave; zed]};
     follows := {[(alice, bob); (bob, alice); (carol, dave)]};
     conversations := []; messages := []; next_uuid := 0 |}.

Definition w0 : World :=
  {| db := db0; clock := 1000%Z; groups := ∅; pending := []; trace := [] |}.

(** The scope of a handshake once the middleware has run. *)
Definition scope_of (u : User) (room : str) : Scope :=
  {| scope_headers := Some []; scope_query_string := Some [];
     scope_user := Some u; scope_room_name := room |}.

Definition channel_a : str := py "specific.a".
Definition channel_b : str := py "specific.b".
Definition channel_c : str := py "specific.c".

Definition room_alice_bob : str := py "alice_bob".
Definition group_alice_bob : str := py "chat_alice_bob".

(** [alice] and [bob] in their room, each on one connection. *)
Definition alice_consumer : consumers.ChatConsumer :=
  {| consumers.scope := scope_of (MyUser alice) room_alice_bob;
     consumers.channel_name := channel_a;
     consumers.user := Some (MyUser alice);
     consumers.room_name := Some room_alice_bob;
     consumers.room_group_name := Some group_alice_bob |}.

Definition bob_consumer : consumers.ChatConsumer :=
  {| consumers.scope := scope_of (MyUser bob) room_alice_bob;
     consumers.channel_name := channel_b;
     consumers.user := Some (MyUser bob);
     consumers.room_name := Some room_alice_bob;
     consumers.room_group_name := Some group_alice_bob |}.

Definition w_joined : World :=
  {| db := db0; clock := 1000%Z;
     groups := {[group_alice_bob := {[channel_a; channel_b]}]};
     pending := []; trace := [] |}.

(** [{"type": "chat_message", "content": content}] *)
Definition chat_frame (content : str) : gmap str json :=
  {[py "type" := JStr (py "chat_message"); py "content" := JStr content]}.

(** The stored conversation of [alice] and [bob]: one unread message
    from [bob], one unread message from [alice], and one message from
    [bob] that [alice] has read. *)
Definition conversation_ab : Conversation :=
  {| conv_id := 7; participant_1 := alice; participant_2 := bob;
     created_at := 1%Z; updated_at := 5%Z |}.

Definition message (id : uuid) (from : str) (text : str) (t : datetime)
  (read : option datetime) : Message :=
  {| msg_id := id; conversation := 7; sender := from; content := text;
     msg_created_at := t; read_at := read;
     is_read := bool_decide (is_Some read) |}.

Definition db_chat : Database :=
  {| users := users db0; follows := follows db0;
     conversations := [conversation_ab];
     messages := [message 8 bob (py "hello") 2%Z (Some 3%Z);
                  message 9 alice (py "hi bob") 4%Z None;
                  message 10 bob (py "are you there?") 5%Z None];
     next_uuid := 11 |}.

End scenario.

From stdpp Require Import sorting.

Open Scope N_scope.

(** ** [base/serializers.py] and [base/views.py]: the follow graph *)
Module base.

(** [MyUserSerializer.get_followers_count]: [obj.followers.count()]. *)
Definition get_followers_count (db : Database) (obj : str) : nat :=
  size (filter (λ p, p.2 = obj) (follows db)).

(** [MyUserSerializer.get_following_count]: [obj.following.count()]. *)
Definition get_following_count (db : Database) (obj : str) : nat :=
  size (filter (λ p, p.1 = obj) (follows db)).

(** [MyUserSerializer.get_can_message]; [request_user] is [None] when
    the serializer context has no request. *)
Definition get_can_message (db : Database) (request_user : option User)
  (obj : str) : bool :=
  match request_user with
  | None | Some AnonymousUser => false
  | Some (MyUser name) =>
      if bool_decide (name = obj) then false
      else permissions.check_mutual_follow db name obj
  end.

Definition set_follows (f : gset (str * str)) (db : Database) : Database :=
  {| users := users db; follows := f; conversations := conversations db;
     messages := messages db; next_uuid := next_uuid db |}.

(** The body of a [toggle_follow] response. *)
Inductive ToggleFollow :=
| now_following (b : bool)
| toggle_follow_error (message : str).

(** [toggle_follow] for the authenticated [request_user]; [target] is
    the string under [request.data["username"]], [None] when the key is
    missing (the [KeyError] is caught by the outer [except]).  The result
    is the status, the body and the database. *)
Definition toggle_follow (db : Database) (request_user : str)
  (target : option str) : (N * ToggleFollow) * Database :=
  match MyUser_objects_get db request_user with
  | None => ((404, toggle_follow_error (py "User not found")), db)
  | Some my_user =>
      match target with
      | None => ((500, toggle_follow_error (py "error following user")), db)
      | Some target =>
          match MyUser_objects_get db target with
          | None => ((404, toggle_follow_error (py "User not found")), db)
          | Some user_requesting =>
              let edge := (username my_user, username user_requesting) in
              if bool_decide (edge ∈ follows db)
              then ((200, now_following false),
                    set_follows (follows db ∖ {[edge]}) db)
              else ((200, now_following true),
                    set_follows (follows db ∪ {[edge]}) db)
          end
      end
  end.

(** The computed entries of a [get_user_profile_data] response; the
    stored columns [bio] and [profile_image], which the serializer copies
    from the row, are not part of the modelled table. *)
Record Profile := {
  profile_username : str;
  followers_count : nat;
  following_count : nat;
  can_message : bool;
  is_our_profile : bool;
  following : bool;
}.

(** [get_user_profile_data]; [None] is the 404 response. *)
Definition get_user_profile_data (db : Database) (request_user : str)
  (pk : str) : option Profile :=
  match MyUser_objects_get db pk with
  | None => None
  | Some user =>
      Some {| profile_username := username user;
              followers_count := get_followers_count db (username user);
              following_count := get_following_count db (username user);
              can_message :=
                get_can_message db (Some (MyUser request_user)) (username user);
              is_our_profile := bool_decide (username user = request_user);
              following :=
                bool_decide ((request_user, username user) ∈ follows db) |}
  end.

End base.

(** ** [config/asgi.py]: the WebSocket application *)
Module asgi.


End asgi.

(** ** [messaging/models.py]: [Message.mark_as_read] *)
Module message.

(** [self.save(update_fields=['is_read', 'read_at'])]: the two columns of
    the row with the instance's primary key; [None] when there is no such
    row, which Django reports as a [DatabaseError]. *)
Definition save_read_fields (self : Message) (db : Database)
  : option Database :=
  if bool_decide (Exists (λ r, msg_id r = msg_id self) (messages db)) then
    Some {| users := users db; follows := follows db;
            conversations := conversations db;
            messages :=
              (λ r, if decide (msg_id r = msg_id self)
                    then {| msg_id := msg_id r; conversation := conversation r;
                            sender := sender r; content := content r;
                            msg_created_at := msg_created_at r;
                            read_at := read_at self;
                            is_read := is_read self |}
                    else r) <$> messages db;
            next_uuid := next_uuid db |}
  else None.

(** [Message.mark_as_read] at clock reading [t]: the instance afterwards
    and the database. *)
Definition mark_as_read (t : datetime) (db : Database) (self : Message)
  : option (Message * Database) :=
  if negb (is_read self) then
    let self := views.set_read t self in
    db ← save_read_fields self db;
    Some (self, db)
  else Some (self, db).

End message.

(** ** [messaging/serializers.py] *)
Module serializers.

(** The validation errors of [SendMessageSerializer]. *)
Inductive FieldError :=
| required
| blank
| max_length
| null_characters_not_allowed
| surrogate_characters_not_allowed
| user_not_found
| message_empty.

#[global] Instance FieldError_eq_dec : EqDecision FieldError.
Proof. solve_decision. Defined.

Inductive validation (A : Type) :=
| Valid (a : A)
| Invalid (errors : list FieldError).
Arguments Valid {A} a.
Arguments Invalid {A} errors.

(** A surrogate code point. *)
Definition is_surrogate (c : N) : bool := (0xD800 <=? c) && (c <=? 0xDFFF).

(** [serializers.CharField(max_length=n)] on the entry of a field that
    is a string when present ([None]: the key is missing).  The field is
    required, does not allow blank values and trims white space; its
    validators are the length bound and the bans on null and surrogate
    characters, whose errors are collected together.  Entries of another
    JSON type are not covered: the field turns a number into its text
    and refuses the other types. *)
Definition CharField (n : N) (data : option str) : validation str :=
  match data with
  | None => Invalid [required]
  | Some data =>
      if bool_decide (pystr.strip data = []) then Invalid [blank]
      else
        let value := pystr.strip data in
        let errors :=
          (if n <? pystr.len value then [max_length] else [])
          ++ (if pystr.contains 0 value then [null_characters_not_allowed]
              else [])
          ++ (if existsb is_surrogate value
              then [surrogate_characters_not_allowed] else []) in
        match errors with
        | [] => Valid value
        | _ => Invalid errors
        end
  end.

(** [SendMessageSerializer.validate_receiver_username] *)
Definition validate_receiver_username (db : Database) (value : str)
  : validation str :=
  match MyUser_objects_get db value with
  | Some _ => Valid value
  | None => Invalid [user_not_found]
  end.

(** [SendMessageSerializer.validate_content] *)
Definition validate_content (value : str) : validation str :=
  let content := pystr.strip value in
  if bool_decide (content = []) then Invalid [message_empty]
  else Valid content.

(** A field of a serializer: the field's own validation, then the
    [validate_<field>] method on its result. *)
Definition field (run_validation : validation str)
  (validate_method : str → validation str) : validation str :=
  match run_validation with
  | Valid value => validate_method value
  | Invalid errors => Invalid errors
  end.

Definition errors_of (name : str) (v : validation str)
  : gmap str (list FieldError) :=
  match v with
  | Valid _ => ∅
  | Invalid errors => {[name := errors]}
  end.

(** [SendMessageSerializer(data=...).is_valid()]: the [errors] of the
    serializer, or its [validated_data] as the pair of
    [receiver_username] and [content]. *)
Definition SendMessageSerializer (db : Database)
  (receiver_username content : option str)
  : gmap str (list FieldError) + (str * str) :=
  let receiver_field :=
    field (CharField 50 receiver_username) (validate_receiver_username db) in
  let content_field := field (CharField 2000 content) validate_content in
  match receiver_field, content_field with
  | Valid receiver_username, Valid content => inr (receiver_username, content)
  | _, _ =>
      inl (errors_of (py "receiver_username") receiver_field
           ∪ errors_of (py "content") content_field)
  end.

(** The preview in [ConversationSerializer.get_last_message]:
    [content[:50] + ('...' if len(content) > 50 else '')]. *)
Definition preview (content : str) : str :=
  take 50 content ++ (if 50 <? pystr.len content then py "..." else []).

End serializers.

(** ** [messaging/views.py]: the other endpoints *)

(** [conversation.save()] at clock reading [t]: the row with the
    instance's primary key takes the instance's columns, [updated_at]
    being set to [t]. *)
Definition save_conversation (t : datetime) (instance : Conversation)
  (db : Database) : Database :=
  {| users := users db; follows := follows db;
     conversations :=
       (λ r, if decide (conv_id r = conv_id instance)
             then {| conv_id := conv_id instance;
                     participant_1 := participant_1 instance;
                     participant_2 := participant_2 instance;
                     created_at := created_at instance;
                     updated_at := t |}
             else r) <$> conversations db;
     messages := messages db; next_uuid := next_uuid db |}.

(** [Message.objects.create(conversation=..., sender=..., content=...)]
    at clock reading [t]: the new row and the database. *)
Definition create_message (t : datetime) (db : Database)
  (conversation_id : uuid) (from : str) (text : str) : Message * Database :=
  let m := {| msg_id := next_uuid db; conversation := conversation_id;
              sender := from; content := text; msg_created_at := t;
              read_at := None; is_read := false |} in
  (m, {| users := users db; follows := follows db;
         conversations := conversations db;
         messages := messages db ++ [m];
         next_uuid := next_uuid db + 1 |}).

(** The conversation with this id among those of [user], as
    [get_object_or_404] over the participant filter finds it. *)
Definition conversation_of (db : Database) (user : str)
  (conversation_id : uuid) : option Conversation :=
  snd <$> list_find (λ c, (participant_1 c = user ∨ participant_2 c = user)
                          ∧ conv_id c = conversation_id) (conversations db).

Module SendMessageView.

Inductive Body :=
| errors (e : gmap str (list serializers.FieldError))
| error (message : str)
| not_found
| created (message : Message) (conversation_id : uuid) (room_name : str).

(** [SendMessageView.post] for the authenticated [request_user], the
    two entries of the request body being strings when present.  The
    three clock readings are those of the conversation's creation, of the
    message's creation and of the final [conversation.save()].  The
    [message] entry of the 201 body is the serialisation of the row
    given here. *)
Definition post (t_conversation t_message t_save : datetime) (db : Database)
  (request_user : str) (receiver_username content : option str)
  : (N * Body) * Database :=
  match serializers.SendMessageSerializer db receiver_username content with
  | inl e => ((400, errors e), db)
  | inr (receiver_username, content) =>
      if bool_decide (receiver_username = request_user) then
        ((400, error (py "Cannot send message to yourself")), db)
      else
        match MyUser_objects_get db receiver_username with
        | None => ((404, not_found), db)
        | Some receiver =>
            let '(can_message, reason) :=
              permissions.can_message_user db request_user (username receiver) in
            if negb can_message then ((403, error (default [] reason)), db)
            else
              let '((conversation, _), db) :=
                models.get_or_create_between t_conversation db request_user
                  (username receiver) in
              let '(message, db) :=
                create_message t_message db (conv_id conversation)
                  request_user content in
              let db := save_conversation t_save conversation db in
              ((201, created message (conv_id conversation)
                       (models.get_room_name conversation)), db)
        end
  end.

End SendMessageView.

Module StartConversationView.

Inductive Body :=
| error (message : str)
| not_found
| started (conversation : Conversation) (created : bool).

(** [StartConversationView.post]; [name] is the string under
    [request.data.get('username')], [None] when there is none.  The
    [conversation] entry of the body is the serialisation of the row
    given here. *)
Definition post (t : datetime) (db : Database) (request_user : str)
  (name : option str) : (N * Body) * Database :=
  if negb (truthy name) then
    ((400, error (py "Username is required")), db)
  else
    let name := default [] name in
    if bool_decide (name = request_user) then
      ((400, error (py "Cannot start conversation with yourself")), db)
    else
      match MyUser_objects_get db name with
      | None => ((404, not_found), db)
      | Some other_user =>
          let '(can_message, reason) :=
            permissions.can_message_user db request_user (username other_user) in
          if negb can_message then ((403, error (default [] reason)), db)
          else
            let '((conversation, created), db) :=
              models.get_or_create_between t db request_user
                (username other_user) in
            ((if created then 201 else 200, started conversation created), db)
      end.

End StartConversationView.

(** [order_by('-created_at')]: newest first. *)
Definition newest_first (a b : Message) : Prop :=
  (msg_created_at b ≤ msg_created_at a)%Z.

#[global] Instance newest_first_dec a b : Decision (newest_first a b).
Proof. unfold newest_first. apply _. Defined.

(** What the database may answer to a query ordered by [-created_at]:
    the rows asked for, newest first.  The order among rows with the
    same [created_at] is the database's choice, made anew for every
    query, so each query below has an ordering of its own. *)
Definition orders_newest_first (order : list Message → list Message) : Prop :=
  ∀ rows, order rows ≡ₚ rows ∧ StronglySorted newest_first (order rows).

(** [conversation.messages]: the rows of the message table that point
    to the conversation. *)
Definition messages_of (db : Database) (c : Conversation) : list Message :=
  filter (λ m, conversation m = conv_id c) (messages db).

Module ConversationMessagesView.

(** [ConversationMessagesView.get], [order] being the answer of the
    database to [order_by('-created_at')].  [before] is the reading of
    the [before] query parameter: [None] when the parameter is missing,
    empty or not an ISO date, in which case the code applies no filter.
    The result is [None] for the 404 response, otherwise the [messages]
    of the body, as the rows they serialise, and its [has_more]. *)
Definition get (order : list Message → list Message) (db : Database)
  (request_user : str) (conversation_id : uuid)
  (before : option datetime) : option (list Message * bool) :=
  match conversation_of db request_user conversation_id with
  | None => None
  | Some c =>
      let selected :=
        match before with
        | Some before_dt =>
            filter (λ m, (msg_created_at m < before_dt)%Z) (messages_of db c)
        | None => messages_of db c
        end in
      let page := reverse (take 50 (order selected)) in
      let has_more :=
        match page with
        | first :: _ =>
            bool_decide
              (Exists (λ m, (msg_created_at m < msg_created_at first)%Z)
                 (messages_of db c))
        | [] => false
        end in
      Some (page, has_more)
  end.

End ConversationMessagesView.

Module ConversationSerializer.

(** The dictionary [get_last_message] returns. *)
Record LastMessage := {
  last_content : str;
  last_sender_username : str;
  last_created_at : datetime;
  last_is_read : bool;
}.

(** [ConversationSerializer.get_last_message], [order] being the answer
    of the database to [order_by('-created_at')]. *)
Definition get_last_message (order : list Message → list Message)
  (db : Database) (obj : Conversation) : option LastMessage :=
  match order (messages_of db obj) with
  | last_msg :: _ =>
      Some {| last_content := serializers.preview (content last_msg);
              last_sender_username := sender last_msg;
              last_created_at := msg_created_at last_msg;
              last_is_read := is_read last_msg |}
  | [] => None
  end.

(** [ConversationDetailSerializer.get_recent_messages], [order] being
    the answer of the database to [order_by('-created_at')]. *)
Definition get_recent_messages (order : list Message → list Message)
  (db : Database) (obj : Conversation) : list Message :=
  reverse (take 20 (order (messages_of db obj))).

End ConversationSerializer.

Module UnreadCountView.

(** [UnreadCountView.get]: the [unread_count] of the response. *)
Definition get (db : Database) (request_user : str) : nat :=
  sum_list ((λ c, models.get_unread_count db c request_user)
              <$> models.for_user db request_user).

End UnreadCountView.

(** ** Further observations *)


(** The same process state over another database. *)
Definition with_db (d : Database) (w : World) : World :=
  {| db := d; clock := clock w; groups := groups w;
     pending := pending w; trace := trace w |}.

(** The world an outcome ends in. *)
Definition world_of {A} (o : outcome A) : World :=
  match o with
  | Returned _ w | Raised _ w => w
  end.


(** A message row is read exactly when it has a [read_at]. *)
Definition read_state_consistent (m : Message) : Prop :=
  is_read m = true ↔ is_Some (read_at m).

(** The primary key of the conversation table. *)
Definition conversation_ids_unique (db : Database) : Prop :=
  NoDup (conv_id <$> conversations db).

(** Every primary key in use came from the supply behind [uuid.uuid4],
    which has moved past it. *)
Definition uuids_from_supply (db : Database) : Prop :=
  (∀ c, c ∈ conversations db → conv_id c < next_uuid db)
  ∧ (∀ m, m ∈ messages db → msg_id m < next_uuid db).

(** An outcome over another database. *)
Definition outcome_with_db {A} (d : Database) (o : outcome A) : outcome A :=
  match o with
  | Returned a w => Returned a (with_db d w)
  | Raised e w => Raised e (with_db d w)
  end.


(** A computation that neither reads nor writes the database. *)
Definition db_blind {A} (m : M A) : Prop :=
  ∀ d w, m (with_db d w) = outcome_with_db d (m w).

(** * Properties *)

Import consumers.

Ltac run :=
  repeat (cbv beta iota delta
            [mbind mret M_bind M_ret result_bind result_ret raise lift attr
             read_db read_clock emit send close accept send_error index
             _get_timestamp] in *; cbn beta iota in * ).

Lemma len_gt_2000 (s : str) : (2000 <? pystr.len s) = true ↔ (2000 < length s)%nat.
Proof. unfold pystr.len. rewrite N.ltb_lt. lia. Qed.

Lemma len_le_2000 (s : str) : (2000 <? pystr.len s) = false ↔ (length s ≤ 2000)%nat.
Proof. unfold pystr.len. rewrite N.ltb_ge. lia. Qed.

(** A layer call on a group name that fails the check raises
    [TypeError] and does nothing. *)
Lemma group_send_invalid group event w :
  channel_layer.valid_group_name group = false →
  channel_layer.group_send group event w = Raised TypeError w.
Proof.
  intros Hv. unfold channel_layer.group_send,
    channel_layer.require_valid_group_name.
  by rewrite Hv.
Qed.

Lemma group_add_invalid group channel w :
  channel_layer.valid_group_name group = false →
  channel_layer.group_add group channel w = Raised TypeError w.
Proof.
  intros Hv. unfold channel_layer.group_add,
    channel_layer.require_valid_group_name.
  by rewrite Hv.
Qed.

Lemma group_discard_invalid group channel w :
  channel_layer.valid_group_name group = false →
  channel_layer.group_discard group channel w = Raised TypeError w.
Proof.
  intros Hv. unfold channel_layer.group_discard,
    channel_layer.require_valid_group_name.
  by rewrite Hv.
Qed.

Lemma group_send_valid group event w :
  channel_layer.valid_group_name group = true →
  channel_layer.group_send group event w
  = Returned ()
      (log (GroupSend group event)
         {| db := db w; clock := clock w; groups := groups w;
            pending := pending w
                       ++ ((λ c, (c, event)) <$> elements (members w group));
            trace := trace w |}).
Proof.
  intros Hv. unfold channel_layer.group_send,
    channel_layer.require_valid_group_name.
  by rewrite Hv.
Qed.

Lemma group_add_valid group channel w :
  channel_layer.valid_group_name group = true →
  channel_layer.group_add group channel w
  = Returned ()
      (log (GroupAdd group channel)
         {| db := db w; clock := clock w;
            groups := <[group := {[channel]} ∪ members w group]> (groups w);
            pending := pending w; trace := trace w |}).
Proof.
  intros Hv. unfold channel_layer.group_add,
    channel_layer.require_valid_group_name.
  by rewrite Hv.
Qed.

Lemma group_send_broadcast group event w :
  channel_layer.valid_group_name group = true →
  ∃ w', channel_layer.group_send group event w = Returned () w'
        ∧ broadcast group event w w'.
Proof.
  intros Hv. rewrite (group_send_valid _ _ _ Hv).
  eexists. split; [reflexivity|]. by repeat split.
Qed.

Lemma send_replied self frame w :
  ∃ w', send self frame w = Returned () w'
        ∧ replied (channel_name self) frame w w'.
Proof. eexists. split; [reflexivity|]. by repeat split. Qed.

(** The three ways [_handle_chat_message] ends on a string content. *)
Lemma handle_chat_message_str self data w s :
  default (JStr []) (data !! py "content") = JStr s →
  _handle_chat_message self data w =
    if bool_decide (pystr.strip s = []) then
      send self (error_frame
                   (error_text (py "Message content cannot be empty"))) w
    else if 2000 <? pystr.len (pystr.strip s) then
      send self (error_frame
                   (error_text (py "Message too long (max 2000 characters)"))) w
    else
      match room_group_name self, user self with
      | Some group, Some u =>
          channel_layer.group_send group
            (chat_message_event (pystr.strip s) (username u) (clock w) None) w
      | _, _ => Raised AttributeError w
      end.
Proof.
  intros Hs. unfold _handle_chat_message. rewrite Hs. run.
  destruct (bool_decide _); [done|].
  destruct (_ <? _); [done|].
  destruct (room_group_name self); [|done].
  by destruct (user self).
Qed.

Lemma receive_chat_message self data w :
  data !! py "type" = Some (JStr (py "chat_message")) →
  receive self (Ok (JDict data)) w = _handle_chat_message self data w.
Proof. intros Ht. unfold receive. by rewrite Ht. Qed.

(** C5. A [chat_message] frame whose trimmed content has exactly 2000
    characters is accepted and broadcast to the room, the room being one
    whose group name the channel layer takes, as it is for every
    consumer that was let into its room (lemma
    [admitted_group_name_is_taken]); one whose trimmed content has 2001
    or more characters, or is empty, gets an error frame on the sender's
    socket only: nothing is broadcast to the room and nothing is written
    to the message table. *)
Theorem chat_message_length_bounds self data w group u s :
  room_group_name self = Some group →
  user self = Some u →
  data !! py "type" = Some (JStr (py "chat_message")) →
  data !! py "content" = Some (JStr s) →
  (length (pystr.strip s) = 2000%nat →
   channel_layer.valid_group_name group = true →
   ∃ w', receive self (Ok (JDict data)) w = Returned () w'
         ∧ broadcast group
             (chat_message_event (pystr.strip s) (username u) (clock w) None)
             w w')
  ∧ ((2000 < length (pystr.strip s))%nat ∨ pystr.strip s = [] →
     ∃ w' text, receive self (Ok (JDict data)) w = Returned () w'
                ∧ replied (channel_name self) (error_frame (error_text text))
                    w w'
                ∧ messages (db w') = messages (db w)).
Proof.
  intros Hg Hu Ht Hc.
  rewrite (receive_chat_message _ _ _ Ht).
  rewrite (handle_chat_message_str self data w s) by (by rewrite Hc).
  rewrite Hg, Hu. split.
  - intros Hlen Hvalid.
    rewrite bool_decide_eq_false_2
      by (intros E; rewrite E in Hlen; discriminate).
    rewrite (proj2 (len_le_2000 _)) by lia.
    by apply group_send_broadcast.
  - intros [Hlen|Hempty].
    + rewrite bool_decide_eq_false_2
        by (intros E; rewrite E in Hlen; simpl in Hlen; lia).
      rewrite (proj2 (len_gt_2000 _)) by done.
      destruct (send_replied self
                  (error_frame (error_text
                     (py "Message too long (max 2000 characters)"))) w)
        as (w' & Hrun & Hrep).
      exists w', (py "Message too long (max 2000 characters)").
      split; [done|]. split; [done|]. destruct Hrep as (_ & _ & -> & _). done.
    + rewrite bool_decide_eq_true_2 by done.
      destruct (send_replied self
                  (error_frame (error_text
                     (py "Message content cannot be empty"))) w)
        as (w' & Hrun & Hrep).
      exists w', (py "Message content cannot be empty").
      split; [done|]. split; [done|]. destruct Hrep as (_ & _ & -> & _). done.
Qed.

(** A frame of exactly 2000 characters, sent by [alice], is broadcast. *)
Lemma chat_message_length_bounds_witness :
  ∃ w', receive scenario.alice_consumer
          (Ok (JDict (scenario.chat_frame (replicate 2000 (ord "a")))))
          scenario.w_joined = Returned () w'
        ∧ broadcast scenario.group_alice_bob
            (chat_message_event (replicate 2000 (ord "a")) scenario.alice
               1000%Z None)
            scenario.w_joined w'.
Proof.
  refine (proj1 (chat_message_length_bounds scenario.alice_consumer
                   (scenario.chat_frame (replicate 2000 (ord "a")))
                   scenario.w_joined scenario.group_alice_bob
                   (MyUser scenario.alice) (replicate 2000 (ord "a"))
                   _ _ _ _) _ _);
    vm_compute; reflexivity.
Defined.

(** What [_handle_chat_message] does with a valid frame.  A
    [chat_message] frame whose trimmed content is non-empty and at most
    2000 characters is broadcast to the room group as a [chat_message]
    event with the trimmed content, the sender's username and the server
    clock reading.  The consumer writes nothing to the database on the
    way (the save is commented out in [_handle_chat_message]), and the
    event has no [message_id]: every consumer of the group forwards it
    with [message_id] null. *)
Lemma chat_message_broadcast_without_persistence self data w group u s :
  room_group_name self = Some group →
  channel_layer.valid_group_name group = true →
  user self = Some u →
  data !! py "type" = Some (JStr (py "chat_message")) →
  data !! py "content" = Some (JStr s) →
  pystr.strip s ≠ [] →
  (length (pystr.strip s) ≤ 2000)%nat →
  let event :=
    chat_message_event (pystr.strip s) (username u) (clock w) None in
  (∃ w', receive self (Ok (JDict data)) w = Returned () w'
         ∧ broadcast group event w w'
         ∧ conversations (db w') = conversations (db w)
         ∧ messages (db w') = messages (db w))
  ∧ ∀ peer w1,
      dispatch peer event w1 =
        Returned ()
          (log (Send (channel_name peer)
                  (chat_message_frame (pystr.strip s) (username u) (clock w)
                     None)) w1).
Proof.
  intros Hg Hvalid Hu Ht Hc Hne Hlen event. split; [|done].
  rewrite (receive_chat_message _ _ _ Ht).
  rewrite (handle_chat_message_str self data w s) by (by rewrite Hc).
  rewrite Hg, Hu, bool_decide_eq_false_2 by done.
  rewrite (proj2 (len_le_2000 _)) by done.
  destruct (group_send_broadcast group event w Hvalid) as (w' & Hrun & Hb).
  exists w'. split; [done|]. split; [done|].
  destruct Hb as (_ & _ & -> & _). done.
Qed.

(** C1 fails on the code.  [alice] sends [{"type": "chat_message",
    "content": "hi"}] in the room she shares with [bob].  The content is
    valid and the frame is broadcast, but nothing was persisted first:
    the message table is still empty, the conversation table is as it
    was, and the event went out without a message identifier, so no
    message row exists whose identifier a broadcast event carries. *)
Lemma chat_message_not_persisted :
  pystr.strip (py "hi") ≠ []
  ∧ (length (pystr.strip (py "hi")) ≤ 2000)%nat
  ∧ (∃ w',
       receive scenario.alice_consumer
         (Ok (JDict (scenario.chat_frame (py "hi")))) scenario.w_joined
       = Returned () w'
       ∧ trace w'
         = trace scenario.w_joined
           ++ [GroupSend scenario.group_alice_bob
                 (chat_message_event (py "hi") scenario.alice
                    (clock scenario.w_joined) None)]
       ∧ messages (db w') = []
       ∧ conversations (db w') = conversations (db scenario.w_joined))
  ∧ ¬ ∃ w' m group c s t,
        receive scenario.alice_consumer
          (Ok (JDict (scenario.chat_frame (py "hi")))) scenario.w_joined
        = Returned () w'
        ∧ m ∈ messages (db w')
        ∧ GroupSend group (chat_message_event c s t (Some (msg_id m)))
          ∈ trace w'.
Proof.
  split; [vm_compute; discriminate|]. split; [vm_compute; lia|]. split.
  - eexists. split; [vm_compute; reflexivity|].
    split; [vm_compute; reflexivity|]. split; reflexivity.
  - intros (w' & m & group & c & s & t & Hrun & Hm & _).
    vm_compute in Hrun. injection Hrun as <-.
    cbn in Hm. by apply elem_of_nil in Hm.
Qed.

(** ** Connecting *)

Lemma check_mutual_follow_pure self other w :
  match _check_mutual_follow self other w with
  | Returned _ w' | Raised _ w' => w' = w
  end.
Proof.
  unfold _check_mutual_follow. run.
  destruct (MyUser_objects_get (db w) other); [|done].
  destruct (user self) as [[|name]|]; done.
Qed.

Lemma can_join_room_pure self w :
  match _can_join_room self w with
  | Returned _ w' | Raised _ w' => w' = w
  end.
Proof.
  unfold _can_join_room. run.
  destruct (room_name self) as [room|]; [|done].
  destruct (user self) as [u|]; [|done].
  destruct (bool_decide _); cbn; [|done].
  destruct (_ !! 1%nat) as [second|]; [|done].
  destruct (bool_decide _); cbn.
  - destruct (_ !! 0%nat); [|done]. apply check_mutual_follow_pure.
  - apply check_mutual_follow_pure.
Qed.

(** The four ways [connect] ends. *)
Lemma connect_cases self w :
  let u := default AnonymousUser (scope_user (scope self)) in
  let group := py "chat_" ++ scope_room_name (scope self) in
  let self1 :=
    {| scope := scope self; channel_name := channel_name self;
       user := Some u; room_name := Some (scope_room_name (scope self));
       room_group_name := Some group |} in
  connect self w =
    if is_anonymous u then Returned self1 (log (Close (channel_name self) 4001) w)
    else match _can_join_room self1 w with
         | Returned false _ =>
             Returned self1 (log (Close (channel_name self) 4003) w)
         | Returned true _ =>
             (channel_layer.group_add group (channel_name self);;
              accept self1;;
              channel_layer.group_send group (user_joined_event (username u));;
              mret self1) w
         | Raised e _ => Raised e w
         end.
Proof.
  intros u group self1. unfold connect. fold u. fold group. fold self1.
  destruct (is_anonymous u); [done|].
  unfold mbind at 1, M_bind at 1.
  pose proof (can_join_room_pure self1 w) as Hp.
  destruct (_can_join_room self1 w) as [[] ?|]; subst; done.
Qed.

(** The admitted branch of [connect], by the layer's check of the group
    name. *)
Lemma connect_admission group c (self1 : ChatConsumer) event w :
  (channel_layer.group_add group c;;
   accept self1;;
   channel_layer.group_send group event;;
   mret self1) w
  = if channel_layer.valid_group_name group then
      Returned self1
        (log (GroupSend group event)
           {| db := db w; clock := clock w;
              groups := <[group := {[c]} ∪ members w group]> (groups w);
              pending :=
                pending w
                ++ ((λ c', (c', event))
                      <$> elements ({[c]} ∪ members w group));
              trace := trace w ++ [GroupAdd group c;
                                   Accept (channel_name self1)] |})
    else Raised TypeError w.
Proof.
  unfold channel_layer.group_add, channel_layer.group_send,
    channel_layer.require_valid_group_name.
  destruct (channel_layer.valid_group_name group); run; [|done].
  unfold log, members. cbn. rewrite lookup_insert_eq. cbn.
  by rewrite <- !(assoc_L (++)).
Qed.

(** The consumer as [connect] leaves it: the three attributes are
    assigned before any check. *)
Lemma connect_attributes self w self' w' :
  connect self w = Returned self' w' →
  scope self' = scope self
  ∧ channel_name self' = channel_name self
  ∧ user self' = Some (default AnonymousUser (scope_user (scope self)))
  ∧ room_name self' = Some (scope_room_name (scope self))
  ∧ room_group_name self' = Some (py "chat_" ++ scope_room_name (scope self)).
Proof.
  rewrite connect_cases. cbv zeta.
  destruct (is_anonymous _); [by intros [= <- _]|].
  destruct (_can_join_room _ w) as [[] ?|]; [|by intros [= <- _]|done].
  rewrite connect_admission.
  destruct (channel_layer.valid_group_name _); [by intros [= <- _]|done].
Qed.

Lemma not_participant_cannot_join self w room u :
  room_name self = Some room → user self = Some u →
  username u ∉ pystr.split (ord "_") room →
  _can_join_room self w = Returned false w.
Proof.
  intros Hr Hu Hn. unfold _can_join_room. rewrite Hr, Hu. run.
  by rewrite bool_decide_eq_false_2.
Qed.

(** C2, as the code has it.  A connection attempt that [connect] turns
    down is closed with one of two codes: 4001 when the identity is
    anonymous, 4003 when it is authenticated but fails the room check,
    whether because it is not a participant of the room or because the
    mutual-follow gate refuses the pair. *)
Theorem rejection_close_codes self w self' w' :
  connect self w = Returned self' w' →
  let u := default AnonymousUser (scope_user (scope self)) in
  let c := channel_name self in
  let participants := pystr.split (ord "_") (scope_room_name (scope self)) in
  (is_anonymous u = true → w' = log (Close c 4001) w)
  ∧ (is_anonymous u = false → username u ∉ participants →
     w' = log (Close c 4003) w)
  ∧ (is_anonymous u = false → username u ∈ participants →
     _can_join_room self' w = Returned false w → w' = log (Close c 4003) w)
  ∧ (∀ code, trace w' = trace w ++ [Close c code] →
     (code = 4001 ∧ is_anonymous u = true)
     ∨ (code = 4003 ∧ is_anonymous u = false)).
Proof.
  intros Hrun u c participants.
  destruct (connect_attributes _ _ _ _ Hrun) as (Hs & Hc & Hu & Hr & Hg).
  rewrite connect_cases in Hrun. cbn zeta in Hrun. fold u in Hrun, Hu.
  destruct (is_anonymous u) eqn:Hanon.
  - injection Hrun as <- <-.
    split; [done|]. split; [done|]. split; [done|].
    intros code Ht. left. split; [|done]. cbn in Ht.
    apply app_inv_head in Ht. by injection Ht as ->.
  - split; [done|].
    match type of Hrun with context [_can_join_room ?s w] =>
      set (self1 := s) in * end.
    assert (self' = self1 →
            _can_join_room self1 w = Returned false w →
            w' = log (Close c 4003) w) as Hfalse.
    { intros _ E. rewrite E in Hrun. by injection Hrun as <- <-. }
    destruct (_can_join_room self1 w) as [[] w1|e w1] eqn:Hjoin;
      [| |done].
    + (* admitted: the trace does not end in the close of a rejection *)
      rewrite connect_admission in Hrun.
      destruct (channel_layer.valid_group_name _); [|done].
      injection Hrun as <- <-.
      split.
      { intros _ Hn.
        rewrite (not_participant_cannot_join self1 w _ u eq_refl eq_refl Hn)
          in Hjoin. done. }
      split.
      { intros _ _ E. rewrite E in Hjoin. done. }
      intros code Ht. cbn in Ht.
      rewrite <- !(assoc_L (++)) in Ht. apply app_inv_head in Ht. done.
    + injection Hrun as <- <-.
      split; [done|]. split; [done|].
      intros code Ht. right. split; [|done]. cbn in Ht.
      apply app_inv_head in Ht. by injection Ht as ->.
Qed.

(** [carol], whom [dave] does not follow back, is turned away from
    [carol_dave] with code 4003. *)
Lemma rejection_close_codes_witness :
  ∃ self' w',
    connect (new (scenario.scope_of (MyUser scenario.carol) (py "carol_dave"))
               scenario.channel_c) scenario.w0 = Returned self' w'
    ∧ w' = log (Close scenario.channel_c 4003) scenario.w0.
Proof.
  eexists _, _. split; [vm_compute; reflexivity|].
  refine (proj1 (proj2 (proj2
            (rejection_close_codes
               (new (scenario.scope_of (MyUser scenario.carol) (py "carol_dave"))
                  scenario.channel_c) scenario.w0 _ _ _))) _ _ _);
    [vm_compute; reflexivity | reflexivity | | vm_compute; reflexivity].
  vm_compute. apply list_elem_of_here.
Defined.

(** C2 as stated fails: [zed], who is not a participant of [alice_bob],
    and [carol], whom the mutual-follow gate refuses for [carol_dave],
    are closed with the same code, so reasons (b) and (c) have no
    distinct codes. *)
Lemma close_code_shared_by_two_reasons :
  let attempt_b :=
    new (scenario.scope_of (MyUser scenario.zed) scenario.room_alice_bob)
      scenario.channel_c in
  let attempt_c :=
    new (scenario.scope_of (MyUser scenario.carol) (py "carol_dave"))
      scenario.channel_c in
  (scenario.zed ∉ pystr.split (ord "_") scenario.room_alice_bob)
  ∧ scenario.carol ∈ pystr.split (ord "_") (py "carol_dave")
  ∧ permissions.check_mutual_follow scenario.db0 scenario.carol scenario.dave
    = false
  ∧ ¬ ∃ self_b self_c code_b code_c,
        connect attempt_b scenario.w0
        = Returned self_b (log (Close scenario.channel_c code_b) scenario.w0)
        ∧ connect attempt_c scenario.w0
          = Returned self_c (log (Close scenario.channel_c code_c) scenario.w0)
        ∧ code_b ≠ code_c.
Proof.
  intros attempt_b attempt_c.
  split; [apply (proj1 (bool_decide_eq_false _)); vm_compute; reflexivity|].
  split; [apply (proj1 (bool_decide_eq_true _)); vm_compute; reflexivity|].
  split; [vm_compute; reflexivity|].
  intros (self_b & self_c & code_b & code_c & Hb & Hc & Hne).
  vm_compute in Hb. vm_compute in Hc.
  injection Hb as _ Hb. injection Hc as _ Hc. subst. done.
Qed.

(** ** Group membership *)

Lemma members_group_add group channel w g :
  channel_layer.valid_group_name group = true →
  ∃ w', channel_layer.group_add group channel w = Returned () w'
        ∧ members w' g = if decide (g = group)
                         then {[channel]} ∪ members w group
                         else members w g.
Proof.
  intros Hv. rewrite (group_add_valid _ _ _ Hv).
  eexists. split; [reflexivity|]. unfold members at 1. cbn.
  destruct (decide (g = group)) as [->|Hne].
  - by rewrite lookup_insert_eq.
  - by rewrite lookup_insert_ne.
Qed.

Lemma members_group_discard group channel w :
  channel_layer.valid_group_name group = true →
  ∃ w', channel_layer.group_discard group channel w = Returned () w'
        ∧ trace w' = trace w ++ [GroupDiscard group channel]
        ∧ pending w' = pending w ∧ db w' = db w
        ∧ ∀ g, members w' g = if decide (g = group)
                              then members w group ∖ {[channel]}
                              else members w g.
Proof.
  intros Hv. unfold channel_layer.group_discard,
    channel_layer.require_valid_group_name.
  rewrite Hv. run.
  eexists. split; [reflexivity|]. cbn. do 3 (split; [done|]).
  intros g. unfold members. cbn.
  destruct (groups w !! group) as [channels|] eqn:Hl.
  - destruct (decide (channels ∖ {[channel]} = ∅)) as [He|He];
      destruct (decide (g = group)) as [->|Hne].
    + rewrite lookup_delete_eq. cbn. by rewrite He.
    + rewrite lookup_delete_ne by done. done.
    + by rewrite lookup_insert_eq.
    + rewrite lookup_insert_ne by done. done.
  - destruct (decide (g = group)) as [->|Hne]; [|done].
    rewrite Hl. cbn. by rewrite empty_difference_L.
Qed.

(** A connection attempt that ends in a close changed nothing but the
    trace. *)
Lemma connect_rejected self w self' w' code :
  connect self w = Returned self' w' →
  trace w' = trace w ++ [Close (channel_name self) code] →
  w' = log (Close (channel_name self) code) w.
Proof.
  intros Hrun Ht. rewrite connect_cases in Hrun. cbn zeta in Hrun.
  destruct (is_anonymous _).
  - injection Hrun as <- <-. cbn in Ht.
    apply app_inv_head in Ht. by injection Ht as ->.
  - destruct (_can_join_room _ w) as [[] w1|e w1]; [| |done].
    + rewrite connect_admission in Hrun.
      destruct (channel_layer.valid_group_name _); [|done].
      injection Hrun as <- <-. cbn in Ht.
      rewrite <- !(assoc_L (++)) in Ht. apply app_inv_head in Ht. done.
    + injection Hrun as <- <-. cbn in Ht.
      apply app_inv_head in Ht. by injection Ht as ->.
Qed.

(** A connection that [connect] did not close was let into its room,
    and the channel layer took the name of the room's group: every
    consumer that handles frames has such a group name. *)
Lemma admitted_group_name_is_taken self w self' w' :
  connect self w = Returned self' w' →
  (∀ code, w' ≠ log (Close (channel_name self) code) w) →
  let group := py "chat_" ++ scope_room_name (scope self) in
  room_group_name self' = Some group
  ∧ channel_layer.valid_group_name group = true
  ∧ channel_name self ∈ members w' group.
Proof.
  intros Hrun Hopen group.
  destruct (connect_attributes _ _ _ _ Hrun) as (_ & _ & _ & _ & Hg).
  split; [done|].
  rewrite connect_cases in Hrun. cbn zeta in Hrun. fold group in Hrun.
  destruct (is_anonymous _);
    [injection Hrun as _ <-; by destruct (Hopen 4001)|].
  destruct (_can_join_room _ w) as [[] w1|]; [| |done];
    [|injection Hrun as _ <-; by destruct (Hopen 4003)].
  rewrite connect_admission in Hrun.
  destruct (channel_layer.valid_group_name group); [|done].
  split; [done|]. injection Hrun as _ <-.
  unfold members. cbn [groups log]. rewrite lookup_insert_eq. cbn.
  set_solver.
Qed.

(** C9 fails on the code for rooms whose group name the channel layer
    does not take.  When [connect] turns a connection down, the consumer
    already has its [room_group_name].  If the layer takes that name,
    the [disconnect] that follows broadcasts [user_left] for that
    identity to the room group and then discards the channel from the
    group; the discard returns normally, and for a channel that was not
    in the group it leaves every group's membership as it was.  If the
    layer does not take the name, which the route allows and which is
    never checked on the way to the rejection, the [disconnect] raises
    [TypeError] at the broadcast: nothing is announced. *)
Theorem disconnect_after_rejection self w self' w' code close_code :
  connect self w = Returned self' w' →
  trace w' = trace w ++ [Close (channel_name self) code] →
  let group := py "chat_" ++ scope_room_name (scope self) in
  let u := default AnonymousUser (scope_user (scope self)) in
  room_group_name self' = Some group
  ∧ groups w' = groups w
  ∧ (channel_layer.valid_group_name group = true →
     ∃ w'', disconnect self' close_code w' = Returned () w''
            ∧ trace w'' = trace w' ++ [GroupSend group (user_left_event (username u));
                                       GroupDiscard group (channel_name self)]
            ∧ pending w'' = pending w'
                            ++ ((λ c, (c, user_left_event (username u)))
                                  <$> elements (members w' group))
            ∧ (channel_name self ∉ members w group →
               ∀ g, members w'' g = members w g))
  ∧ (channel_layer.valid_group_name group = false →
     disconnect self' close_code w' = Raised TypeError w').
Proof.
  intros Hrun Ht group u.
  destruct (connect_attributes _ _ _ _ Hrun) as (Hs & Hc & Hu & Hr & Hg).
  fold u in Hu. fold group in Hg.
  assert (groups w' = groups w) as Hgroups
    by (by rewrite (connect_rejected _ _ _ _ _ Hrun Ht)).
  split; [done|]. split; [done|].
  unfold disconnect. rewrite Hg, Hu. run. split.
  - intros Hvalid. rewrite (group_send_valid _ _ _ Hvalid).
    match goal with |- context [channel_layer.group_discard _ _ ?w1] =>
      assert (∀ g, members w1 g = members w g) as Hsame
        by (intros g; unfold members; by rewrite <- Hgroups);
      destruct (members_group_discard group (channel_name self') w1 Hvalid)
        as (w'' & Hd & Htr & Hp & _ & Hm) end.
    exists w''. rewrite Hd, Hc in *. split; [done|].
    split; [rewrite Htr; cbn; rewrite <- app_assoc; reflexivity|].
    split; [by rewrite Hp|].
    intros Hnot g. rewrite Hm, !Hsame.
    destruct (decide (g = group)) as [->|]; [|done].
    apply difference_disjoint_L, disjoint_singleton_r, Hnot.
  - intros Hinvalid. by rewrite (group_send_invalid _ _ _ Hinvalid).
Qed.

(** A client without credentials asks for a room of 95 characters, a
    name the route takes.  It is turned away with 4001, and the
    [disconnect] that follows raises [TypeError]: the group name has 100
    characters. *)
Lemma disconnect_after_rejection_witness :
  let room := replicate 95 (ord "a") in
  ∃ self' w',
    connect (new (scenario.scope_of AnonymousUser room) scenario.channel_c)
      scenario.w0 = Returned self' w'
    ∧ trace w' = [Close scenario.channel_c 4001]
    ∧ pystr.len (py "chat_" ++ room) = 100
    ∧ disconnect self' 1006 w' = Raised TypeError w'.
Proof.
  intros room.
  pose proof (disconnect_after_rejection
                (new (scenario.scope_of AnonymousUser room) scenario.channel_c)
                scenario.w0 _ _ 4001 1006 eq_refl eq_refl)
    as (_ & _ & _ & Hraises).
  eexists _, _. split; [reflexivity|]. split; [reflexivity|].
  split; [vm_compute; reflexivity|].
  apply Hraises. vm_compute. reflexivity.
Defined.

(** [carol] is turned away from [carol_dave]; the disconnect that
    follows still announces her departure to the group. *)
Lemma rejected_connection_announces_leave :
  ∃ self' w' w'',
    connect (new (scenario.scope_of (MyUser scenario.carol) (py "carol_dave"))
               scenario.channel_c) scenario.w0 = Returned self' w'
    ∧ disconnect self' 1006 w' = Returned () w''
    ∧ trace w'' = [Close scenario.channel_c 4003;
                   GroupSend (py "chat_carol_dave")
                     (user_left_event scenario.carol);
                   GroupDiscard (py "chat_carol_dave") scenario.channel_c].
Proof.
  eexists _, _, _. split; [reflexivity|]. split; vm_compute; reflexivity.
Qed.

(** C3 fails on the code.  [alice], who has a mutual follow with [bob],
    connects to the room [alice_bob_carol].  The room name has three
    tokens, not two, yet the connection is accepted and its channel is
    added to the room's broadcast group. *)
Theorem three_token_room_is_joined :
  let attempt :=
    new (scenario.scope_of (MyUser scenario.alice) (py "alice_bob_carol"))
      scenario.channel_a in
  pystr.split (ord "_") (py "alice_bob_carol")
  = [scenario.alice; scenario.bob; scenario.carol]
  ∧ ∃ self' w',
      connect attempt scenario.w0 = Returned self' w'
      ∧ scenario.channel_a ∈ members w' (py "chat_alice_bob_carol")
      ∧ trace w' = [GroupAdd (py "chat_alice_bob_carol") scenario.channel_a;
                    Accept scenario.channel_a;
                    GroupSend (py "chat_alice_bob_carol")
                      (user_joined_event scenario.alice)].
Proof.
  intros attempt. split; [vm_compute; reflexivity|].
  eexists _, _. split; [vm_compute; reflexivity|].
  split; [|reflexivity].
  apply (proj1 (bool_decide_eq_true _)). vm_compute. reflexivity.
Qed.

(** A one-token room named after the connecting user: the second token
    is read where there is none, and [connect] raises instead of
    closing the connection. *)
Lemma one_token_room_raises :
  connect (new (scenario.scope_of (MyUser scenario.alice) scenario.alice)
             scenario.channel_a) scenario.w0
  = Raised IndexError scenario.w0.
Proof. vm_compute. reflexivity. Qed.

(** On a room name of exactly two tokens the room check is the one the
    docstring describes: the user is one of the two, the other one is a
    registered user, and the two follow each other. *)
Lemma can_join_two_token_room self w room name a b :
  room_name self = Some room → user self = Some (MyUser name) →
  pystr.split (ord "_") room = [a; b] →
  _can_join_room self w =
    Returned
      (bool_decide (name = a ∨ name = b)
       && (let other := if bool_decide (b = name) then a else b in
           bool_decide (other ∈ users (db w))
           && permissions.check_mutual_follow (db w) name other)) w.
Proof.
  intros Hr Hu Hs. unfold _can_join_room. rewrite Hr, Hu. run. rewrite Hs. cbn.
  assert (name ∈ [a; b] ↔ name = a ∨ name = b) as Hmem
    by (by rewrite elem_of_cons, list_elem_of_singleton).
  destruct (decide (name = a ∨ name = b)) as [Hin|Hout].
  - rewrite (bool_decide_eq_true_2 (name ∈ [a; b])) by (by apply Hmem).
    rewrite (bool_decide_eq_true_2 (name = a ∨ name = b)) by done. cbn.
    assert (∀ other,
              _check_mutual_follow self other w
              = Returned (bool_decide (other ∈ users (db w))
                          && permissions.check_mutual_follow (db w) name other)
                  w) as Hcheck.
    { intros other. unfold _check_mutual_follow, MyUser_objects_get. run.
      destruct (bool_decide (other ∈ users (db w))); [|done].
      by rewrite Hu. }
    destruct (bool_decide (b = name)); cbn; apply Hcheck.
  - rewrite (bool_decide_eq_false_2 (name ∈ [a; b])) by (by rewrite Hmem).
    by rewrite (bool_decide_eq_false_2 (name = a ∨ name = b)).
Qed.

(** So on a two-token room a connection is admitted only for an
    authenticated participant whom the gate approves with the other
    participant; every other attempt that returns is closed. *)
Lemma two_token_room_admission self w self' w' a b :
  pystr.split (ord "_") (scope_room_name (scope self)) = [a; b] →
  connect self w = Returned self' w' →
  (∃ code, w' = log (Close (channel_name self) code) w)
  ∨ (∃ name other,
       scope_user (scope self) = Some (MyUser name)
       ∧ ((name = a ∧ other = b) ∨ (name = b ∧ other = a))
       ∧ other ∈ users (db w)
       ∧ permissions.check_mutual_follow (db w) name other = true
       ∧ channel_name self
         ∈ members w' (py "chat_" ++ scope_room_name (scope self))).
Proof.
  intros Hs Hrun. rewrite connect_cases in Hrun. cbn zeta in Hrun.
  destruct (scope_user (scope self)) as [[|name]|] eqn:Hsu;
    cbn [from_option is_anonymous id] in Hrun;
    try (injection Hrun as <- <-; left; by eexists).
  erewrite can_join_two_token_room in Hrun; [|reflexivity..|exact Hs].
  destruct (bool_decide (name = a ∨ name = b)) eqn:Hin; cbn in Hrun;
    [|injection Hrun as <- <-; left; by eexists].
  apply bool_decide_eq_true in Hin.
  destruct (bool_decide (_ ∈ users (db w))) eqn:Hex; cbn in Hrun;
    [|injection Hrun as <- <-; left; by eexists].
  apply bool_decide_eq_true in Hex.
  destruct (permissions.check_mutual_follow _ _ _) eqn:Hmf; cbn in Hrun;
    [|injection Hrun as <- <-; left; by eexists].
  right. exists name. eexists. split; [done|].
  split; [|split; [exact Hex|split; [exact Hmf|]]].
  - case_bool_decide as Hb; [right; by subst|].
    left. split; [|done]. destruct Hin; congruence.
  - rewrite connect_admission in Hrun.
    destruct (channel_layer.valid_group_name _); [|done].
    injection Hrun as <- <-. unfold members at 1. cbn [groups log].
    rewrite lookup_insert_eq. cbn [from_option id].
    apply elem_of_union_l, elem_of_singleton. reflexivity.
Qed.

(** ** Delivery of group events *)

(** C8.  A consumer whose identity is the subject of a typing indicator,
    a read receipt, a join notice or a leave notice writes nothing to its
    socket when the event reaches it, while a [chat_message] event is
    forwarded by every consumer, whoever the sender is; and a broadcast
    to a group the channel layer takes queues the event for every
    channel of the group, the sender's own included. *)
Theorem notices_skip_subject_chat_reaches_all self u :
  user self = Some u →
  (∀ is_typing w,
      dispatch self (typing_indicator_event (username u) is_typing) w
      = Returned () w)
  ∧ (∀ message_ids w,
      dispatch self (read_receipt_event (username u) message_ids) w
      = Returned () w)
  ∧ (∀ w, dispatch self (user_joined_event (username u)) w = Returned () w)
  ∧ (∀ w, dispatch self (user_left_event (username u)) w = Returned () w)
  ∧ (∀ content sender timestamp message_id w,
      ∃ w', dispatch self
              (chat_message_event content sender timestamp message_id) w
            = Returned () w'
            ∧ replied (channel_name self)
                (chat_message_frame content sender timestamp message_id) w w')
  ∧ (∀ group event w channel,
      channel_layer.valid_group_name group = true →
      channel ∈ members w group →
      ∃ w', channel_layer.group_send group event w = Returned () w'
            ∧ (channel, event) ∈ pending w').
Proof.
  intros Hu.
  repeat split; intros; cbn;
    unfold typing_indicator, read_receipt, user_joined, user_left;
    rewrite ?Hu; run; rewrite ?bool_decide_eq_true_2 by done; try done.
  - eexists. split; [reflexivity|]. by repeat split.
  - rewrite group_send_valid by done.
    eexists. split; [reflexivity|]. cbn.
    apply elem_of_app. right. apply list_elem_of_fmap.
    eexists. split; [reflexivity|]. by apply elem_of_elements.
Qed.

(** [alice] types: the indicator is queued for both channels of the
    room, [alice]'s consumer drops it, and [bob]'s forwards it. *)
Lemma notices_skip_subject_chat_reaches_all_witness :
  dispatch scenario.alice_consumer
    (typing_indicator_event scenario.alice true) scenario.w_joined
  = Returned () scenario.w_joined
  ∧ dispatch scenario.bob_consumer
      (typing_indicator_event scenario.alice true) scenario.w_joined
    = Returned ()
        (log (Send scenario.channel_b (typing_frame scenario.alice true))
           scenario.w_joined).
Proof.
  split; [|vm_compute; reflexivity].
  exact (proj1 (notices_skip_subject_chat_reaches_all scenario.alice_consumer
                  (MyUser scenario.alice) eq_refl)
           true scenario.w_joined).
Defined.

(** ** Dispatch on the frame type *)

(** However [_handle_chat_message] ends, it is by an attribute error, by
    a content error written to the sender, or by a broadcast. *)
Lemma handle_chat_message_outcomes self data w :
  _handle_chat_message self data w = Raised AttributeError w
  ∨ (∃ text,
       _handle_chat_message self data w
       = send self (error_frame (error_text text)) w)
  ∨ (∃ group event,
       _handle_chat_message self data w
       = channel_layer.group_send group event w).
Proof.
  destruct (default (JStr []) (data !! py "content")) as [| | | |s| |] eqn:Hc;
    try (left; unfold _handle_chat_message; rewrite Hc; reflexivity).
  rewrite (handle_chat_message_str _ _ _ _ Hc).
  destruct (bool_decide _); [right; left; by eexists|].
  destruct (_ <? _); [right; left; by eexists|].
  destruct (room_group_name self); [|by left].
  destruct (user self); [|by left].
  right. right. by eexists _, _.
Qed.

(** C10, as the code has it.  A frame that parses to a JSON object
    without a [type] key is handled by [_handle_chat_message], exactly as
    the same object with [type] set to [chat_message] would be, and is
    never answered with the unknown-type error. *)
Theorem missing_type_defaults_to_chat_message self data w :
  data !! py "type" = None →
  receive self (Ok (JDict data)) w = _handle_chat_message self data w
  ∧ receive self (Ok (JDict data)) w
    = receive self
        (Ok (JDict (<[py "type" := JStr (py "chat_message")]> data))) w
  ∧ ∀ message_type,
      receive self (Ok (JDict data)) w
      ≠ send_error self (unknown_message_type message_type) w.
Proof.
  intros Ht.
  assert (receive self (Ok (JDict data)) w = _handle_chat_message self data w)
    as Hrecv by (unfold receive; by rewrite Ht).
  split; [done|]. split.
  - rewrite Hrecv, receive_chat_message by apply lookup_insert_eq.
    unfold _handle_chat_message.
    rewrite lookup_insert_ne by (by vm_compute).
    reflexivity.
  - intros message_type. rewrite Hrecv.
    destruct (handle_chat_message_outcomes self data w)
      as [->|[[text ->]| (group & event & ->)]]; [done| |];
      intros E.
    + apply (f_equal (λ o, match o with
                           | Returned _ w' | Raised _ w' => trace w'
                           end)) in E.
      cbn in E. apply app_inv_head in E. discriminate.
    + destruct (channel_layer.valid_group_name group) eqn:Hvalid.
      * rewrite (group_send_valid _ _ _ Hvalid) in E.
        apply (f_equal (λ o, match o with
                             | Returned _ w' | Raised _ w' => trace w'
                             end)) in E.
        cbn in E. apply app_inv_head in E. discriminate.
      * by rewrite (group_send_invalid _ _ _ Hvalid) in E.
Qed.

(** [{"content": "hi"}] from [alice] is broadcast as her chat message. *)
Lemma missing_type_defaults_to_chat_message_witness :
  receive scenario.alice_consumer
    (Ok (JDict {[py "content" := JStr (py "hi")]})) scenario.w_joined
  = channel_layer.group_send scenario.group_alice_bob
      (chat_message_event (py "hi") scenario.alice 1000%Z None)
      scenario.w_joined.
Proof.
  assert (({[py "content" := JStr (py "hi")]} : gmap str json) !! py "type"
          = None) as Ht by (vm_compute; reflexivity).
  rewrite (proj1 (missing_type_defaults_to_chat_message
                    scenario.alice_consumer _ scenario.w_joined Ht)).
  vm_compute. reflexivity.
Defined.

(** C10 as stated fails: the empty object [{}] has no [type] key, and
    the frame is answered with an error frame, the one for empty
    content. *)
Lemma missing_type_can_produce_error_frame :
  (∅ : gmap str json) !! py "type" = None
  ∧ ¬ ∀ w', receive scenario.alice_consumer (Ok (JDict ∅)) scenario.w_joined
            = Returned () w' →
            ∀ message, Send scenario.channel_a (error_frame message) ∉ trace w'.
Proof.
  split; [reflexivity|]. intros H.
  apply (H (log (Send scenario.channel_a
                   (error_frame
                      (error_text (py "Message content cannot be empty"))))
              scenario.w_joined)
           eq_refl
           (error_text (py "Message content cannot be empty"))).
  apply list_elem_of_here.
Qed.

(** A frame that parses to something other than an object has no [get]:
    [receive] raises. *)
Lemma non_object_frame_raises self w :
  receive self (Ok (JList [])) w = Raised AttributeError w
  ∧ receive self (Ok (JInt 42)) w = Raised AttributeError w
  ∧ receive self (Ok JNull) w = Raised AttributeError w.
Proof. done. Qed.

(** So does a chat message whose content is not a string. *)
Lemma non_string_content_raises self w :
  receive self
    (Ok (JDict {[py "type" := JStr (py "chat_message");
                   py "content" := JInt 5]})) w
  = Raised AttributeError w.
Proof.
  rewrite receive_chat_message by (vm_compute; reflexivity).
  unfold _handle_chat_message.
  replace (({[py "type" := JStr (py "chat_message");
              py "content" := JInt 5]} : gmap str json) !! py "content")
    with (Some (JInt 5)) by (vm_compute; reflexivity).
  reflexivity.
Qed.

(** The typing, read and chat events a consumer originates name its own
    user as their subject. *)
Lemma originated_events_name_the_sender self group u w :
  room_group_name self = Some group → user self = Some u →
  _handle_typing_start self w
  = channel_layer.group_send group
      (typing_indicator_event (username u) true) w
  ∧ _handle_typing_stop self w
    = channel_layer.group_send group
        (typing_indicator_event (username u) false) w
  ∧ ∀ data,
      _handle_mark_read self data w
      = channel_layer.group_send group
          (read_receipt_event (username u)
             (default (JList []) (data !! py "message_ids"))) w.
Proof.
  intros Hg Hu.
  unfold _handle_typing_start, _handle_typing_stop, _handle_mark_read.
  rewrite Hg, Hu. done.
Qed.

(** ** The connection authenticator *)

Section Authenticator.

Variable AccessToken : str → option (option str).
Variable db : Database.

(** Whatever is wrong with the token, the resolved identity is the
    anonymous one: a token the verifier refuses, a token without a
    [user_id] claim, a claim that names no user. *)
Lemma bad_token_is_anonymous token :
  AccessToken token = None
  ∨ (∃ user_id, AccessToken token = Some user_id ∧ truthy user_id = false)
  ∨ (∃ name, AccessToken token = Some (Some name) ∧ name ∉ users db) →
  middleware.get_user_from_token AccessToken db token = AnonymousUser.
Proof.
  unfold middleware.get_user_from_token.
  intros [->|[(user_id & -> & ->)|(name & -> & Hn)]]; [done..|].
  destruct (truthy (Some name)); [|done]. cbn.
  unfold MyUser_objects_get. by rewrite bool_decide_eq_false_2.
Qed.

(** A non-empty [access_token] cookie is the token that is verified;
    the query string is not even read. *)
Lemma cookie_takes_precedence scope cookies token :
  middleware._parse_cookies (default [] (scope_headers scope)) = Ok cookies →
  cookies !! py "access_token" = Some token →
  token ≠ [] →
  middleware.__call__ AccessToken db scope
  = Ok (set_scope_user
          (middleware.get_user_from_token AccessToken db token)
          (set_scope_user AnonymousUser scope)).
Proof.
  intros Hc Ht Hne. unfold middleware.__call__. cbv zeta.
  change (scope_headers (set_scope_user AnonymousUser scope))
    with (scope_headers scope).
  rewrite Hc. cbn. rewrite Ht. destruct token; done.
Qed.


(** C6 fails on the code.  A handshake without cookies whose query
    string is [token=abc==] makes [_get_token_from_query] split the
    item on every [=], and [dict] refuses the four-element result:
    [__call__] raises [ValueError] instead of resolving the identity to
    the anonymous one. *)
Theorem query_token_with_padding_raises :
  middleware.__call__ AccessToken db
    {| scope_headers := Some [];
       scope_query_string := Some (pyb "token=abc==");
       scope_user := None;
       scope_room_name := py "alice_bob" |}
  = Raise ValueError.
Proof. vm_compute. reflexivity. Qed.

(** The cookie path splits on the first [=] only: the same token in
    the [access_token] cookie is handed to the verifier. *)
Lemma cookie_token_with_padding_is_verified :
  middleware.__call__ AccessToken db
    {| scope_headers := Some [(pyb "cookie", pyb "access_token=abc==")];
       scope_query_string := Some [];
       scope_user := None;
       scope_room_name := py "alice_bob" |}
  = Ok {| scope_headers := Some [(pyb "cookie", pyb "access_token=abc==")];
          scope_query_string := Some [];
          scope_user :=
            Some (middleware.get_user_from_token AccessToken db (py "abc=="));
          scope_room_name := py "alice_bob" |}.
Proof.
  erewrite cookie_takes_precedence;
    [reflexivity | vm_compute; reflexivity | vm_compute; reflexivity | done].
Qed.

(** A cookie header that is not valid UTF-8 raises as well. *)
Lemma undecodable_cookie_raises :
  middleware.__call__ AccessToken db
    {| scope_headers := Some [(pyb "cookie", [x80%byte])];
       scope_query_string := Some [];
       scope_user := None;
       scope_room_name := py "alice_bob" |}
  = Raise UnicodeDecodeError.
Proof. vm_compute. reflexivity. Qed.

End Authenticator.

(** ** The conversation store *)

Lemma lt_irrefl (a : str) : pystr.lt a a = false.
Proof.
  induction a as [|x a IH]; [done|]. cbn. by rewrite N.ltb_irrefl.
Qed.

Lemma lt_asym (a b : str) : pystr.lt a b = true → pystr.lt b a = false.
Proof.
  revert b. induction a as [|x a IH]; intros [|y b]; cbn; try done.
  destruct (x <? y) eqn:Hxy, (y <? x) eqn:Hyx; try done.
  - apply N.ltb_lt in Hxy, Hyx. lia.
  - apply IH.
Qed.

Lemma lt_total (a b : str) : a ≠ b → pystr.lt a b = false → pystr.lt b a = true.
Proof.
  revert b. induction a as [|x a IH]; intros [|y b]; cbn; try done.
  destruct (x <? y) eqn:Hxy, (y <? x) eqn:Hyx; try done.
  intros Hne. apply IH. intros ->.
  apply N.ltb_ge in Hxy, Hyx. apply Hne. f_equal. lia.
Qed.

(** Both argument orders give the same ordered pair. *)
Lemma ordered_pair_swap (A B : str) :
  A ≠ B →
  (if pystr.lt B A then (B, A) else (A, B))
  = (if pystr.lt A B then (A, B) else (B, A)).
Proof.
  intros Hne. destruct (pystr.lt A B) eqn:Hab.
  - by rewrite (lt_asym _ _ Hab).
  - by rewrite (lt_total _ _ Hne Hab).
Qed.

(** Asking again for the same columns finds the row of the first call. *)
Lemma get_or_create_again t t' db p1 p2 :
  models.get_or_create t' (models.get_or_create t db p1 p2).2 p1 p2
  = (((models.get_or_create t db p1 p2).1.1, false),
     (models.get_or_create t db p1 p2).2).
Proof.
  unfold models.get_or_create at 2 3 4.
  destruct (list_find _ (conversations db)) as [[i c]|] eqn:Hfind; cbn.
  - unfold models.get_or_create. by rewrite Hfind.
  - unfold models.get_or_create. cbn.
    rewrite list_find_app_r by done. cbn.
    rewrite decide_True by done. done.
Qed.

Lemma get_or_create_columns t db p1 p2 :
  let c := (models.get_or_create t db p1 p2).1.1 in
  participant_1 c = p1 ∧ participant_2 c = p2
  ∧ c ∈ conversations (models.get_or_create t db p1 p2).2.
Proof.
  unfold models.get_or_create.
  destruct (list_find _ (conversations db)) as [[i c]|] eqn:Hfind; cbn.
  - apply list_find_Some in Hfind as (Hl & [? ?] & _).
    split; [done|]. split; [done|]. by eapply list_elem_of_lookup_2.
  - split; [done|]. split; [done|]. apply elem_of_app. right.
    apply list_elem_of_here.
Qed.

Lemma get_or_create_unique t db p1 p2 :
  models.unique_conversation db →
  models.unique_conversation (models.get_or_create t db p1 p2).2.
Proof.
  intros Hu. unfold models.get_or_create.
  destruct (list_find _ (conversations db)) as [[i c]|] eqn:Hfind; cbn;
    [done|].
  apply list_find_None in Hfind. rewrite Forall_forall in Hfind.
  intros i j c c' Hi Hj H1 H2. cbn in Hi, Hj.
  apply lookup_app_Some in Hi as [Hi|[Hil Hi]];
    apply lookup_app_Some in Hj as [Hj|[Hjl Hj]].
  - by apply (Hu i j c c').
  - apply list_lookup_singleton_Some in Hj as [_ <-]. cbn in H1, H2.
    destruct (Hfind c); [by eapply list_elem_of_lookup_2|done].
  - apply list_lookup_singleton_Some in Hi as [_ <-]. cbn in H1, H2.
    destruct (Hfind c'); [by eapply list_elem_of_lookup_2|done].
  - apply list_lookup_singleton_Some in Hi as [Hi _].
    apply list_lookup_singleton_Some in Hj as [Hj _]. lia.
Qed.

Lemma get_or_create_canonical t db p1 p2 :
  pystr.lt p1 p2 = true →
  models.canonical db →
  models.canonical (models.get_or_create t db p1 p2).2.
Proof.
  intros Hlt Hc. unfold models.get_or_create.
  destruct (list_find _ (conversations db)) as [[i c]|]; cbn; [done|].
  intros c [Hin|Hin]%elem_of_app; [by apply Hc|].
  apply list_elem_of_singleton in Hin as ->. done.
Qed.

(** Rows in alphabetical order that are unique on the ordered columns
    are unique on the unordered pair. *)
Lemma one_conversation_per_pair db :
  models.unique_conversation db → models.canonical db →
  ∀ i j c c', conversations db !! i = Some c → conversations db !! j = Some c' →
    models.same_pair c c' → i = j.
Proof.
  intros Hu Hc i j c c' Hi Hj [[H1 H2]|[H1 H2]]; [by apply (Hu i j c c')|].
  pose proof (Hc c (list_elem_of_lookup_2 _ _ _ Hi)) as Hlt.
  pose proof (Hc c' (list_elem_of_lookup_2 _ _ _ Hj)) as Hlt'.
  rewrite H1, H2 in Hlt. apply lt_asym in Hlt. congruence.
Qed.

(** C4.  For distinct users [A] and [B], [get_or_create_between] gives
    the same result for either argument order; a later call, in either
    order, returns the conversation of the first without creating a row;
    the conversation has its participants in increasing username order;
    and the uniqueness constraint on the ordered columns, together with
    that order, keeps at most one conversation per unordered pair. *)
Theorem one_conversation_between_two_users t t' db (A B : str) :
  A ≠ B →
  let r := models.get_or_create_between t db A B in
  let c := r.1.1 in
  let db' := r.2 in
  models.get_or_create_between t db B A = r
  ∧ models.get_or_create_between t' db' B A = ((c, false), db')
  ∧ models.get_or_create_between t' db' A B = ((c, false), db')
  ∧ c ∈ conversations db'
  ∧ pystr.lt (participant_1 c) (participant_2 c) = true
  ∧ ((participant_1 c = A ∧ participant_2 c = B)
     ∨ (participant_1 c = B ∧ participant_2 c = A))
  ∧ (models.unique_conversation db → models.canonical db →
     models.unique_conversation db' ∧ models.canonical db'
     ∧ ∀ i j c1 c2,
         conversations db' !! i = Some c1 → conversations db' !! j = Some c2 →
         models.same_pair c1 c2 → i = j).
Proof.
  intros Hne r c db'.
  assert (models.get_or_create_between t db B A = r) as Hswap.
  { unfold r, models.get_or_create_between.
    by rewrite (ordered_pair_swap A B Hne). }
  assert (∀ t0 d, models.get_or_create_between t0 d B A
                  = models.get_or_create_between t0 d A B) as Hsym.
  { intros t0 d. unfold models.get_or_create_between.
    by rewrite (ordered_pair_swap A B Hne). }
  assert (∃ p1 p2, pystr.lt p1 p2 = true
                   ∧ ((p1 = A ∧ p2 = B) ∨ (p1 = B ∧ p2 = A))
                   ∧ ∀ t0 d, models.get_or_create_between t0 d A B
                             = models.get_or_create t0 d p1 p2)
    as (p1 & p2 & Hlt & Hp & Hgc).
  { unfold models.get_or_create_between.
    destruct (pystr.lt A B) eqn:Hab.
    - exists A, B. auto.
    - exists B, A. split; [by apply lt_total|]. auto. }
  assert (models.get_or_create_between t' db' A B = ((c, false), db')) as Hagain.
  { unfold c, db', r. rewrite !Hgc. apply get_or_create_again. }
  destruct (get_or_create_columns t db p1 p2) as (Hc1 & Hc2 & Hin).
  rewrite <- Hgc in Hc1, Hc2, Hin. fold r in Hc1, Hc2, Hin.
  fold c in Hc1, Hc2. fold db' in Hin.
  split; [done|]. split; [by rewrite Hsym|]. split; [done|].
  split; [done|]. split; [by rewrite Hc1, Hc2|].
  split; [rewrite Hc1, Hc2; done|].
  intros Hu Hcan.
  assert (models.unique_conversation db') as Hu'.
  { unfold db', r. rewrite Hgc. by apply get_or_create_unique. }
  assert (models.canonical db') as Hcan'.
  { unfold db', r. rewrite Hgc. by apply get_or_create_canonical. }
  split; [done|]. split; [done|].
  by apply one_conversation_per_pair.
Qed.

(** [bob] starts the conversation with [alice]; when [alice] asks for
    it, she gets the row [bob]'s call created, stored as
    [(alice, bob)]. *)
Lemma one_conversation_between_two_users_witness :
  let r := models.get_or_create_between 10%Z scenario.db0
             scenario.bob scenario.alice in
  r.1 = ({| conv_id := 0; participant_1 := scenario.alice;
            participant_2 := scenario.bob;
            created_at := 10%Z; updated_at := 10%Z |}, true)
  ∧ models.get_or_create_between 20%Z r.2 scenario.alice scenario.bob
    = ((r.1.1, false), r.2).
Proof.
  split; [vm_compute; reflexivity|].
  refine (proj1 (proj2 (one_conversation_between_two_users 10%Z 20%Z
                          scenario.db0 scenario.bob scenario.alice _))).
  vm_compute. discriminate.
Defined.

(** ** Marking a conversation as read *)

Lemma set_read_not_selected t cid user m :
  ¬ views.unread_from_other cid user (views.set_read t m).
Proof. intros (_ & Hr & _). done. Qed.

Lemma mark_step_not_selected t cid user m :
  ¬ views.unread_from_other cid user
      (if decide (views.unread_from_other cid user m)
       then views.set_read t m else m).
Proof. case_decide; [apply set_read_not_selected|done]. Qed.

(** C7.  [MarkMessagesReadView.patch] turns every unread message of the
    conversation that the reader did not send into a read one stamped
    with the clock reading, leaves every other row as it is, and reports
    how many rows it changed; a second call right after it changes
    nothing and reports zero. *)
Theorem mark_all_read_idempotent t t' db user cid n db' :
  views.patch t db user cid = Ok (n, db') →
  (∀ i m, messages db !! i = Some m →
     ∃ m', messages db' !! i = Some m'
           ∧ (views.unread_from_other cid user m →
              m' = views.set_read t m ∧ is_read m' = true
              ∧ read_at m' = Some t ∧ m' ≠ m)
           ∧ (¬ views.unread_from_other cid user m → m' = m))
  ∧ length (messages db') = length (messages db)
  ∧ n = length (filter (views.unread_from_other cid user) (messages db))
  ∧ filter (views.unread_from_other cid user) (messages db') = []
  ∧ views.patch t' db' user cid = Ok (0%nat, db').
Proof.
  unfold views.patch.
  destruct (list_find _ (conversations db)) as [[k conv]|] eqn:Hfind; [|done].
  pose proof Hfind as (_ & [_ Hid] & _)%list_find_Some. rewrite Hid.
  intros [= <- <-]. cbn.
  assert (filter (views.unread_from_other cid user)
            ((λ m, if decide (views.unread_from_other cid user m)
                   then views.set_read t m else m) <$> messages db) = [])
    as Hnone.
  { induction (messages db) as [|m l IH]; [done|].
    rewrite fmap_cons, filter_cons_False by apply mark_step_not_selected.
    done. }
  split.
  { intros i m Hi. rewrite list_lookup_fmap, Hi. cbn. eexists. split; [done|].
    case_decide; split; try done.
    intros _. split; [done|]. split; [done|]. split; [done|].
    intros E. destruct H as (_ & Hr & _).
    apply (f_equal is_read) in E. cbn in E. congruence. }
  split; [by rewrite length_fmap|]. split; [done|]. split; [done|].
  rewrite Hfind, Hid, Hnone. cbn. do 2 f_equal. f_equal.
  rewrite <- list_fmap_compose.
  apply list_fmap_ext. intros i m _. cbn.
  rewrite (decide_False (P := views.unread_from_other cid user _))
    by apply mark_step_not_selected.
  done.
Qed.

(** [alice] marks her conversation with [bob] as read: the one unread
    message from [bob] is changed, and asking again changes nothing. *)
Lemma mark_all_read_idempotent_witness :
  ∃ db',
    views.patch 50%Z scenario.db_chat scenario.alice 7 = Ok (1%nat, db')
    ∧ messages db'
      = [scenario.message 8 scenario.bob (py "hello") 2%Z (Some 3%Z);
         scenario.message 9 scenario.alice (py "hi bob") 4%Z None;
         scenario.message 10 scenario.bob (py "are you there?") 5%Z
           (Some 50%Z)]
    ∧ views.patch 60%Z db' scenario.alice 7 = Ok (0%nat, db').
Proof.
  eexists. split; [vm_compute; reflexivity|]. split; [vm_compute; reflexivity|].
  refine (proj2 (proj2 (proj2 (proj2
            (mark_all_read_idempotent 50%Z 60%Z scenario.db_chat
               scenario.alice 7 1%nat _ _))))).
  vm_compute. reflexivity.
Defined.

(** * Further properties of the code *)

Set Warnings "-clear-no-such-hyp".

(** ** The social graph gate *)

Lemma mutual_follow_self d (a : str) :
  permissions.check_mutual_follow d a a = false.
Proof.
  unfold permissions.check_mutual_follow. by rewrite bool_decide_eq_true_2.
Qed.

Lemma mutual_follow_iff d (a b : str) :
  permissions.check_mutual_follow d a b = true
  ↔ a ≠ b ∧ (a, b) ∈ follows d ∧ (b, a) ∈ follows d.
Proof.
  unfold permissions.check_mutual_follow.
  case_bool_decide as Hab; [naive_solver|].
  rewrite andb_true_iff, !bool_decide_eq_true. naive_solver.
Qed.

(** X1.  [check_mutual_follow] does not depend on the order of its
    arguments, refuses a user paired with itself, and holds exactly when
    the two users are distinct and each is among the other's followers. *)
Theorem mutual_follow_symmetric db (a b : str) :
  permissions.check_mutual_follow db a b = permissions.check_mutual_follow db b a
  ∧ permissions.check_mutual_follow db a a = false
  ∧ (permissions.check_mutual_follow db a b = true
     ↔ a ≠ b ∧ (a, b) ∈ follows db ∧ (b, a) ∈ follows db).
Proof.
  unfold permissions.check_mutual_follow. split; [|split].
  - destruct (decide (a = b)) as [->|Hne]; [done|].
    rewrite (bool_decide_eq_false_2 (a = b)) by done.
    rewrite (bool_decide_eq_false_2 (b = a)) by done. apply andb_comm.
  - by rewrite bool_decide_eq_true_2.
  - fold (permissions.check_mutual_follow db a b). apply mutual_follow_iff.
Qed.

(** X2.  The three gates of the application are one predicate: the
    [can_message] flag of a profile, the answer of [can_message_user]
    behind the REST endpoints and the check the chat consumer makes on a
    registered user all equal [check_mutual_follow]; the REST gate gives
    a reason exactly when it refuses, and a profile seen without an
    authenticated user is never messageable. *)
Theorem gates_agree (d : Database) (a b : str) :
  b ∈ users d →
  (permissions.can_message_user d a b).1
  = permissions.check_mutual_follow d a b
  ∧ ((permissions.can_message_user d a b).2 = None
     ↔ permissions.check_mutual_follow d a b = true)
  ∧ base.get_can_message d (Some (MyUser a)) b
    = permissions.check_mutual_follow d a b
  ∧ base.get_can_message d (Some AnonymousUser) b = false
  ∧ base.get_can_message d None b = false
  ∧ ∀ self w, user self = Some (MyUser a) → db w = d →
      _check_mutual_follow self b w
      = Returned (permissions.check_mutual_follow d a b) w.
Proof.
  intros Hb.
  pose proof (mutual_follow_self d a) as Hself.
  split; [|split; [|split; [|split; [done|split; [done|]]]]].
  - unfold permissions.can_message_user.
    case_bool_decide as Hab; [subst; by rewrite Hself|].
    by destruct (permissions.check_mutual_follow d a b).
  - unfold permissions.can_message_user.
    case_bool_decide as Hab; [subst; by rewrite Hself|].
    by destruct (permissions.check_mutual_follow d a b).
  - unfold base.get_can_message.
    case_bool_decide as Hab; [subst; by rewrite Hself|done].
  - intros self w Hu <-. unfold _check_mutual_follow, MyUser_objects_get. run.
    rewrite bool_decide_eq_true_2 by done. by rewrite Hu.
Qed.

(** [alice] and [bob] may message each other by every gate. *)
Lemma gates_agree_witness :
  (permissions.can_message_user scenario.db0 scenario.alice scenario.bob).1
  = true
  ∧ base.get_can_message scenario.db0 (Some (MyUser scenario.alice))
      scenario.bob = true.
Proof.
  assert (scenario.bob ∈ users scenario.db0) as Hb
    by (apply (proj1 (bool_decide_eq_true _)); vm_compute; reflexivity).
  destruct (gates_agree scenario.db0 scenario.alice scenario.bob Hb)
    as (H1 & _ & H3 & _).
  split; [rewrite H1|rewrite H3]; vm_compute; reflexivity.
Defined.

(** ** Following and unfollowing *)

Lemma set_follows_same d : base.set_follows (follows d) d = d.
Proof. by destruct d. Qed.

Lemma toggle_follow_registered d (me target : str) :
  me ∈ users d → target ∈ users d →
  base.toggle_follow d me (Some target)
  = if bool_decide ((me, target) ∈ follows d)
    then ((200, base.now_following false),
          base.set_follows (follows d ∖ {[(me, target)]}) d)
    else ((200, base.now_following true),
          base.set_follows (follows d ∪ {[(me, target)]}) d).
Proof.
  intros Hme Ht. unfold base.toggle_follow, MyUser_objects_get.
  by rewrite !bool_decide_eq_true_2 by done.
Qed.

(** X3.  [toggle_follow] between two registered users flips exactly the
    edge from the requester to the target and answers with the new state
    of that edge; asking twice gives back the database it started from.
    Without a [username] in the body the answer is 500, for an unknown
    target 404, and neither changes the database. *)
Theorem toggle_follow_flips_one_edge d (me target : str) :
  me ∈ users d → target ∈ users d →
  let r := base.toggle_follow d me (Some target) in
  let was := bool_decide ((me, target) ∈ follows d) in
  r.1 = (200, base.now_following (negb was))
  ∧ ((me, target) ∈ follows r.2 ↔ (me, target) ∉ follows d)
  ∧ (∀ e, e ≠ (me, target) → e ∈ follows r.2 ↔ e ∈ follows d)
  ∧ users r.2 = users d ∧ conversations r.2 = conversations d
  ∧ messages r.2 = messages d
  ∧ base.toggle_follow r.2 me (Some target)
    = ((200, base.now_following was), d)
  ∧ base.toggle_follow d me None
    = ((500, base.toggle_follow_error (py "error following user")), d)
  ∧ ∀ unknown, unknown ∉ users d →
      base.toggle_follow d me (Some unknown)
      = ((404, base.toggle_follow_error (py "User not found")), d).
Proof.
  intros Hme Ht r was. unfold r.
  rewrite toggle_follow_registered by done. fold was.
  split; [by destruct was|].
  split; [unfold was; case_bool_decide; cbn; set_solver|].
  split; [intros e He; destruct was; cbn; set_solver|].
  split; [by destruct was|]. split; [by destruct was|].
  split; [by destruct was|].
  split.
  - unfold was. case_bool_decide as Hin; cbn.
    + rewrite toggle_follow_registered by done. cbn.
      rewrite bool_decide_eq_false_2 by set_solver. cbn.
      replace (follows d ∖ {[(me, target)]} ∪ {[(me, target)]})
        with (follows d); [by destruct d|].
      apply set_eq. intros e. rewrite elem_of_union, elem_of_difference.
      rewrite elem_of_singleton.
      destruct (decide (e = (me, target))) as [->|]; naive_solver.
    + rewrite toggle_follow_registered by done. cbn.
      rewrite bool_decide_eq_true_2 by set_solver. cbn.
      replace ((follows d ∪ {[(me, target)]}) ∖ {[(me, target)]})
        with (follows d); [by destruct d|].
      apply set_eq. intros e. rewrite elem_of_difference, elem_of_union.
      rewrite elem_of_singleton. naive_solver.
  - split.
    + unfold base.toggle_follow, MyUser_objects_get.
      by rewrite bool_decide_eq_true_2.
    + intros unknown Hun. unfold base.toggle_follow, MyUser_objects_get.
      rewrite bool_decide_eq_true_2 by done.
      by rewrite bool_decide_eq_false_2.
Qed.

(** [carol] stops following [dave] and follows him again. *)
Lemma toggle_follow_flips_one_edge_witness :
  let r := base.toggle_follow scenario.db0 scenario.carol (Some scenario.dave) in
  r.1 = (200, base.now_following false)
  ∧ base.toggle_follow r.2 scenario.carol (Some scenario.dave)
    = ((200, base.now_following true), scenario.db0).
Proof.
  assert (scenario.carol ∈ users scenario.db0) as Hc
    by (apply (proj1 (bool_decide_eq_true _)); vm_compute; reflexivity).
  assert (scenario.dave ∈ users scenario.db0) as Hd
    by (apply (proj1 (bool_decide_eq_true _)); vm_compute; reflexivity).
  destruct (toggle_follow_flips_one_edge scenario.db0 scenario.carol
              scenario.dave Hc Hd) as (H1 & _ & _ & _ & _ & _ & H2 & _).
  split; [exact H1|exact H2].
Defined.

Section filter_size.

Context (P : str * str → Prop) `{!∀ e, Decision (P e)}.

Lemma size_filter_add (X : gset (str * str)) e :
  e ∉ X →
  size (filter P (X ∪ {[e]}))
  = (size (filter P X) + if decide (P e) then 1 else 0)%nat.
Proof.
  intros He. rewrite filter_union_L, size_union.
  - f_equal. rewrite (filter_singleton_L (C:=gset (str * str)) P e).
    case_decide.
    + apply size_singleton.
    + apply size_empty.
  - intros x [_ Hx]%elem_of_filter [_ ->%elem_of_singleton]%elem_of_filter.
    done.
  - apply _.
Qed.

Lemma size_filter_remove (X : gset (str * str)) e :
  e ∈ X →
  (size (filter P (X ∖ {[e]})) + if decide (P e) then 1 else 0)%nat
  = size (filter P X).
Proof.
  intros He.
  rewrite <- (size_filter_add (X ∖ {[e]}) e) by set_solver.
  f_equal. f_equal. apply set_eq. intros x.
  rewrite elem_of_union, elem_of_difference, elem_of_singleton.
  destruct (decide (x = e)) as [->|]; naive_solver.
Qed.

End filter_size.

(** X4.  A [toggle_follow] that starts a follow adds one to the
    target's [followers_count] and to the requester's
    [following_count]; one that ends a follow takes one from each; the
    counts of every other profile stay as they were. *)
Theorem toggle_follow_moves_counts_by_one d (me target : str) :
  me ∈ users d → target ∈ users d →
  let d' := (base.toggle_follow d me (Some target)).2 in
  (if bool_decide ((me, target) ∈ follows d)
   then S (base.get_followers_count d' target)
        = base.get_followers_count d target
        ∧ S (base.get_following_count d' me) = base.get_following_count d me
   else base.get_followers_count d' target
        = S (base.get_followers_count d target)
        ∧ base.get_following_count d' me
          = S (base.get_following_count d me))
  ∧ (∀ x, x ≠ target →
       base.get_followers_count d' x = base.get_followers_count d x)
  ∧ (∀ x, x ≠ me →
       base.get_following_count d' x = base.get_following_count d x).
Proof.
  intros Hme Ht d'. unfold d'.
  rewrite toggle_follow_registered by done.
  unfold base.get_followers_count, base.get_following_count.
  case_bool_decide as Hin; cbn.
  - split; [split|split].
    + rewrite <- (size_filter_remove (λ p, p.2 = target) _ _ Hin).
      rewrite decide_True by done. lia.
    + rewrite <- (size_filter_remove (λ p, p.1 = me) _ _ Hin).
      rewrite decide_True by done. lia.
    + intros x Hx.
      rewrite <- (size_filter_remove (λ p, p.2 = x) _ _ Hin).
      rewrite decide_False by (cbn; congruence). lia.
    + intros x Hx.
      rewrite <- (size_filter_remove (λ p, p.1 = x) _ _ Hin).
      rewrite decide_False by (cbn; congruence). lia.
  - split; [split|split].
    + rewrite (size_filter_add (λ p, p.2 = target) _ _ Hin).
      rewrite decide_True by done. lia.
    + rewrite (size_filter_add (λ p, p.1 = me) _ _ Hin).
      rewrite decide_True by done. lia.
    + intros x Hx. rewrite (size_filter_add (λ p, p.2 = x) _ _ Hin).
      rewrite decide_False by (cbn; congruence). lia.
    + intros x Hx. rewrite (size_filter_add (λ p, p.1 = x) _ _ Hin).
      rewrite decide_False by (cbn; congruence). lia.
Qed.

(** [dave] starts following [carol]: she gains a follower. *)
Lemma toggle_follow_moves_counts_by_one_witness :
  base.get_followers_count
    (base.toggle_follow scenario.db0 scenario.dave (Some scenario.carol)).2
    scenario.carol
  = S (base.get_followers_count scenario.db0 scenario.carol).
Proof.
  assert (scenario.carol ∈ users scenario.db0) as Hc
    by (apply (proj1 (bool_decide_eq_true _)); vm_compute; reflexivity).
  assert (scenario.dave ∈ users scenario.db0) as Hd
    by (apply (proj1 (bool_decide_eq_true _)); vm_compute; reflexivity).
  exact (proj1 (proj1 (toggle_follow_moves_counts_by_one scenario.db0
                         scenario.dave scenario.carol Hd Hc))).
Defined.

(** X5.  A profile is found exactly for registered users.  Its
    [can_message] flag implies that the viewer follows the profile's
    user and that the profile is not the viewer's own; on the viewer's
    own profile [can_message] is false. *)
Theorem profile_flags d (viewer pk : str) :
  (base.get_user_profile_data d viewer pk = None ↔ pk ∉ users d)
  ∧ ∀ p, base.get_user_profile_data d viewer pk = Some p →
      base.profile_username p = pk
      ∧ base.can_message p = permissions.check_mutual_follow d viewer pk
      ∧ (base.can_message p = true →
         base.following p = true ∧ base.is_our_profile p = false)
      ∧ (base.is_our_profile p = true ↔ pk = viewer)
      ∧ (base.following p = true ↔ (viewer, pk) ∈ follows d).
Proof.
  unfold base.get_user_profile_data, MyUser_objects_get.
  case_bool_decide as Hpk; cbn; (split; [naive_solver|]); [|done].
  intros p [= <-]. cbn.
  assert ((if bool_decide (viewer = pk) then false
           else permissions.check_mutual_follow d viewer pk)
          = permissions.check_mutual_follow d viewer pk) as ->.
  { case_bool_decide as E; [|done]. subst. by rewrite mutual_follow_self. }
  split; [done|]. split; [done|]. split.
  - intros (Hne & Hin & _)%mutual_follow_iff.
    split; [by apply bool_decide_eq_true_2|].
    apply bool_decide_eq_false_2. congruence.
  - by rewrite !bool_decide_eq_true.
Qed.

(** ** Reading the token from the handshake *)

Lemma contains_cons sep c (s : str) :
  pystr.contains sep (c :: s) = (sep =? c) || pystr.contains sep s.
Proof. done. Qed.

Lemma contains_elem_of sep (s : str) : pystr.contains sep s = true ↔ sep ∈ s.
Proof.
  induction s as [|c s IH]; [by rewrite elem_of_nil|].
  rewrite contains_cons, orb_true_iff, IH, elem_of_cons, N.eqb_eq. done.
Qed.

Lemma split1_pair sep (item : str) :
  pystr.contains sep item = true →
  ∃ key value, pystr.split1 sep item = [key; value]
               ∧ item = key ++ sep :: value ∧ sep ∉ key.
Proof.
  induction item as [|c item IH]; [done|].
  rewrite contains_cons. cbn [pystr.split1]. rewrite (N.eqb_sym sep c).
  destruct (c =? sep) eqn:Hc.
  - intros _. apply N.eqb_eq in Hc as ->.
    exists [], item. split; [done|]. split; [done|]. apply not_elem_of_nil.
  - cbn. intros (key & value & -> & -> & Hk)%IH.
    exists (c :: key), value. split; [done|]. split; [done|].
    apply N.eqb_neq in Hc. rewrite elem_of_cons. naive_solver.
Qed.

Lemma decode_raises b e : pystr.decode b = Raise e → e = UnicodeDecodeError.
Proof. unfold pystr.decode. destruct (pystr.utf8 _); congruence. Qed.

Lemma cookie_items_total items cookies :
  ∃ cookies', middleware.cookie_items items cookies = Ok cookies'.
Proof.
  revert cookies. induction items as [|item items IH]; intros cookies;
    [by eexists|].
  cbn [middleware.cookie_items]. cbv zeta.
  destruct (pystr.contains _ _) eqn:Hc; [|apply IH].
  destruct (split1_pair _ _ Hc) as (key & value & -> & _). apply IH.
Qed.

(** X6.  Cookie parsing fails only on a [cookie] header that is not
    valid UTF-8: when every [cookie] header decodes, [_parse_cookies]
    returns a dictionary, whatever the items look like, and the only
    exception it ever raises is [UnicodeDecodeError]. *)
Theorem parse_cookies_fails_only_on_decoding headers :
  ((∀ value, (pyb "cookie", value) ∈ headers →
      ∃ s, pystr.decode value = Ok s) →
   ∃ cookies, middleware._parse_cookies headers = Ok cookies)
  ∧ ∀ e, middleware._parse_cookies headers = Raise e →
      e = UnicodeDecodeError
      ∧ ∃ value, (pyb "cookie", value) ∈ headers
                 ∧ pystr.decode value = Raise UnicodeDecodeError.
Proof.
  unfold middleware._parse_cookies. generalize (∅ : gmap str str).
  induction headers as [|[name value] headers IH]; intros cookies.
  { split; [by eexists|done]. }
  cbn [middleware.cookie_headers]. case_bool_decide as Hname.
  - subst name. destruct (pystr.decode value) as [s|e'] eqn:Hd.
    + cbv beta iota delta [mbind result_bind].
      destruct (cookie_items_total (pystr.split (ord ";") s) cookies)
        as [cookies' ->].
      destruct (IH cookies') as [IH1 IH2]. split.
      * intros Hall. apply IH1. intros v Hv. apply Hall. by right.
      * intros e (-> & v & Hv & Hr)%IH2. split; [done|].
        exists v. split; [by right|done].
    + cbv beta iota delta [mbind result_bind].
      pose proof (decode_raises _ _ Hd) as ->. split.
      * intros Hall. destruct (Hall value) as [s Hs]; [by left|]. congruence.
      * intros e [= <-]. split; [done|]. exists value. split; [by left|done].
  - destruct (IH cookies) as [IH1 IH2]. split.
    + intros Hall. apply IH1. intros v Hv. apply Hall. by right.
    + intros e (-> & v & Hv & Hr)%IH2. split; [done|].
      exists v. split; [by right|done].
Qed.

(** A cookie header with items of every shape is parsed. *)
Lemma parse_cookies_fails_only_on_decoding_witness :
  ∃ cookies,
    middleware._parse_cookies
      [(pyb "host", pyb "example.org");
       (pyb "cookie", pyb "a=b=c; flag; =; access_token = abc== ")]
    = Ok cookies.
Proof.
  apply (proj1 (parse_cookies_fails_only_on_decoding _)).
  intros value [Hv|[Hv|Hv]%elem_of_cons]%elem_of_cons.
  - exfalso. injection Hv as Hv _. vm_compute in Hv. discriminate.
  - injection Hv as ->. eexists. vm_compute. reflexivity.
  - by apply elem_of_nil in Hv.
Defined.

Lemma split_length sep (s : str) :
  length (pystr.split sep s) = S (length (filter (λ c, c = sep) s)).
Proof.
  induction s as [|c s IH]; [done|]. cbn [pystr.split].
  destruct (c =? sep) eqn:Hc.
  - apply N.eqb_eq in Hc as ->. rewrite filter_cons_True by done.
    cbn. by rewrite IH.
  - apply N.eqb_neq in Hc. rewrite filter_cons_False by done.
    destruct (pystr.split sep s); [done|]. by rewrite <- IH.
Qed.

Lemma contains_count sep (s : str) :
  pystr.contains sep s = true ↔ (1 ≤ length (filter (λ c, c = sep) s))%nat.
Proof.
  induction s as [|c s IH]; [cbn; split; [done|lia]|].
  rewrite contains_cons, orb_true_iff, IH, N.eqb_eq.
  destruct (decide (c = sep)) as [->|Hne].
  - rewrite filter_cons_True by done. cbn. split; [lia|by left].
  - rewrite filter_cons_False by done. naive_solver.
Qed.

Lemma dict_total (pairs : list (list str)) (d : gmap str str) :
  Forall (λ p, length p = 2%nat) pairs → ∃ d', middleware.dict pairs d = Ok d'.
Proof.
  intros Hall. revert d. induction Hall as [|p pairs Hp _ IH]; intros d;
    [by eexists|].
  destruct p as [|k [|v [|]]]; try done. apply IH.
Qed.

Lemma dict_raises (pairs : list (list str)) (d : gmap str str) :
  Exists (λ p, length p ≠ 2%nat) pairs →
  middleware.dict pairs d = Raise ValueError.
Proof.
  intros Hex. revert d. induction Hex as [p pairs Hp|p pairs _ IH]; intros d.
  - by destruct p as [|k [|v [|]]].
  - destruct p as [|k [|v [|]]]; try done. apply IH.
Qed.

(** X7.  Once the query string decodes, [_get_token_from_query] raises
    [ValueError] as soon as one of its [&]-separated items contains two
    or more [=] signs, and returns normally when every item contains at
    most one. *)
Theorem query_parsing_fails_on_second_equals scope s :
  pystr.decode (default [] (scope_query_string scope)) = Ok s →
  let equals item := length (filter (λ c, c = ord "=") item) in
  (Exists (λ item, (2 ≤ equals item)%nat) (pystr.split (ord "&") s) →
   middleware._get_token_from_query scope = Raise ValueError)
  ∧ (Forall (λ item, (equals item ≤ 1)%nat) (pystr.split (ord "&") s) →
     ∃ token, middleware._get_token_from_query scope = Ok token).
Proof.
  intros Hd equals. unfold middleware._get_token_from_query. rewrite Hd.
  cbv beta iota delta [mbind result_bind]. split.
  - intros Hex. rewrite dict_raises; [done|].
    apply Exists_exists in Hex as (item & Hin & Hcount).
    apply Exists_exists. exists (pystr.split (ord "=") item). split.
    + apply list_elem_of_fmap. exists item. split; [done|].
      apply list_elem_of_filter. split; [|done].
      apply contains_count. unfold equals in Hcount. lia.
    + rewrite split_length. unfold equals in Hcount. lia.
  - intros Hall.
    destruct (dict_total
                (pystr.split (ord "=")
                   <$> filter (λ item, pystr.contains (ord "=") item = true)
                         (pystr.split (ord "&") s)) ∅) as [d' ->];
      [|by eexists].
    apply Forall_fmap, Forall_forall.
    intros item [Hc Hin]%list_elem_of_filter. unfold compose.
    rewrite Forall_forall in Hall. specialize (Hall item Hin).
    apply contains_count in Hc. rewrite split_length.
    unfold equals in Hall. lia.
Qed.

(** The query string [lang=en&token=abc] is read; [a=b=c] is not. *)
Lemma query_parsing_fails_on_second_equals_witness :
  (∃ token,
     middleware._get_token_from_query
       {| scope_headers := None;
          scope_query_string := Some (pyb "lang=en&token=abc");
          scope_user := None; scope_room_name := py "alice_bob" |}
     = Ok token)
  ∧ middleware._get_token_from_query
      {| scope_headers := None; scope_query_string := Some (pyb "a=b=c");
         scope_user := None; scope_room_name := py "alice_bob" |}
    = Raise ValueError.
Proof.
  split.
  - refine (proj2 (query_parsing_fails_on_second_equals _
                     (py "lang=en&token=abc") _) _);
      [vm_compute; reflexivity|].
    apply (proj1 (bool_decide_eq_true _)). vm_compute. reflexivity.
  - refine (proj1 (query_parsing_fails_on_second_equals _ (py "a=b=c") _) _);
      [vm_compute; reflexivity|].
    apply (proj1 (bool_decide_eq_true _)). vm_compute. reflexivity.
Defined.





(** ** Admission to a room *)

Lemma check_mutual_follow_true self other w w' :
  _check_mutual_follow self other w = Returned true w' →
  ∃ name, user self = Some (MyUser name)
          ∧ other ∈ users (db w)
          ∧ permissions.check_mutual_follow (db w) name other = true.
Proof.
  unfold _check_mutual_follow, MyUser_objects_get. run.
  case_bool_decide as Hin; [|done].
  destruct (user self) as [[|name]|]; try done. cbn.
  intros [= Hc _]. by exists name.
Qed.

Lemma can_join_room_true self w w' :
  _can_join_room self w = Returned true w' →
  ∃ name other room,
    user self = Some (MyUser name) ∧ room_name self = Some room
    ∧ name ∈ pystr.split (ord "_") room
    ∧ other ∈ pystr.split (ord "_") room
    ∧ other ∈ users (db w)
    ∧ permissions.check_mutual_follow (db w) name other = true.
Proof.
  unfold _can_join_room. run.
  destruct (room_name self) as [room|]; [|done].
  destruct (user self) as [u|] eqn:Hu; [|done].
  case_bool_decide as Hin; cbn; [|done].
  destruct (_ !! 1%nat) as [second|] eqn:H1; [|done].
  case_bool_decide as Hsecond; cbn.
  - destruct (_ !! 0%nat) as [first|] eqn:H0; [|done].
    intros (name & Hname & Hreg & Hmf)%check_mutual_follow_true.
    rewrite Hu in Hname. injection Hname as ->.
    exists name, first, room. split_and!; try done.
    by eapply list_elem_of_lookup_2.
  - intros (name & Hname & Hreg & Hmf)%check_mutual_follow_true.
    rewrite Hu in Hname. injection Hname as ->.
    exists name, second, room. split_and!; try done.
    by eapply list_elem_of_lookup_2.
Qed.

(** X9.  Whatever the room name, a [connect] that returns has either
    closed the connection with 4001 or 4003 and changed nothing else, or
    admitted an authenticated user whose name is a token of the room
    name and who has a mutual follow with a registered user that is
    another token of it; only then is the channel added to the group,
    accepted, and announced, and the group name is then one the channel
    layer takes. *)
Theorem connect_admits_only_mutual_followers self w self' w' :
  connect self w = Returned self' w' →
  let c := channel_name self in
  let room := scope_room_name (scope self) in
  let group := py "chat_" ++ room in
  (∃ code, (code = 4001 ∨ code = 4003) ∧ w' = log (Close c code) w)
  ∨ (∃ name other,
       scope_user (scope self) = Some (MyUser name)
       ∧ name ∈ pystr.split (ord "_") room
       ∧ other ∈ pystr.split (ord "_") room
       ∧ other ≠ name
       ∧ other ∈ users (db w)
       ∧ permissions.check_mutual_follow (db w) name other = true
       ∧ trace w' = trace w ++ [GroupAdd group c; Accept c;
                                GroupSend group (user_joined_event name)]
       ∧ members w' group = {[c]} ∪ members w group
       ∧ (∀ g, g ≠ group → members w' g = members w g)
       ∧ db w' = db w
       ∧ channel_layer.valid_group_name group = true).
Proof.
  intros Hrun c room group. rewrite connect_cases in Hrun. cbn zeta in Hrun.
  destruct (is_anonymous _) eqn:Hanon.
  { left. exists 4001. injection Hrun as _ <-. auto. }
  destruct (_can_join_room _ w) as [[] w1|] eqn:Hjoin; [| |done].
  - right. apply can_join_room_true in Hjoin
      as (name & other & room' & Hu & Hr & Hn & Ho & Hreg & Hmf).
    cbn in Hu, Hr. injection Hr as <-.
    destruct (scope_user (scope self)) as [[|name']|]; try done.
    cbn in Hu. injection Hu as ->.
    exists name, other. split; [done|]. split; [done|]. split; [done|].
    split.
    { intros ->. by rewrite mutual_follow_self in Hmf. }
    split; [done|]. split; [done|].
    rewrite connect_admission in Hrun.
    destruct (channel_layer.valid_group_name _) eqn:Hvalid; [|done].
    injection Hrun as _ <-. cbn [trace log].
    split; [by rewrite <- !app_assoc|].
    unfold members. cbn [groups log]. split.
    + by rewrite lookup_insert_eq.
    + split; [|done]. intros g Hg. by rewrite lookup_insert_ne.
  - left. exists 4003. injection Hrun as _ <-. auto.
Qed.

(** [alice] is admitted to [alice_bob]. *)
Lemma connect_admits_only_mutual_followers_witness :
  ∃ self' w',
    connect (new (scenario.scope_of (MyUser scenario.alice)
                    scenario.room_alice_bob) scenario.channel_a) scenario.w0
    = Returned self' w'
    ∧ trace w' = [GroupAdd scenario.group_alice_bob scenario.channel_a;
                  Accept scenario.channel_a;
                  GroupSend scenario.group_alice_bob
                    (user_joined_event scenario.alice)].
Proof.
  destruct (connect (new (scenario.scope_of (MyUser scenario.alice)
                            scenario.room_alice_bob) scenario.channel_a)
              scenario.w0) as [self' w'|] eqn:Hrun;
    [|vm_compute in Hrun; discriminate].
  exists self', w'. split; [done|].
  destruct (connect_admits_only_mutual_followers _ _ _ _ Hrun)
    as [(code & _ & ->)|(name & other & Hu & _ & _ & _ & _ & _ & Ht & _)].
  - apply (f_equal (λ o, trace (world_of o))) in Hrun.
    vm_compute in Hrun. discriminate.
  - injection Hu as <-. exact Ht.
Defined.

Lemma split_nonempty sep (s : str) : pystr.split sep s ≠ [].
Proof.
  intros E. apply (f_equal length) in E. by rewrite split_length in E.
Qed.

Lemma split_tokens sep (s tok : str) : tok ∈ pystr.split sep s → sep ∉ tok.
Proof.
  revert tok. induction s as [|c s IH]; intros tok; cbn [pystr.split].
  - intros ->%list_elem_of_singleton. apply not_elem_of_nil.
  - destruct (c =? sep) eqn:Hc.
    + intros [->|Hin]%elem_of_cons; [apply not_elem_of_nil|by apply IH].
    + apply N.eqb_neq in Hc.
      destruct (pystr.split sep s) as [|w ws] eqn:Hs;
        [by destruct (split_nonempty sep s)|].
      intros [->|Hin]%elem_of_cons.
      * rewrite elem_of_cons. intros [->|Hw]; [done|].
        by apply (IH w); [left|].
      * apply IH. by right.
Qed.

Lemma split_without_sep sep (s : str) : sep ∉ s → pystr.split sep s = [s].
Proof.
  induction s as [|c s IH]; [done|].
  rewrite not_elem_of_cons. intros [Hc Hs]. cbn [pystr.split].
  rewrite (proj2 (N.eqb_neq c sep)) by done. by rewrite IH.
Qed.

(** Splitting undoes joining two strings that do not contain the
    separator. *)
Lemma split_join sep (a b : str) :
  sep ∉ a → sep ∉ b → pystr.split sep (a ++ sep :: b) = [a; b].
Proof.
  intros Ha Hb. induction a as [|c a IH]; cbn [app pystr.split].
  - by rewrite N.eqb_refl, split_without_sep.
  - apply not_elem_of_cons in Ha as [Hc Ha].
    rewrite (proj2 (N.eqb_neq c sep)) by done. by rewrite IH.
Qed.

(** X10.  A user whose username contains an underscore is refused by
    every room: the tokens of a room name never contain one, so the
    participant test fails and the connection is closed with 4003, also
    for the room of a conversation the user takes part in. *)
Theorem underscore_username_is_never_admitted self w name :
  scope_user (scope self) = Some (MyUser name) →
  ord "_" ∈ name →
  ∃ self', connect self w
           = Returned self' (log (Close (channel_name self) 4003) w).
Proof.
  intros Hu Hin. rewrite connect_cases. cbn zeta. rewrite Hu.
  cbn [from_option id is_anonymous].
  erewrite not_participant_cannot_join; [by eexists|reflexivity..|].
  cbn [username]. intros Htok. by apply split_tokens in Htok.
Qed.

(** [john_doe] and [bob] follow each other, and their conversation's
    room is [bob_john_doe]; [john_doe] cannot enter it. *)
Lemma underscore_username_is_never_admitted_witness :
  let d := base.set_follows {[(py "john_doe", scenario.bob);
                               (scenario.bob, py "john_doe")]}
             {| users := {[py "john_doe"; scenario.bob]}; follows := ∅;
                conversations := []; messages := []; next_uuid := 0 |} in
  let c := (models.get_or_create_between 1%Z d (py "john_doe")
              scenario.bob).1.1 in
  permissions.check_mutual_follow d (py "john_doe") scenario.bob = true
  ∧ models.get_room_name c = py "bob_john_doe"
  ∧ ∃ self',
      connect (new (scenario.scope_of (MyUser (py "john_doe"))
                      (models.get_room_name c)) scenario.channel_a)
        (with_db d scenario.w0)
      = Returned self'
          (log (Close scenario.channel_a 4003) (with_db d scenario.w0)).
Proof.
  intros d c. split; [vm_compute; reflexivity|].
  split; [vm_compute; reflexivity|].
  apply (underscore_username_is_never_admitted
           (new (scenario.scope_of (MyUser (py "john_doe"))
                   (models.get_room_name c)) scenario.channel_a)
           (with_db d scenario.w0) (py "john_doe"));
    [reflexivity|].
  apply (proj1 (bool_decide_eq_true _)). vm_compute. reflexivity.
Defined.

Lemma room_name_tokens c :
  ord "_" ∉ participant_1 c → ord "_" ∉ participant_2 c →
  pystr.split (ord "_") (models.get_room_name c)
  = [participant_1 c; participant_2 c].
Proof. intros H1 H2. by apply (split_join (ord "_")). Qed.

(** X11.  The room name [get_room_name] gives a conversation whose
    usernames have no underscore splits back into its two participants,
    and [connect] to that room decides on exactly that pair.  A
    participant is closed with 4003 unless the other participant is
    registered and the two follow each other.  If they do, the
    participant is admitted when the channel layer takes the group name;
    when it does not (the two usernames are too long together, or have
    a character outside the layer's set), [connect] raises [TypeError]
    at the join and the connection is neither accepted nor closed. *)
Theorem conversation_room_admits_its_participants c self w name :
  ord "_" ∉ participant_1 c → ord "_" ∉ participant_2 c →
  scope_room_name (scope self) = models.get_room_name c →
  scope_user (scope self) = Some (MyUser name) →
  name = participant_1 c ∨ name = participant_2 c →
  let other := models.get_other_participant c name in
  let group := py "chat_" ++ models.get_room_name c in
  pystr.split (ord "_") (models.get_room_name c)
  = [participant_1 c; participant_2 c]
  ∧ if bool_decide (other ∈ users (db w))
       && permissions.check_mutual_follow (db w) name other
    then
      if channel_layer.valid_group_name group
      then ∃ self' w',
             connect self w = Returned self' w'
             ∧ trace w' = trace w ++ [GroupAdd group (channel_name self);
                                      Accept (channel_name self);
                                      GroupSend group (user_joined_event name)]
             ∧ channel_name self ∈ members w' group
      else connect self w = Raised TypeError w
    else ∃ self',
           connect self w
           = Returned self' (log (Close (channel_name self) 4003) w).
Proof.
  intros H1 H2 Hroom Hu Hname other group.
  pose proof (room_name_tokens c H1 H2) as Htok. split; [done|].
  pose proof (connect_cases self w) as Hrun. cbn zeta in Hrun.
  rewrite Hu, Hroom in Hrun. cbn [from_option id is_anonymous] in Hrun.
  erewrite can_join_two_token_room in Hrun; [|reflexivity..|exact Htok].
  rewrite bool_decide_eq_true_2 in Hrun by done.
  cbn [andb] in Hrun. cbv zeta in Hrun.
  assert ((if bool_decide (participant_2 c = name)
           then participant_1 c else participant_2 c) = other) as Hother.
  { unfold other, models.get_other_participant.
    repeat case_bool_decide; destruct Hname; congruence. }
  rewrite Hother in Hrun.
  destruct (bool_decide (other ∈ users (db w))
            && permissions.check_mutual_follow (db w) name other);
    [|rewrite Hrun; by eexists].
  rewrite connect_admission in Hrun. fold group in Hrun.
  destruct (channel_layer.valid_group_name group); [|done].
  rewrite Hrun.
  eexists _, _. split; [reflexivity|]. cbn [trace log].
  split; [by rewrite <- !app_assoc|].
  unfold members. cbn [groups log]. rewrite lookup_insert_eq.
  cbn. set_solver.
Qed.

(** [bob] enters the room of his conversation with [alice]. *)
Lemma conversation_room_admits_its_participants_witness :
  ∃ self' w',
    connect (new (scenario.scope_of (MyUser scenario.bob)
                    (models.get_room_name scenario.conversation_ab))
               scenario.channel_b) scenario.w0 = Returned self' w'
    ∧ scenario.channel_b ∈ members w' scenario.group_alice_bob.
Proof.
  pose proof (conversation_room_admits_its_participants
                scenario.conversation_ab
                (new (scenario.scope_of (MyUser scenario.bob)
                        (models.get_room_name scenario.conversation_ab))
                   scenario.channel_b) scenario.w0 scenario.bob)
    as Hroom.
  destruct Hroom as [_ Hw']; try reflexivity.
  - apply (proj1 (bool_decide_eq_false _)). vm_compute. reflexivity.
  - apply (proj1 (bool_decide_eq_false _)). vm_compute. reflexivity.
  - by right.
  - replace (bool_decide _ && _) with true in Hw'
      by (vm_compute; reflexivity).
    replace (channel_layer.valid_group_name _) with true in Hw'
      by (vm_compute; reflexivity).
    destruct Hw' as (self' & w' & Hrun & _ & Hin).
    by exists self', w'.
Defined.

(** ** Leaving a room *)

(** X12.  A connection that was admitted and then disconnects leaves
    every group with the members it had before the connection arrived.
    In between the channel is a member of its room group, so both its
    own join notice and its own leave notice are queued for it. *)
Theorem connect_then_disconnect_restores_groups self w self' w' close_code :
  connect self w = Returned self' w' →
  let c := channel_name self in
  let group := py "chat_" ++ scope_room_name (scope self) in
  let name := username (default AnonymousUser (scope_user (scope self))) in
  c ∉ members w group →
  c ∈ members w' group →
  ∃ w'', disconnect self' close_code w' = Returned () w''
         ∧ (∀ g, members w'' g = members w g)
         ∧ trace w'' = trace w ++ [GroupAdd group c; Accept c;
                                   GroupSend group (user_joined_event name);
                                   GroupSend group (user_left_event name);
                                   GroupDiscard group c]
         ∧ (c, user_joined_event name) ∈ pending w''
         ∧ (c, user_left_event name) ∈ pending w''
         ∧ db w'' = db w.
Proof.
  intros Hrun c group name Hout Hin.
  destruct (connect_attributes _ _ _ _ Hrun) as (_ & Hc & Hu & _ & Hg).
  rewrite connect_cases in Hrun. cbn zeta in Hrun.
  fold group in Hrun, Hg.
  assert (∀ code, w' = log (Close c code) w → False) as Hclosed.
  { intros code ->. apply Hout. exact Hin. }
  destruct (is_anonymous _);
    [injection Hrun as _ <-; by destruct (Hclosed 4001)|].
  destruct (_can_join_room _ w) as [[] w1|]; [| |done];
    [|injection Hrun as _ <-; by destruct (Hclosed 4003)].
  rewrite connect_admission in Hrun.
  destruct (channel_layer.valid_group_name group) eqn:Hvalid; [|done].
  injection Hrun as _ <-.
  unfold disconnect. rewrite Hg, Hu. run.
  rewrite (group_send_valid _ _ _ Hvalid).
  match goal with |- context [channel_layer.group_discard _ _ ?w1] =>
    destruct (members_group_discard group (channel_name self') w1 Hvalid)
      as (w'' & Hd & Htr & Hp & Hdb & Hm) end.
  exists w''. rewrite Hd, Hc in *. fold c in Hm, Htr. split; [done|].
  split.
  { intros g. rewrite Hm. unfold members. cbn [groups log].
    destruct (decide (g = group)) as [->|Hg'].
    - rewrite lookup_insert_eq. cbn [from_option id].
      fold (members w group). set_solver.
    - by rewrite lookup_insert_ne. }
  split.
  { rewrite Htr. cbn [trace log]. by rewrite <- !app_assoc. }
  rewrite Hp. unfold members. cbn [pending log groups].
  rewrite !lookup_insert_eq. cbn [from_option id].
  assert (c ∈ elements ({[c]} ∪ default ∅ (groups w !! group))) as Hel
    by (apply elem_of_elements; set_solver).
  split; [|split; [|done]].
  - apply elem_of_app. left. apply elem_of_app. right.
    apply list_elem_of_fmap. by exists c.
  - apply elem_of_app. right. apply list_elem_of_fmap. by exists c.
Qed.

(** [alice] enters the empty room [alice_bob] and leaves it again. *)
Lemma connect_then_disconnect_restores_groups_witness :
  ∃ self' w' w'',
    connect (new (scenario.scope_of (MyUser scenario.alice)
                    scenario.room_alice_bob) scenario.channel_a) scenario.w0
    = Returned self' w'
    ∧ disconnect self' 1000 w' = Returned () w''
    ∧ ∀ g, members w'' g = members scenario.w0 g.
Proof.
  destruct (connect (new (scenario.scope_of (MyUser scenario.alice)
                            scenario.room_alice_bob) scenario.channel_a)
              scenario.w0) as [self' w'|] eqn:Hrun;
    [|vm_compute in Hrun; discriminate].
  destruct (connect_then_disconnect_restores_groups _ _ _ _ 1000 Hrun)
    as (w'' & Hd & Hm & _).
  - unfold members. cbn. apply not_elem_of_empty.
  - apply (f_equal (λ o, bool_decide
                           (scenario.channel_a
                            ∈ members (world_of o) scenario.group_alice_bob)))
      in Hrun.
    cbn [world_of] in Hrun.
    change (scenario.channel_a ∈ members w' scenario.group_alice_bob).
    apply (proj1 (bool_decide_eq_true _)).
    rewrite <- Hrun. vm_compute. reflexivity.
  - by exists self', w', w''.
Defined.

(** ** What a frame can do *)


Lemma db_blind_bind {A B} (m : M A) (f : A → M B) :
  db_blind m → (∀ a, db_blind (f a)) → db_blind (m ≫= f).
Proof.
  intros Hm Hf d w. unfold mbind, M_bind. rewrite Hm.
  destruct (m w) as [a w'|e w']; [apply Hf|done].
Qed.

Lemma db_blind_ret {A} (a : A) : db_blind (mret a).
Proof. done. Qed.

Lemma db_blind_raise {A} e : db_blind (raise (A:=A) e).
Proof. done. Qed.

Lemma db_blind_attr {A} (a : option A) : db_blind (attr a).
Proof. by destruct a. Qed.

Lemma db_blind_send self frame : db_blind (send self frame).
Proof. done. Qed.

Lemma db_blind_clock : db_blind read_clock.
Proof. done. Qed.

Lemma db_blind_require name :
  db_blind (channel_layer.require_valid_group_name name).
Proof.
  unfold channel_layer.require_valid_group_name.
  by destruct (channel_layer.valid_group_name name).
Qed.

Lemma db_blind_group_send group event :
  db_blind (channel_layer.group_send group event).
Proof.
  unfold channel_layer.group_send.
  apply db_blind_bind; [apply db_blind_require|]. by intros [].
Qed.

Lemma db_blind_group_discard group channel :
  db_blind (channel_layer.group_discard group channel).
Proof.
  unfold channel_layer.group_discard.
  apply db_blind_bind; [apply db_blind_require|]. intros [] d w. cbn.
  by destruct (groups w !! group).
Qed.

Ltac blind :=
  repeat first
    [ apply db_blind_ret | apply db_blind_raise | apply db_blind_attr
    | apply db_blind_send | apply db_blind_clock
    | apply db_blind_group_send | apply db_blind_group_discard
    | apply db_blind_bind; [|intros ?]
    | match goal with
      | |- db_blind (match ?x with _ => _ end) => destruct x
      end ].

Lemma receive_db_blind self loaded : db_blind (receive self loaded).
Proof.
  unfold receive, _handle_chat_message, _handle_typing_start,
    _handle_typing_stop, _handle_mark_read, send_error, _get_timestamp.
  blind.
Qed.

Lemma dispatch_db_blind self event : db_blind (dispatch self event).
Proof.
  unfold dispatch, chat_message, typing_indicator, read_receipt,
    user_joined, user_left.
  blind.
Qed.

Lemma disconnect_db_blind self close_code :
  db_blind (disconnect self close_code).
Proof. unfold disconnect. blind. Qed.

(** X14.  The consumer handles frames, group events and disconnects
    without reading or writing the database: over any other database the
    outcome is the same, with that database carried along. *)
Theorem session_ignores_the_database self d w :
  (∀ loaded, receive self loaded (with_db d w)
             = outcome_with_db d (receive self loaded w))
  ∧ (∀ event, dispatch self event (with_db d w)
              = outcome_with_db d (dispatch self event w))
  ∧ (∀ close_code, disconnect self close_code (with_db d w)
                   = outcome_with_db d (disconnect self close_code w)).
Proof.
  split; [|split].
  - intros loaded. apply receive_db_blind.
  - intros event. apply dispatch_db_blind.
  - intros close_code. apply disconnect_db_blind.
Qed.

Lemma unfollowed_pair_is_refused d (me target x y : str) :
  (me, target) ∉ follows d →
  (x = me ∨ x = target) → (y = me ∨ y = target) →
  permissions.check_mutual_follow d x y = false.
Proof.
  intros Hedge Hx Hy. apply not_true_is_false.
  intros (Hne & Hxy & Hyx)%mutual_follow_iff.
  destruct Hx as [->| ->], Hy as [->| ->]; done.
Qed.

(** X15.  When a user who follows another one unfollows through
    [toggle_follow], the two no longer pass the gate in either direction,
    and a new connection of either of them to their room is closed with
    4003; a connection that is already in the room is not affected: its
    frames are handled exactly as before. *)
Theorem unfollow_blocks_new_connections_only (me target : str) w :
  me ∈ users (db w) → target ∈ users (db w) →
  (me, target) ∈ follows (db w) →
  let d' := (base.toggle_follow (db w) me (Some target)).2 in
  let w' := with_db d' w in
  permissions.check_mutual_follow d' me target = false
  ∧ permissions.check_mutual_follow d' target me = false
  ∧ (∀ self name a b,
       scope_user (scope self) = Some (MyUser name) →
       pystr.split (ord "_") (scope_room_name (scope self)) = [a; b] →
       (a = me ∧ b = target) ∨ (a = target ∧ b = me) →
       name = me ∨ name = target →
       ∃ self', connect self w'
                = Returned self' (log (Close (channel_name self) 4003) w'))
  ∧ ∀ self loaded,
      receive self loaded w' = outcome_with_db d' (receive self loaded w).
Proof.
  intros Hme Ht Hedge d' w'.
  assert ((me, target) ∉ follows d') as Hgone.
  { unfold d'. rewrite toggle_follow_registered by done.
    rewrite bool_decide_eq_true_2 by done. cbn. set_solver. }
  split; [apply (unfollowed_pair_is_refused d' me target); auto|].
  split; [apply (unfollowed_pair_is_refused d' me target); auto|].
  split; [|intros self loaded; apply receive_db_blind].
  intros self name a b Hu Hs Hab Hname.
  rewrite connect_cases. cbn zeta. rewrite Hu.
  cbn [from_option id is_anonymous].
  erewrite can_join_two_token_room; [|reflexivity..|exact Hs].
  cbv zeta.
  rewrite (unfollowed_pair_is_refused d' me target) by
    (try done; case_bool_decide; naive_solver).
  rewrite !andb_false_r. by eexists.
Qed.

(** [alice] unfollows [bob]: [bob] can no longer message her either. *)
Lemma unfollow_blocks_new_connections_only_witness :
  permissions.check_mutual_follow
    (base.toggle_follow scenario.db0 scenario.alice (Some scenario.bob)).2
    scenario.bob scenario.alice = false.
Proof.
  assert (scenario.alice ∈ users (db scenario.w0)) as Ha
    by (apply (proj1 (bool_decide_eq_true _)); vm_compute; reflexivity).
  assert (scenario.bob ∈ users (db scenario.w0)) as Hb
    by (apply (proj1 (bool_decide_eq_true _)); vm_compute; reflexivity).
  assert ((scenario.alice, scenario.bob) ∈ follows (db scenario.w0)) as He
    by (apply (proj1 (bool_decide_eq_true _)); vm_compute; reflexivity).
  exact (proj1 (proj2 (unfollow_blocks_new_connections_only
                         scenario.alice scenario.bob scenario.w0 Ha Hb He))).
Defined.

(** ** The handshake as a whole *)



(** ** Reading messages *)

Lemma filter_length_fmap_none {A} (P : A → Prop) `{!∀ x, Decision (P x)}
  (f : A → A) (l : list A) :
  (∀ x, ¬ P (f x)) → filter P (f <$> l) = [].
Proof.
  intros Hf. induction l as [|x l IH]; [done|].
  rewrite fmap_cons, filter_cons_False by apply Hf. done.
Qed.

Lemma patch_found t d user cid n d' :
  views.patch t d user cid = Ok (n, d') →
  ∃ c, conversation_of d user cid = Some c ∧ conv_id c = cid
       ∧ (participant_1 c = user ∨ participant_2 c = user)
       ∧ c ∈ conversations d
       ∧ n = length (filter (views.unread_from_other cid user) (messages d))
       ∧ d' = {| users := users d; follows := follows d;
                 conversations := conversations d;
                 messages :=
                   (λ m, if decide (views.unread_from_other cid user m)
                         then views.set_read t m else m) <$> messages d;
                 next_uuid := next_uuid d |}.
Proof.
  unfold views.patch, conversation_of.
  destruct (list_find _ (conversations d)) as [[k c]|] eqn:Hfind; [|done].
  pose proof Hfind as (Hk & [Hp Hid] & _)%list_find_Some. rewrite Hid.
  intros [= <- <-]. exists c. cbn. split_and!; try done.
  by eapply list_elem_of_lookup_2.
Qed.

Lemma patch_unread_counts t d user cid n d' :
  views.patch t d user cid = Ok (n, d') →
  ∀ c, (conv_id c = cid →
        n = models.get_unread_count d c user
        ∧ models.get_unread_count d' c user = 0%nat)
       ∧ (conv_id c ≠ cid →
          ∀ reader, models.get_unread_count d' c reader
                    = models.get_unread_count d c reader).
Proof.
  intros (c0 & _ & Hid & _ & _ & -> & ->)%patch_found.
  intros c. unfold models.get_unread_count. cbn [messages]. split.
  + intros Hc. rewrite Hc. split; [done|].
    rewrite (filter_length_fmap_none
               (λ m, conversation m = cid ∧ is_read m = false
                     ∧ sender m ≠ user)); [done|].
    intros m. apply (mark_step_not_selected t cid user m).
  + intros Hne reader.
    induction (messages d) as [|m l IH]; [done|].
    rewrite fmap_cons, !filter_cons.
    assert ((conversation
               (if decide (views.unread_from_other cid user m)
                then views.set_read t m else m) = conv_id c
             ∧ is_read (if decide (views.unread_from_other cid user m)
                        then views.set_read t m else m) = false
             ∧ sender (if decide (views.unread_from_other cid user m)
                       then views.set_read t m else m) ≠ reader)
            ↔ (conversation m = conv_id c ∧ is_read m = false
               ∧ sender m ≠ reader)) as Hiff.
    { case_decide as Hs; [|done]. destruct Hs as (Hc & _). cbn.
      split; intros (Hc' & _); congruence. }
    repeat case_decide; try tauto; cbn; by rewrite IH.
Qed.

(** X17.  [MarkMessagesReadView.patch] answers 404 exactly when no
    conversation with that id has the user as a participant, and then
    changes nothing.  Otherwise the number it reports is the
    conversation's [get_unread_count] for the reader before the call,
    that count is zero afterwards, the counts of every other conversation
    are as before, and users, follows and conversations are untouched. *)
Theorem mark_read_clears_the_unread_count t d user cid :
  (views.patch t d user cid = Raise Http404
   ↔ conversation_of d user cid = None)
  ∧ ∀ n d', views.patch t d user cid = Ok (n, d') →
      users d' = users d ∧ follows d' = follows d
      ∧ conversations d' = conversations d
      ∧ ∀ c, (conv_id c = cid →
              n = models.get_unread_count d c user
              ∧ models.get_unread_count d' c user = 0%nat)
             ∧ (conv_id c ≠ cid →
                ∀ reader, models.get_unread_count d' c reader
                          = models.get_unread_count d c reader).
Proof.
  split.
  - unfold views.patch, conversation_of.
    by destruct (list_find _ (conversations d)) as [[k c]|].
  - intros n d' Hrun.
    pose proof (patch_unread_counts _ _ _ _ _ _ Hrun) as Hcounts.
    apply patch_found in Hrun as (c0 & _ & Hid & _ & _ & -> & ->).
    by split_and!.
Qed.

(** [alice] has one unread message from [bob]; marking the conversation
    read reports one and leaves none. *)
Lemma mark_read_clears_the_unread_count_witness :
  ∃ d',
    views.patch 50%Z scenario.db_chat scenario.alice 7 = Ok (1%nat, d')
    ∧ models.get_unread_count scenario.db_chat scenario.conversation_ab
        scenario.alice = 1%nat
    ∧ models.get_unread_count d' scenario.conversation_ab scenario.alice
      = 0%nat.
Proof.
  destruct (views.patch 50%Z scenario.db_chat scenario.alice 7)
    as [[n d']|] eqn:Hrun; [|vm_compute in Hrun; discriminate].
  destruct (proj1 (proj2 (proj2 (proj2
              (proj2 (mark_read_clears_the_unread_count 50%Z scenario.db_chat
                        scenario.alice 7) n d' Hrun)))
              scenario.conversation_ab) eq_refl) as [Hn H0].
  exists d'. rewrite <- Hn.
  assert (n = 1%nat) as ->
    by (apply (f_equal (λ r, match r with Ok (k, _) => k | _ => 0%nat end))
          in Hrun; vm_compute in Hrun; congruence).
  done.
Defined.

Lemma sum_unread_after_patch (f f' : Conversation → nat) (P : Conversation → Prop)
  `{!∀ c, Decision (P c)} (l : list Conversation) c0 :
  NoDup (conv_id <$> l) → c0 ∈ l → P c0 →
  f' c0 = 0%nat →
  (∀ c, conv_id c ≠ conv_id c0 → f' c = f c) →
  (sum_list (f' <$> filter P l) + f c0)%nat = sum_list (f <$> filter P l).
Proof.
  intros Hnd Hin HP H0 Hother.
  induction l as [|c l IH]; [by apply elem_of_nil in Hin|].
  rewrite fmap_cons in Hnd. apply NoDup_cons in Hnd as [Hc Hnd].
  assert (∀ l', (∀ x, x ∈ l' → conv_id x ≠ conv_id c0) →
                sum_list (f' <$> filter P l') = sum_list (f <$> filter P l'))
    as Hsame.
  { intros l' Hl'. induction l' as [|x l' IH']; [done|].
    rewrite !filter_cons. case_decide.
    - cbn. rewrite Hother by (apply Hl'; by left).
      rewrite IH'; [done|]. intros y Hy. apply Hl'. by right.
    - apply IH'. intros y Hy. apply Hl'. by right. }
  apply elem_of_cons in Hin as [->|Hin].
  - rewrite filter_cons_True by done. cbn. rewrite H0.
    rewrite Hsame; [lia|].
    intros x Hx E. apply Hc. rewrite <- E. apply list_elem_of_fmap. eauto.
  - assert (conv_id c ≠ conv_id c0) as Hne.
    { intros E. apply Hc. rewrite E. apply list_elem_of_fmap. eauto. }
    rewrite !filter_cons. case_decide.
    + cbn. rewrite (Hother c Hne). rewrite <- (IH Hnd Hin). lia.
    + by apply IH.
Qed.

(** X18.  With the conversation ids unique, as a primary key is, a
    successful [MarkMessagesReadView.patch] lowers the reader's total of
    [UnreadCountView.get] by exactly the number it reports. *)
Theorem unread_total_drops_by_marked t d user cid n d' :
  conversation_ids_unique d →
  views.patch t d user cid = Ok (n, d') →
  (UnreadCountView.get d' user + n)%nat = UnreadCountView.get d user.
Proof.
  intros Hid Hrun.
  pose proof (patch_unread_counts _ _ _ _ _ _ Hrun) as Hcounts.
  destruct (patch_found _ _ _ _ _ _ Hrun)
    as (c0 & _ & Hc0 & Hp & Hin & _ & Hd').
  unfold UnreadCountView.get, models.for_user.
  replace (conversations d') with (conversations d) by (by rewrite Hd').
  destruct (Hcounts c0) as [Hsame _]. destruct (Hsame Hc0) as [-> Hzero].
  apply (sum_unread_after_patch
           (λ c, models.get_unread_count d c user)
           (λ c, models.get_unread_count d' c user)); try done.
  intros c Hne. apply Hcounts. congruence.
Qed.

(** [alice]'s total goes from one to zero. *)
Lemma unread_total_drops_by_marked_witness :
  ∃ d',
    views.patch 50%Z scenario.db_chat scenario.alice 7 = Ok (1%nat, d')
    ∧ UnreadCountView.get scenario.db_chat scenario.alice = 1%nat
    ∧ UnreadCountView.get d' scenario.alice = 0%nat.
Proof.
  destruct (views.patch 50%Z scenario.db_chat scenario.alice 7)
    as [[n d']|] eqn:Hrun; [|vm_compute in Hrun; discriminate].
  assert (conversation_ids_unique scenario.db_chat) as Hid
    by (apply (proj1 (bool_decide_eq_true _)); vm_compute; reflexivity).
  pose proof (unread_total_drops_by_marked _ _ _ _ _ _ Hid Hrun) as Hsum.
  assert (n = 1%nat) as ->
    by (apply (f_equal (λ r, match r with Ok (k, _) => k | _ => 0%nat end))
          in Hrun; vm_compute in Hrun; congruence).
  assert (UnreadCountView.get scenario.db_chat scenario.alice = 1%nat) as Hone
    by (vm_compute; reflexivity).
  exists d'. split; [done|]. split; [done|]. lia.
Defined.

(** ** Trimming *)

Lemma lstrip_head (s : str) :
  pystr.lstrip s = []
  ∨ ∃ c t, pystr.lstrip s = c :: t ∧ pystr.isspace c = false.
Proof.
  induction s as [|c s IH]; [by left|]. cbn [pystr.lstrip].
  destruct (pystr.isspace c) eqn:Hc; [done|]. right. by exists c, s.
Qed.

Lemma lstrip_nonspace c (t : str) :
  pystr.isspace c = false → pystr.lstrip (c :: t) = c :: t.
Proof. intros Hc. cbn [pystr.lstrip]. by rewrite Hc. Qed.

Lemma lstrip_snoc (l : str) c :
  pystr.isspace c = false → ∃ l', pystr.lstrip (l ++ [c]) = l' ++ [c].
Proof.
  intros Hc. induction l as [|x l IH].
  - exists []. by apply lstrip_nonspace.
  - cbn [app pystr.lstrip]. destruct (pystr.isspace x); [done|].
    by exists (x :: l).
Qed.

Lemma rstrip_head c (t : str) :
  pystr.isspace c = false → ∃ t', pystr.rstrip (c :: t) = c :: t'.
Proof.
  intros Hc. unfold pystr.rstrip. rewrite reverse_cons.
  destruct (lstrip_snoc (reverse t) c Hc) as [l' ->].
  exists (reverse l'). by rewrite reverse_app.
Qed.

(** Trimming twice is trimming once. *)
Lemma strip_idempotent (s : str) :
  pystr.strip (pystr.strip s) = pystr.strip s.
Proof.
  unfold pystr.strip.
  destruct (lstrip_head s) as [->|(c & t & -> & Hc)]; [done|].
  destruct (rstrip_head c t Hc) as [t' Ht']. rewrite Ht'.
  rewrite (lstrip_nonspace c t' Hc), <- Ht'.
  unfold pystr.rstrip. rewrite reverse_involutive.
  destruct (lstrip_head (reverse (c :: t))) as [->|(c' & t'' & -> & Hc')];
    [done|].
  by rewrite lstrip_nonspace.
Qed.

(** ** Sending a message over REST *)

Lemma char_field_valid n data value :
  serializers.CharField n data = serializers.Valid value →
  ∃ raw, data = Some raw ∧ value = pystr.strip raw ∧ value ≠ []
         ∧ (length value ≤ N.to_nat n)%nat ∧ 0 ∉ value.
Proof.
  unfold serializers.CharField. destruct data as [raw|]; [|done].
  case_bool_decide as Hblank; [done|].
  destruct (n <? pystr.len (pystr.strip raw)) eqn:Hlen; [done|].
  destruct (pystr.contains 0 (pystr.strip raw)) eqn:Hnull; [done|].
  destruct (existsb _ _); [done|]. cbn. intros [= <-].
  exists raw. split_and!; try done.
  - apply N.ltb_ge in Hlen. unfold pystr.len in Hlen. lia.
  - intros Hin%contains_elem_of. congruence.
Qed.

Lemma char_field_errors n data errs :
  serializers.CharField n data = serializers.Invalid errs →
  (serializers.message_empty ∉ errs) ∧ (serializers.user_not_found ∉ errs).
Proof.
  unfold serializers.CharField. destruct data as [raw|].
  - case_bool_decide.
    + intros [= <-]. split; by intros [[=]|[]%elem_of_nil]%elem_of_cons.
    + destruct (n <? _), (pystr.contains 0 _), (existsb _ _); cbn;
        intros [= <-]; split; intros Hin;
        repeat (apply elem_of_cons in Hin as [[=]|Hin]);
        by apply elem_of_nil in Hin.
  - intros [= <-]. split; by intros [[=]|[]%elem_of_nil]%elem_of_cons.
Qed.

Lemma serializer_valid d receiver_in content_in receiver text :
  serializers.SendMessageSerializer d receiver_in content_in
  = inr (receiver, text) →
  ∃ receiver_raw content_raw,
    receiver_in = Some receiver_raw ∧ content_in = Some content_raw
    ∧ receiver = pystr.strip receiver_raw ∧ text = pystr.strip content_raw
    ∧ receiver ∈ users d ∧ (length receiver ≤ 50)%nat
    ∧ text ≠ [] ∧ (length text ≤ 2000)%nat ∧ 0 ∉ text.
Proof.
  unfold serializers.SendMessageSerializer, serializers.field.
  destruct (serializers.CharField 50 receiver_in) as [r|] eqn:Hr;
    [|by destruct (serializers.CharField 2000 content_in) as [c|];
         [destruct (serializers.validate_content c)|]].
  destruct (serializers.CharField 2000 content_in) as [c|] eqn:Hc;
    [|by destruct (serializers.validate_receiver_username d r)].
  apply char_field_valid in Hr as (rr & -> & -> & Hrne & Hrlen & _).
  apply char_field_valid in Hc as (cc & -> & -> & Hcne & Hclen & Hnull).
  unfold serializers.validate_receiver_username, MyUser_objects_get,
    serializers.validate_content.
  rewrite strip_idempotent.
  case_bool_decide as Hreg; [|by case_bool_decide].
  rewrite bool_decide_eq_false_2 by done. intros [= <- <-].
  exists rr, cc. by split_and!.
Qed.

Lemma save_conversation_row t c d :
  c ∈ conversations d →
  {| conv_id := conv_id c; participant_1 := participant_1 c;
     participant_2 := participant_2 c; created_at := created_at c;
     updated_at := t |} ∈ conversations (save_conversation t c d).
Proof.
  intros Hin. unfold save_conversation. cbn [conversations].
  apply list_elem_of_fmap. exists c. by rewrite decide_True.
Qed.

Lemma one_conversation_facts t d (A B : str) :
  A ≠ B →
  let r := models.get_or_create_between t d A B in
  r.1.1 ∈ conversations r.2
  ∧ pystr.lt (participant_1 r.1.1) (participant_2 r.1.1) = true
  ∧ ((participant_1 r.1.1 = A ∧ participant_2 r.1.1 = B)
     ∨ (participant_1 r.1.1 = B ∧ participant_2 r.1.1 = A))
  ∧ users r.2 = users d ∧ follows r.2 = follows d
  ∧ (messages r.2 = messages d).
Proof.
  intros Hne r. unfold r, models.get_or_create_between.
  destruct (pystr.lt A B) eqn:Hab.
  - destruct (get_or_create_columns t d A B) as (H1 & H2 & Hin).
    rewrite H1, H2. split_and!; auto;
      unfold models.get_or_create;
      by destruct (list_find _ (conversations d)) as [[? ?]|].
  - destruct (get_or_create_columns t d B A) as (H1 & H2 & Hin).
    rewrite H1, H2. split_and!; auto; [by apply lt_total|..];
      unfold models.get_or_create;
      by destruct (list_find _ (conversations d)) as [[? ?]|].
Qed.

(** The 201 answer of [post], with every step written out. *)
Lemma post_created t1 t2 t3 d user receiver_in content_in receiver text :
  serializers.SendMessageSerializer d receiver_in content_in
  = inr (receiver, text) →
  receiver ≠ user →
  permissions.check_mutual_follow d user receiver = true →
  let r := models.get_or_create_between t1 d user receiver in
  let c := r.1.1 in
  let m := {| msg_id := next_uuid r.2; conversation := conv_id c;
              sender := user; content := text; msg_created_at := t2;
              read_at := None; is_read := false |} in
  SendMessageView.post t1 t2 t3 d user receiver_in content_in
  = ((201, SendMessageView.created m (conv_id c) (models.get_room_name c)),
     save_conversation t3 c (create_message t2 r.2 (conv_id c) user text).2).
Proof.
  intros Hvalid Hne Hmf r c m. unfold SendMessageView.post. rewrite Hvalid.
  rewrite bool_decide_eq_false_2 by done.
  destruct (serializer_valid _ _ _ _ _ Hvalid)
    as (_ & _ & _ & _ & _ & _ & Hreg & _).
  unfold MyUser_objects_get. rewrite bool_decide_eq_true_2 by done.
  cbn [username]. unfold permissions.can_message_user.
  rewrite bool_decide_eq_false_2 by done. rewrite Hmf. cbn [negb].
  fold r. destruct r as [[c0 created] d1] eqn:Hr. done.
Qed.

Lemma post_created_inv t1 t2 t3 d user receiver_in content_in m cid room d' :
  SendMessageView.post t1 t2 t3 d user receiver_in content_in
  = ((201, SendMessageView.created m cid room), d') →
  ∃ receiver text,
    serializers.SendMessageSerializer d receiver_in content_in
    = inr (receiver, text)
    ∧ receiver ≠ user
    ∧ permissions.check_mutual_follow d user receiver = true
    ∧ let r := models.get_or_create_between t1 d user receiver in
      m = {| msg_id := next_uuid r.2; conversation := conv_id r.1.1;
             sender := user; content := text; msg_created_at := t2;
             read_at := None; is_read := false |}
      ∧ cid = conv_id r.1.1 ∧ room = models.get_room_name r.1.1
      ∧ d' = save_conversation t3 r.1.1
               (create_message t2 r.2 (conv_id r.1.1) user text).2.
Proof.
  intros Hrun.
  destruct (serializers.SendMessageSerializer d receiver_in content_in)
    as [e|[receiver text]] eqn:Hvalid;
    [by unfold SendMessageView.post in Hrun; rewrite Hvalid in Hrun|].
  destruct (serializer_valid _ _ _ _ _ Hvalid)
    as (_ & _ & _ & _ & _ & _ & Hreg & _).
  destruct (decide (receiver = user)) as [Hself|Hother].
  { unfold SendMessageView.post in Hrun. rewrite Hvalid in Hrun.
    by rewrite bool_decide_eq_true_2 in Hrun. }
  destruct (permissions.check_mutual_follow d user receiver) eqn:Hmf.
  2: { unfold SendMessageView.post, MyUser_objects_get,
         permissions.can_message_user in Hrun.
       rewrite Hvalid in Hrun.
       rewrite bool_decide_eq_false_2 in Hrun by done.
       rewrite bool_decide_eq_true_2 in Hrun by done.
       cbn [username] in Hrun.
       rewrite bool_decide_eq_false_2 in Hrun by done.
       by rewrite Hmf in Hrun. }
  rewrite (post_created _ _ _ _ _ _ _ _ _ Hvalid Hother Hmf) in Hrun.
  cbv zeta in Hrun. injection Hrun as <- <- <- <-.
  exists receiver, text. by split_and!.
Qed.

(** X19.  A 201 from [SendMessageView.post] means: the receiver is a
    registered user other than the sender with a mutual follow; exactly
    one message row was appended, unread, from the sender, holding the
    trimmed content, which is non-empty, at most 2000 characters and
    free of null characters; the message belongs to the one conversation
    of the two users, stored in username order, whose [updated_at] is
    the time of the save and whose room name is returned. *)
Theorem send_message_appends_one_unread_message t1 t2 t3 d user
  receiver_in content_in m cid room d' :
  SendMessageView.post t1 t2 t3 d user receiver_in content_in
  = ((201, SendMessageView.created m cid room), d') →
  ∃ receiver_raw content_raw c,
    receiver_in = Some receiver_raw ∧ content_in = Some content_raw
    ∧ let receiver := pystr.strip receiver_raw in
      receiver ∈ users d ∧ receiver ≠ user
      ∧ permissions.check_mutual_follow d user receiver = true
      ∧ messages d' = messages d ++ [m]
      ∧ sender m = user ∧ content m = pystr.strip content_raw
      ∧ content m ≠ [] ∧ (length (content m) ≤ 2000)%nat ∧ (0 ∉ content m)
      ∧ is_read m = false ∧ read_at m = None ∧ msg_created_at m = t2
      ∧ conversation m = cid
      ∧ c ∈ conversations d' ∧ conv_id c = cid ∧ updated_at c = t3
      ∧ room = models.get_room_name c
      ∧ pystr.lt (participant_1 c) (participant_2 c) = true
      ∧ ((participant_1 c = user ∧ participant_2 c = receiver)
         ∨ (participant_1 c = receiver ∧ participant_2 c = user))
      ∧ users d' = users d ∧ follows d' = follows d.
Proof.
  intros (receiver & text & Hvalid & Hother & Hmf & Hm & -> & -> & ->)
           %post_created_inv.
  cbv zeta in Hm. subst m.
  destruct (serializer_valid _ _ _ _ _ Hvalid)
    as (rr & cc & -> & -> & -> & -> & Hreg & _ & Hne & Hlen & Hnull).
  destruct (one_conversation_facts t1 d user (pystr.strip rr)
              (not_eq_sym Hother))
    as (Hin & Hlt & Hpair & Husers & Hfollows & Hmessages).
  set (r := models.get_or_create_between t1 d user (pystr.strip rr)) in *.
  exists rr, cc,
    {| conv_id := conv_id r.1.1; participant_1 := participant_1 r.1.1;
       participant_2 := participant_2 r.1.1; created_at := created_at r.1.1;
       updated_at := t3 |}.
  cbn. split_and!; try done.
  - by rewrite Hmessages.
  - apply (save_conversation_row t3 r.1.1
             (create_message t2 r.2 (conv_id r.1.1) user (pystr.strip cc)).2).
    cbn. exact Hin.
Qed.

Lemma field_errors n data validate errs :
  serializers.field (serializers.CharField n data) validate
  = serializers.Invalid errs →
  (∀ value errs', validate value = serializers.Invalid errs' →
                  value ≠ [] → pystr.strip value = value →
                  serializers.message_empty ∉ errs') →
  serializers.message_empty ∉ errs.
Proof.
  unfold serializers.field.
  destruct (serializers.CharField n data) as [value|errs0] eqn:Hf.
  - intros Hv Hvalidate.
    apply char_field_valid in Hf as (raw & _ & -> & Hne & _).
    eapply Hvalidate; [done..|apply strip_idempotent].
  - intros [= <-] _. by apply char_field_errors in Hf as [? _].
Qed.

Lemma serializer_errors d receiver_in content_in e name errs :
  serializers.SendMessageSerializer d receiver_in content_in = inl e →
  e !! name = Some errs →
  serializers.message_empty ∉ errs.
Proof.
  unfold serializers.SendMessageSerializer.
  set (fr := serializers.field _ (serializers.validate_receiver_username d)).
  set (fc := serializers.field _ serializers.validate_content).
  intros He Hl.
  assert (e = serializers.errors_of (py "receiver_username") fr
              ∪ serializers.errors_of (py "content") fc) as ->.
  { destruct fr, fc; first [discriminate He|by injection He as <-]. }
  apply lookup_union_Some_raw in Hl as [Hl|[_ Hl]].
  - destruct fr as [|errs0] eqn:Hfr; [done|]. cbn in Hl.
    apply lookup_singleton_Some in Hl as [_ <-].
    eapply field_errors; [exact Hfr|].
    intros value errs'. unfold serializers.validate_receiver_username.
    destruct (MyUser_objects_get d value); [done|]. intros [= <-] _ _.
    by intros [[=]|[]%elem_of_nil]%elem_of_cons.
  - destruct fc as [|errs0] eqn:Hfc; [done|]. cbn in Hl.
    apply lookup_singleton_Some in Hl as [_ <-].
    eapply field_errors; [exact Hfc|].
    intros value errs'. unfold serializers.validate_content.
    intros Hv Hne Hstrip. rewrite Hstrip in Hv.
    by rewrite bool_decide_eq_false_2 in Hv.
Qed.

(** [alice] sends ["  hello "] to [bob]: the stored text is ["hello"]. *)
Lemma send_message_appends_one_unread_message_witness :
  ∃ m cid room d',
    SendMessageView.post 1%Z 2%Z 3%Z scenario.db0 scenario.alice
      (Some scenario.bob) (Some (py "  hello "))
    = ((201, SendMessageView.created m cid room), d')
    ∧ messages d' = [m] ∧ content m = py "hello"
    ∧ room = scenario.room_alice_bob.
Proof.
  destruct (SendMessageView.post 1%Z 2%Z 3%Z scenario.db0 scenario.alice
              (Some scenario.bob) (Some (py "  hello ")))
    as [[status body] d'] eqn:Hrun.
  assert (status = 201) as ->
    by (apply (f_equal (λ r, r.1.1)) in Hrun; vm_compute in Hrun; congruence).
  destruct body as [| | |m cid room];
    try (apply (f_equal (λ r, match r.1.2 with
                              | SendMessageView.created _ _ _ => true
                              | _ => false
                              end)) in Hrun;
         vm_compute in Hrun; discriminate).
  exists m, cid, room, d'. split; [done|].
  destruct (send_message_appends_one_unread_message _ _ _ _ _ _ _ _ _ _ _ Hrun)
    as (rr & cc & c & [= <-] & [= <-] & _ & _ & _ & Hm & _ & Hc & _).
  split; [exact Hm|]. split; [rewrite Hc; vm_compute; reflexivity|].
  apply (f_equal (λ r, match r.1.2 with
                       | SendMessageView.created _ _ room' => room'
                       | _ => []
                       end)) in Hrun.
  vm_compute in Hrun. rewrite <- Hrun. vm_compute. reflexivity.
Defined.

(** X20.  [SendMessageView.post] answers 201, 400 or 403 and nothing
    else: an unknown receiver is refused by the serializer with 400, so
    the 404 of the later lookup never arises.  Every answer other than
    201 leaves the database as it was; 403 is given exactly to a valid
    request for another registered user without a mutual follow; and
    among the serializer's errors the [message_empty] error of
    [validate_content] never occurs, blank content being refused by the
    field before. *)
Theorem send_message_refusals_change_nothing t1 t2 t3 d user
  receiver_in content_in :
  let r := SendMessageView.post t1 t2 t3 d user receiver_in content_in in
  (r.1.1 = 201 ∨ r.1.1 = 400 ∨ r.1.1 = 403)
  ∧ (r.1.1 ≠ 201 → r.2 = d)
  ∧ (r.1.1 = 403
     ↔ ∃ receiver text,
         serializers.SendMessageSerializer d receiver_in content_in
         = inr (receiver, text)
         ∧ receiver ≠ user
         ∧ permissions.check_mutual_follow d user receiver = false)
  ∧ ∀ e, r.1.2 = SendMessageView.errors e →
      r.1.1 = 400
      ∧ ∀ name errs, e !! name = Some errs →
          serializers.message_empty ∉ errs.
Proof.
  intros r. unfold r, SendMessageView.post.
  destruct (serializers.SendMessageSerializer d receiver_in content_in)
    as [e|[receiver text]] eqn:Hvalid.
  { cbn. split; [auto|]. split; [done|]. split.
    - split; [done|]. by intros (? & ? & ? & _).
    - intros e' [= <-]. split; [done|]. intros name errs He.
      by eapply serializer_errors. }
  destruct (serializer_valid _ _ _ _ _ Hvalid)
    as (_ & _ & _ & _ & _ & _ & Hreg & _).
  case_bool_decide as Hself.
  { cbn. split; [auto|]. split; [done|]. split; [|done].
    split; [done|]. intros (? & ? & [= <- <-] & ? & _). done. }
  unfold MyUser_objects_get. rewrite bool_decide_eq_true_2 by done.
  cbn [username]. unfold permissions.can_message_user.
  rewrite bool_decide_eq_false_2 by done.
  destruct (permissions.check_mutual_follow d user receiver) eqn:Hmf;
    cbn [negb].
  - destruct (models.get_or_create_between _ _ _ _) as [[c created] d1].
    cbn. split; [auto|]. split; [done|]. split; [|done].
    split; [done|]. intros (? & ? & [= <- <-] & _ & Hf). congruence.
  - cbn. split; [auto|]. split; [done|]. split; [|done].
    split; [|done]. intros _. by exists receiver, text.
Qed.

(** X21.  On content that is a string the two ways of sending agree on
    the text: when [SendMessageView.post] stores a message for a string,
    a [chat_message] frame with the same string as its content, sent by
    a consumer that is in its room, is accepted too, and the text it
    broadcasts is the text the endpoint stored.  The consumer broadcasts
    no other kind of content: on a frame whose content is not a string
    it raises [AttributeError].  (What the endpoint makes of content
    that is not a string is not covered.) *)
Theorem rest_and_socket_agree_on_content t1 t2 t3 d poster receiver_in text
  m cid room d' :
  SendMessageView.post t1 t2 t3 d poster receiver_in (Some text)
  = ((201, SendMessageView.created m cid room), d') →
  ∀ self group u data w,
    room_group_name self = Some group →
    channel_layer.valid_group_name group = true →
    user self = Some u →
    data !! py "type" = Some (JStr (py "chat_message")) →
    (data !! py "content" = Some (JStr text) →
     ∃ w', receive self (Ok (JDict data)) w = Returned () w'
           ∧ broadcast group
               (chat_message_event (content m) (username u) (clock w) None)
               w w')
    ∧ (∀ j, data !! py "content" = Some j → (∀ s, j ≠ JStr s) →
         receive self (Ok (JDict data)) w = Raised AttributeError w).
Proof.
  intros (receiver & text' & Hvalid & _ & _ & Hm & _)%post_created_inv.
  cbv zeta in Hm. subst m. cbn [content].
  destruct (serializer_valid _ _ _ _ _ Hvalid)
    as (rr & cc & _ & [= <-] & _ & -> & _ & _ & Hne & Hlen & _).
  intros self group u data w Hg Hgroup Hu Ht.
  rewrite (receive_chat_message _ _ _ Ht). split.
  - intros Hc.
    rewrite (handle_chat_message_str self data w text) by (by rewrite Hc).
    rewrite Hg, Hu, bool_decide_eq_false_2 by done.
    rewrite (proj2 (len_le_2000 _)) by done.
    by apply group_send_broadcast.
  - intros j Hc Hj. unfold _handle_chat_message. rewrite Hc. cbn.
    destruct j; try done. by destruct (Hj s).
Qed.

(** What [alice] posts with ["  hello "] and what her consumer
    broadcasts for the same content are both ["hello"]. *)
Lemma rest_and_socket_agree_on_content_witness :
  ∃ w',
    receive scenario.alice_consumer
      (Ok (JDict (scenario.chat_frame (py "  hello ")))) scenario.w_joined
    = Returned () w'
    ∧ broadcast scenario.group_alice_bob
        (chat_message_event (py "hello") scenario.alice 1000%Z None)
        scenario.w_joined w'.
Proof.
  destruct (SendMessageView.post 1%Z 2%Z 3%Z scenario.db0 scenario.alice
              (Some scenario.bob) (Some (py "  hello ")))
    as [[status body] d'] eqn:Hrun.
  assert (status = 201) as ->
    by (apply (f_equal (λ r, r.1.1)) in Hrun; vm_compute in Hrun; congruence).
  destruct body as [| | |m cid room];
    try (apply (f_equal (λ r, match r.1.2 with
                              | SendMessageView.created _ _ _ => true
                              | _ => false
                              end)) in Hrun;
         vm_compute in Hrun; discriminate).
  assert (content m = py "hello") as Hm.
  { apply (f_equal (λ r, match r.1.2 with
                         | SendMessageView.created m' _ _ => content m'
                         | _ => []
                         end)) in Hrun.
    vm_compute in Hrun. symmetry. exact Hrun. }
  rewrite <- Hm.
  apply (rest_and_socket_agree_on_content _ _ _ _ _ _ _ _ _ _ _ Hrun
           scenario.alice_consumer scenario.group_alice_bob
           (MyUser scenario.alice)
           (scenario.chat_frame (py "  hello ")) scenario.w_joined);
    vm_compute; reflexivity.
Defined.

(** X22.  A message stored by [SendMessageView.post] adds one to the
    receiver's [get_unread_count] for the conversation and nothing to
    the sender's; the counts of all other conversations stay as they
    were. *)
Theorem sent_message_is_unread_for_the_receiver t1 t2 t3 d user
  receiver_in content_in m cid room d' :
  SendMessageView.post t1 t2 t3 d user receiver_in content_in
  = ((201, SendMessageView.created m cid room), d') →
  ∀ c,
    (conv_id c = cid →
     models.get_unread_count d' c user = models.get_unread_count d c user
     ∧ ∀ reader, reader ≠ user →
         models.get_unread_count d' c reader
         = S (models.get_unread_count d c reader))
    ∧ (conv_id c ≠ cid →
       ∀ reader, models.get_unread_count d' c reader
                 = models.get_unread_count d c reader).
Proof.
  intros (receiver & text & Hvalid & Hother & _ & Hm & -> & _ & ->)
           %post_created_inv.
  cbv zeta in Hm. subst m.
  destruct (one_conversation_facts t1 d user receiver (not_eq_sym Hother))
    as (_ & _ & _ & _ & _ & Hmessages).
  set (r := models.get_or_create_between t1 d user receiver) in *.
  intros c. unfold models.get_unread_count.
  cbn [messages save_conversation create_message snd]. rewrite Hmessages.
  split.
  - intros Hc. split.
    + rewrite filter_app, filter_cons_False, filter_nil, app_nil_r; [done|].
      cbn. naive_solver.
    + intros reader Hreader.
      rewrite filter_app, filter_cons_True, filter_nil by (by cbn).
      rewrite length_app. cbn. lia.
  - intros Hc reader.
    rewrite filter_app, filter_cons_False, filter_nil, app_nil_r; [done|].
    cbn. naive_solver.
Qed.

(** [bob] has one more unread message after [alice]'s post. *)
Lemma sent_message_is_unread_for_the_receiver_witness :
  ∃ d',
    (SendMessageView.post 6%Z 7%Z 8%Z scenario.db_chat scenario.alice
       (Some scenario.bob) (Some (py "hello again"))).2 = d'
    ∧ models.get_unread_count scenario.db_chat scenario.conversation_ab
        scenario.bob = 1%nat
    ∧ models.get_unread_count d' scenario.conversation_ab scenario.bob
      = 2%nat.
Proof.
  destruct (SendMessageView.post 6%Z 7%Z 8%Z scenario.db_chat scenario.alice
              (Some scenario.bob) (Some (py "hello again")))
    as [[status body] d'] eqn:Hrun.
  assert (status = 201) as ->
    by (apply (f_equal (λ r, r.1.1)) in Hrun; vm_compute in Hrun; congruence).
  destruct body as [| | |m cid room];
    try (apply (f_equal (λ r, match r.1.2 with
                              | SendMessageView.created _ _ _ => true
                              | _ => false
                              end)) in Hrun;
         vm_compute in Hrun; discriminate).
  assert (cid = 7) as ->.
  { apply (f_equal (λ r, match r.1.2 with
                         | SendMessageView.created _ cid' _ => cid'
                         | _ => 0
                         end)) in Hrun.
    vm_compute in Hrun. congruence. }
  exists d'. split; [done|].
  assert (models.get_unread_count scenario.db_chat scenario.conversation_ab
            scenario.bob = 1%nat) as Hone by (vm_compute; reflexivity).
  split; [done|].
  destruct (proj1 (sent_message_is_unread_for_the_receiver _ _ _ _ _ _ _ _ _
                     _ _ Hrun scenario.conversation_ab) eq_refl)
    as [_ Hreader].
  rewrite (Hreader scenario.bob), Hone; [done|].
  vm_compute. discriminate.
Defined.

(** ** [StartConversationView] *)

Lemma get_or_create_between_swap t d (A B : str) :
  A ≠ B →
  models.get_or_create_between t d B A = models.get_or_create_between t d A B.
Proof.
  intros Hne. unfold models.get_or_create_between.
  by rewrite (ordered_pair_swap A B Hne).
Qed.

Lemma get_or_create_between_again t t' d (A B : str) :
  let r := models.get_or_create_between t d A B in
  models.get_or_create_between t' r.2 A B = ((r.1.1, false), r.2).
Proof.
  unfold models.get_or_create_between.
  destruct (if pystr.lt A B then (A, B) else (B, A)) as [p1 p2].
  apply get_or_create_again.
Qed.

Lemma get_or_create_between_write t d (A B : str) :
  let r := models.get_or_create_between t d A B in
  users r.2 = users d ∧ follows r.2 = follows d ∧ messages r.2 = messages d
  ∧ if r.1.2 then conversations r.2 = conversations d ++ [r.1.1]
                  ∧ conv_id r.1.1 = next_uuid d
    else r.2 = d.
Proof.
  unfold models.get_or_create_between.
  destruct (if pystr.lt A B then (A, B) else (B, A)) as [p1 p2].
  unfold models.get_or_create.
  by destruct (list_find _ _) as [[i c]|].
Qed.

Lemma check_mutual_follow_follows d d' (a b : str) :
  follows d' = follows d →
  permissions.check_mutual_follow d' a b
  = permissions.check_mutual_follow d a b.
Proof. intros Hf. unfold permissions.check_mutual_follow. by rewrite Hf. Qed.

Lemma start_post_ok t d (requester other : str) :
  other ≠ [] → other ≠ requester → other ∈ users d →
  permissions.check_mutual_follow d requester other = true →
  let r := models.get_or_create_between t d requester other in
  StartConversationView.post t d requester (Some other)
  = ((if r.1.2 then 201 else 200, StartConversationView.started r.1.1 r.1.2),
     r.2).
Proof.
  intros Hne Hother Hreg Hmf. cbv zeta.
  unfold StartConversationView.post, MyUser_objects_get,
    permissions.can_message_user.
  destruct other as [|ch other']; [done|].
  cbn [truthy negb default username]. unfold id.
  rewrite bool_decide_eq_false_2 by done.
  rewrite bool_decide_eq_true_2 by done.
  cbn [username].
  rewrite bool_decide_eq_false_2 by done.
  rewrite Hmf. cbn [negb].
  by destruct (models.get_or_create_between t d requester (ch :: other'))
    as [[c created] d'].
Qed.

Lemma start_post_inv t d (requester : str) name s c created d' :
  StartConversationView.post t d requester name
  = ((s, StartConversationView.started c created), d') →
  ∃ other, name = Some other ∧ other ≠ [] ∧ other ≠ requester
    ∧ other ∈ users d
    ∧ permissions.check_mutual_follow d requester other = true
    ∧ models.get_or_create_between t d requester other = ((c, created), d')
    ∧ s = (if created then 201 else 200).
Proof.
  intros Hrun.
  destruct name as [[|ch other']|]; [done| |done].
  set (other := ch :: other') in *.
  destruct (decide (other = requester)) as [Hself|Hother].
  { unfold StartConversationView.post in Hrun.
    cbn [truthy negb default] in Hrun. unfold id in Hrun.
    by rewrite bool_decide_eq_true_2 in Hrun. }
  destruct (decide (other ∈ users d)) as [Hreg|Hreg].
  2: { unfold StartConversationView.post, MyUser_objects_get in Hrun.
       cbn [truthy negb default] in Hrun. unfold id in Hrun.
       rewrite bool_decide_eq_false_2 in Hrun by done.
       by rewrite bool_decide_eq_false_2 in Hrun. }
  destruct (permissions.check_mutual_follow d requester other) eqn:Hmf.
  2: { unfold StartConversationView.post, MyUser_objects_get,
         permissions.can_message_user in Hrun.
       cbn [truthy negb default] in Hrun. unfold id in Hrun.
       rewrite bool_decide_eq_false_2 in Hrun by done.
       rewrite bool_decide_eq_true_2 in Hrun by done.
       cbn [username] in Hrun.
       rewrite bool_decide_eq_false_2 in Hrun by done.
       by rewrite Hmf in Hrun. }
  rewrite (start_post_ok t d requester other) in Hrun by done.
  destruct (models.get_or_create_between t d requester other)
    as [[c0 created0] d0] eqn:Hgoc.
  cbn in Hrun. injection Hrun as <- <- <- <-.
  exists other. by split_and!.
Qed.

(** X23.  The conversation that [StartConversationView.post] answers
    with is shared by the two users: its other participant, seen from
    either side, is the other user; asking again gives the same
    conversation with status 200 and [created] false, and so does the
    other user asking for the requester, without writing. *)
Theorem start_conversation_is_shared t t' d (requester : str) name s c created
  d' :
  requester ∈ users d → requester ≠ [] →
  StartConversationView.post t d requester name
  = ((s, StartConversationView.started c created), d') →
  ∃ other,
    name = Some other ∧ other ∈ users d
    ∧ permissions.check_mutual_follow d requester other = true
    ∧ s = (if created then 201 else 200)
    ∧ c ∈ conversations d'
    ∧ models.get_other_participant c requester = other
    ∧ models.get_other_participant c other = requester
    ∧ StartConversationView.post t' d' requester name
      = ((200, StartConversationView.started c false), d')
    ∧ StartConversationView.post t' d' other (Some requester)
      = ((200, StartConversationView.started c false), d').
Proof.
  intros Hreg Hne
    (other & -> & Hne' & Hother & Hreg' & Hmf & Hgoc & ->)%start_post_inv.
  destruct (one_conversation_facts t d requester other (not_eq_sym Hother))
    as (Hin & Hlt & Hpair & Husers & Hfollows & _).
  pose proof (get_or_create_between_again t t' d requester other) as Hagain.
  cbv zeta in Hagain. rewrite Hgoc in Hin, Hlt, Hpair, Husers, Hfollows, Hagain.
  cbn [fst snd] in *.
  exists other. split_and!; try done.
  - unfold models.get_other_participant.
    destruct Hpair as [[-> ->]|[-> ->]].
    + by rewrite bool_decide_eq_true_2.
    + by rewrite bool_decide_eq_false_2.
  - unfold models.get_other_participant.
    destruct Hpair as [[-> ->]|[-> ->]].
    + by rewrite bool_decide_eq_false_2.
    + by rewrite bool_decide_eq_true_2.
  - rewrite (start_post_ok t' d' requester other); try done.
    + by rewrite Hagain.
    + by rewrite Husers.
    + by rewrite (check_mutual_follow_follows d).
  - rewrite (start_post_ok t' d' other requester); try done.
    + rewrite (get_or_create_between_swap t' d' requester other) by done.
      by rewrite Hagain.
    + by rewrite Husers.
    + rewrite (check_mutual_follow_follows d) by done.
      apply mutual_follow_iff. apply mutual_follow_iff in Hmf. naive_solver.
Qed.

(** [alice] starts a conversation with [bob]; [bob] starting one with
    [alice] afterwards is given the same conversation. *)
Lemma start_conversation_is_shared_witness :
  ∃ c d',
    StartConversationView.post 5%Z scenario.db0 scenario.alice
      (Some scenario.bob)
    = ((201, StartConversationView.started c true), d')
    ∧ StartConversationView.post 9%Z d' scenario.bob (Some scenario.alice)
      = ((200, StartConversationView.started c false), d').
Proof.
  destruct (StartConversationView.post 5%Z scenario.db0 scenario.alice
              (Some scenario.bob)) as [[s body] d'] eqn:Hrun.
  destruct body as [| |c created];
    try (apply (f_equal (λ r, match r.1.2 with
                              | StartConversationView.started _ _ => true
                              | _ => false
                              end)) in Hrun;
         vm_compute in Hrun; discriminate).
  assert (created = true) as ->.
  { apply (f_equal (λ r, match r.1.2 with
                         | StartConversationView.started _ b => b
                         | _ => false
                         end)) in Hrun.
    vm_compute in Hrun. congruence. }
  assert (scenario.alice ∈ users scenario.db0) as Hreg
    by (apply (proj1 (bool_decide_eq_true _)); vm_compute; reflexivity).
  assert (scenario.alice ≠ []) as Hne by (vm_compute; discriminate).
  destruct (start_conversation_is_shared 5%Z 9%Z _ _ _ _ _ _ _ Hreg Hne Hrun)
    as (other & [= <-] & _ & _ & -> & _ & _ & _ & _ & Hback).
  by exists c, d'.
Defined.

(** X24.  [StartConversationView.post] answers with one of five status
    codes and writes only when it answers 201: then exactly one
    conversation row is appended and nothing else changes.  The key of
    the new row is the next of the uuid supply; where every key in use
    came from that supply, it is the key of no stored conversation, the
    same holds of the database afterwards, and conversation keys that
    were unique stay unique. *)
Theorem start_conversation_writes_only_when_created t d (requester : str)
  name :
  let r := StartConversationView.post t d requester name in
  (r.1.1 = 200 ∨ r.1.1 = 201 ∨ r.1.1 = 400 ∨ r.1.1 = 403 ∨ r.1.1 = 404)
  ∧ (r.1.1 ≠ 201 → r.2 = d)
  ∧ (r.1.1 = 201 →
     ∃ c, r.1.2 = StartConversationView.started c true
          ∧ conversations r.2 = conversations d ++ [c]
          ∧ conv_id c = next_uuid d
          ∧ users r.2 = users d ∧ follows r.2 = follows d
          ∧ messages r.2 = messages d
          ∧ (uuids_from_supply d →
             (∀ c', c' ∈ conversations d → conv_id c' ≠ conv_id c)
             ∧ uuids_from_supply r.2
             ∧ (conversation_ids_unique d → conversation_ids_unique r.2))).
Proof.
  cbv zeta.
  destruct (StartConversationView.post t d requester name)
    as [[s body] d'] eqn:Hrun.
  cbn [fst snd].
  destruct body as [msg| |c created].
  - unfold StartConversationView.post in Hrun.
    destruct (negb (truthy name)); [by simplify_eq; try (split_and!; [naive_solver|done|done])|].
    destruct (bool_decide _); [by simplify_eq; try (split_and!; [naive_solver|done|done])|].
    destruct (MyUser_objects_get _ _); [|by simplify_eq; try (split_and!; [naive_solver|done|done])].
    destruct (permissions.can_message_user _ _ _) as [can reason].
    destruct (negb can); [by simplify_eq; try (split_and!; [naive_solver|done|done])|].
    by destruct (models.get_or_create_between _ _ _ _) as [[c created] d0].
  - unfold StartConversationView.post in Hrun.
    destruct (negb (truthy name)); [done|].
    destruct (bool_decide _); [done|].
    destruct (MyUser_objects_get _ _); [|by simplify_eq; try (split_and!; [naive_solver|done|done])].
    destruct (permissions.can_message_user _ _ _) as [can reason].
    destruct (negb can); [done|].
    by destruct (models.get_or_create_between _ _ _ _) as [[c created] d0].
  - apply start_post_inv in Hrun
      as (other & -> & _ & _ & _ & _ & Hgoc & ->).
    pose proof (get_or_create_between_write t d requester other) as Hw.
    cbv zeta in Hw. rewrite Hgoc in Hw. cbn [fst snd] in Hw.
    destruct Hw as (Hu & Hf & Hm & Hc).
    destruct created.
    + split; [naive_solver|]. split; [done|]. intros _.
      exists c. destruct Hc as [Hc Hid]. split_and!; try done.
      intros [Hconv Hmsg].
      assert (next_uuid d' = next_uuid d + 1) as Hnext.
      { revert Hgoc. unfold models.get_or_create_between.
        destruct (if pystr.lt requester other then (requester, other)
                  else (other, requester)) as [p1 p2].
        unfold models.get_or_create.
        destruct (list_find _ _) as [[i c0]|]; [done|].
        by intros [= _ <-]. }
      assert (∀ c', c' ∈ conversations d → conv_id c' ≠ conv_id c) as Hfresh.
      { intros c' Hc' E. specialize (Hconv c' Hc'). lia. }
      split_and!; [done| |].
      * split.
        -- intros c'. rewrite Hc, elem_of_app, list_elem_of_singleton, Hnext.
           intros [Hc'| ->]; [specialize (Hconv c' Hc')|]; lia.
        -- intros m'. rewrite Hm, Hnext. intros Hm'.
           specialize (Hmsg m' Hm'). lia.
      * unfold conversation_ids_unique. rewrite Hc, fmap_app.
        intros Hunique. apply NoDup_app. split; [done|]. split.
        -- intros x (c' & E & Hc')%list_elem_of_fmap Hx.
           cbn in Hx. apply list_elem_of_singleton in Hx.
           apply (Hfresh c' Hc'). congruence.
        -- apply NoDup_singleton.
    + split; [naive_solver|]. split; [done|]. done.
Qed.

(** X25.  Sending after starting uses the started conversation: once
    [StartConversationView.post] has answered with a conversation, a
    valid [SendMessageView.post] of the same requester to the same user
    stores its message in that conversation, reports its id and room
    name, and adds no conversation row. *)
Theorem send_after_start_uses_the_started_conversation t t1 t2 t3 d
  (requester other : str) s c created d1 receiver_in content_in text :
  StartConversationView.post t d requester (Some other)
  = ((s, StartConversationView.started c created), d1) →
  serializers.SendMessageSerializer d1 receiver_in content_in
  = inr (other, text) →
  ∃ m d2,
    SendMessageView.post t1 t2 t3 d1 requester receiver_in content_in
    = ((201, SendMessageView.created m (conv_id c) (models.get_room_name c)),
       d2)
    ∧ conversation m = conv_id c ∧ sender m = requester ∧ content m = text
    ∧ conv_id <$> conversations d2 = conv_id <$> conversations d1
    ∧ messages d2 = messages d1 ++ [m].
Proof.
  intros (other' & [= <-] & _ & Hother & _ & Hmf & Hgoc & _)%start_post_inv
    Hvalid.
  destruct (one_conversation_facts t d requester other (not_eq_sym Hother))
    as (_ & _ & _ & _ & Hfollows & _).
  pose proof (get_or_create_between_again t t1 d requester other) as Hagain.
  cbv zeta in Hagain. rewrite Hgoc in Hfollows, Hagain. cbn [fst snd] in *.
  rewrite <- (check_mutual_follow_follows d d1) in Hmf by done.
  pose proof (post_created t1 t2 t3 d1 requester receiver_in content_in
                other text Hvalid Hother Hmf) as Hpost.
  cbv zeta in Hpost. rewrite Hagain in Hpost. cbn [fst snd] in Hpost.
  eexists _, _. split; [exact Hpost|].
  cbn. split_and!; try done.
  rewrite <- list_fmap_compose. apply list_fmap_ext.
  intros i x _. cbn. by destruct (decide _).
Qed.

(** [alice] starts a conversation with [bob] and then sends ["hi"]. *)
Lemma send_after_start_uses_the_started_conversation_witness :
  ∃ c d1 m d2,
    StartConversationView.post 5%Z scenario.db0 scenario.alice
      (Some scenario.bob)
    = ((201, StartConversationView.started c true), d1)
    ∧ SendMessageView.post 6%Z 7%Z 8%Z d1 scenario.alice (Some scenario.bob)
        (Some (py "hi"))
      = ((201, SendMessageView.created m (conv_id c)
                 (models.get_room_name c)), d2)
    ∧ content m = py "hi".
Proof.
  destruct (StartConversationView.post 5%Z scenario.db0 scenario.alice
              (Some scenario.bob)) as [[s body] d1] eqn:Hrun.
  assert (s = 201) as ->
    by (apply (f_equal (λ r, r.1.1)) in Hrun; vm_compute in Hrun; congruence).
  destruct body as [| |c created];
    try (apply (f_equal (λ r, match r.1.2 with
                              | StartConversationView.started _ _ => true
                              | _ => false
                              end)) in Hrun;
         vm_compute in Hrun; discriminate).
  assert (created = true) as ->.
  { apply (f_equal (λ r, match r.1.2 with
                         | StartConversationView.started _ b => b
                         | _ => false
                         end)) in Hrun.
    vm_compute in Hrun. congruence. }
  assert (serializers.SendMessageSerializer d1 (Some scenario.bob)
            (Some (py "hi")) = inr (scenario.bob, py "hi")) as Hvalid.
  { apply (f_equal snd) in Hrun. cbn [snd] in Hrun. rewrite <- Hrun.
    vm_compute. reflexivity. }
  destruct (send_after_start_uses_the_started_conversation 5%Z 6%Z 7%Z 8%Z
              _ _ _ _ _ _ _ _ _ _ Hrun Hvalid)
    as (m & d2 & Hpost & _ & _ & Hcontent & _).
  by exists c, d1, m, d2.
Defined.

(** ** Pages of messages *)

#[local] Instance newest_first_total : Total newest_first.
Proof. intros a b. unfold newest_first. lia. Qed.

#[local] Instance newest_first_trans : Transitive newest_first.
Proof. intros a b c. unfold newest_first. lia. Qed.

(** Sorting is one of the answers the database may give. *)
Lemma merge_sort_orders_newest_first :
  orders_newest_first (merge_sort newest_first).
Proof.
  intros rows. split.
  - apply merge_sort_Permutation.
  - apply (StronglySorted_merge_sort newest_first).
Qed.

Lemma StronglySorted_reverse {A} (R : relation A) (l : list A) :
  StronglySorted R l → StronglySorted (flip R) (reverse l).
Proof.
  induction 1 as [|x l Hl IH Hx]; [rewrite reverse_nil; constructor|].
  rewrite reverse_cons. apply StronglySorted_app_2.
  - intros a b Ha Hb. apply list_elem_of_singleton in Hb as ->.
    rewrite elem_of_reverse in Ha. unfold flip.
    by apply (proj1 (Forall_forall _ _) Hx).
  - done.
  - repeat constructor.
Qed.

(** The [n] newest rows of [l] in chronological order, and the rows
    left out. *)
Lemma newest_page order (n : nat) (l : list Message) :
  orders_newest_first order →
  let sorted := order l in
  let page := reverse (take n sorted) in
  let rest := drop n sorted in
  page ++ rest ≡ₚ l
  ∧ length page = (n `min` length l)%nat
  ∧ StronglySorted (λ a b, (msg_created_at a ≤ msg_created_at b)%Z) page
  ∧ ∀ m m', m ∈ page → m' ∈ rest →
      (msg_created_at m' ≤ msg_created_at m)%Z.
Proof.
  intros Horder. cbv zeta.
  destruct (Horder l) as [Hperm Hsorted].
  rewrite <- (take_drop n (order l)) in Hsorted.
  split_and!.
  - rewrite reverse_Permutation, take_drop. done.
  - rewrite length_reverse, length_take, Hperm. done.
  - apply (StronglySorted_reverse newest_first).
    by apply StronglySorted_app_1_l in Hsorted.
  - intros m m' Hm Hm'. rewrite elem_of_reverse in Hm.
    exact (StronglySorted_app_1_elem_of _ _ _ _ _ Hsorted Hm Hm').
Qed.

Lemma conversation_of_Some d (reader : str) cid c :
  conversation_of d reader cid = Some c →
  c ∈ conversations d ∧ conv_id c = cid
  ∧ (participant_1 c = reader ∨ participant_2 c = reader).
Proof.
  unfold conversation_of.
  destruct (list_find _ _) as [[i c']|] eqn:Hfind; [|done].
  intros [= <-].
  apply list_find_Some in Hfind as (Hi & [Hp Hid] & _).
  split_and!; try done. by eapply list_elem_of_lookup_2.
Qed.

Lemma conversation_of_None d (reader : str) cid :
  conversation_of d reader cid = None →
  ∀ c, c ∈ conversations d → conv_id c = cid →
    participant_1 c ≠ reader ∧ participant_2 c ≠ reader.
Proof.
  unfold conversation_of.
  destruct (list_find _ _) as [[i c']|] eqn:Hfind; [done|].
  intros _ c Hc Hid.
  apply list_find_None in Hfind.
  pose proof (proj1 (Forall_forall _ _) Hfind c Hc) as Hnot. cbn in Hnot.
  split; intros Hp; apply Hnot; naive_solver.
Qed.

Lemma messages_of_elem d c m :
  m ∈ messages_of d c ↔ m ∈ messages d ∧ conversation m = conv_id c.
Proof. unfold messages_of. rewrite list_elem_of_filter. naive_solver. Qed.

(** X26.  [ConversationMessagesView.get] answers 404 exactly when the
    reader takes part in no conversation with that id.  Otherwise,
    whatever order the database gives to rows of equal [created_at], its
    page holds the newest rows among the conversation's messages created
    before [before]: at most 50, in chronological order, none older than
    a row left out; and [has_more] is true exactly when some row left
    out is strictly older than every row of the page. *)
Theorem message_page_is_the_newest_fifty order d (reader : str) cid before :
  orders_newest_first order →
  match ConversationMessagesView.get order d reader cid before with
  | None =>
      ∀ c, c ∈ conversations d → conv_id c = cid →
        participant_1 c ≠ reader ∧ participant_2 c ≠ reader
  | Some (page, has_more) =>
      ∃ c rest,
        c ∈ conversations d ∧ conv_id c = cid
        ∧ (participant_1 c = reader ∨ participant_2 c = reader)
        ∧ page ++ rest ⊆+ messages d
        ∧ (∀ m, m ∈ page ++ rest
                ↔ m ∈ messages d ∧ conversation m = cid
                  ∧ ∀ b, before = Some b → (msg_created_at m < b)%Z)
        ∧ length page = (50 `min` length (page ++ rest))%nat
        ∧ StronglySorted
            (λ a b, (msg_created_at a ≤ msg_created_at b)%Z) page
        ∧ (∀ m m', m ∈ page → m' ∈ rest →
             (msg_created_at m' ≤ msg_created_at m)%Z)
        ∧ (has_more = true
           ↔ ∃ m', m' ∈ rest
                   ∧ ∀ m, m ∈ page →
                       (msg_created_at m' < msg_created_at m)%Z)
  end.
Proof.
  intros Horder. unfold ConversationMessagesView.get.
  destruct (conversation_of d reader cid) as [c|] eqn:Hc;
    [|by apply conversation_of_None].
  apply conversation_of_Some in Hc as (Hin & Hid & Hp).
  set (selected := match before with
                   | Some before_dt =>
                       filter (λ m, (msg_created_at m < before_dt)%Z)
                         (messages_of d c)
                   | None => messages_of d c
                   end).
  assert (∀ m, m ∈ selected
               ↔ m ∈ messages d ∧ conversation m = cid
                 ∧ ∀ b, before = Some b → (msg_created_at m < b)%Z)
    as Hselected.
  { intros m. unfold selected. destruct before as [b|].
    - rewrite list_elem_of_filter, messages_of_elem, Hid. naive_solver.
    - rewrite messages_of_elem, Hid. naive_solver. }
  assert (selected ⊆+ messages d) as Hsub.
  { unfold selected, messages_of. destruct before as [b|].
    - etrans; apply sublist_submseteq, sublist_filter.
    - apply sublist_submseteq, sublist_filter. }
  destruct (newest_page order 50 selected Horder)
    as (Hperm & Hlen & Hsorted & Hrest).
  cbv zeta.
  set (page := reverse (take 50 (order selected))) in *.
  set (rest := drop 50 (order selected)) in *.
  exists c, rest. split_and!; try done.
  - by rewrite Hperm.
  - intros m. by rewrite Hperm.
  - by rewrite Hperm.
  - destruct page as [|first tl] eqn:Hpage.
    { split; [done|]. intros (m' & Hm' & _).
      assert (length selected = 0%nat) as Hnil.
      { change (length (@nil Message)) with 0%nat in Hlen. lia. }
      apply nil_length_inv in Hnil.
      rewrite Hnil in Hperm. cbn in Hperm.
      apply Permutation_nil_r in Hperm. rewrite Hperm in Hm'.
      by apply elem_of_nil in Hm'. }
    rewrite bool_decide_eq_true, Exists_exists.
    apply StronglySorted_cons in Hsorted as [Hfirst _].
    split.
    + intros (m' & [Hm' Hconv]%messages_of_elem & Hlt).
      assert (m' ∈ (first :: tl) ++ rest) as Hwhere.
      { rewrite Hperm. apply Hselected. split_and!; [done|congruence|].
        intros b Hb.
        assert (first ∈ selected) as Hf
          by (rewrite <- Hperm; set_solver).
        apply Hselected in Hf as (_ & _ & Hf). specialize (Hf b Hb). lia. }
      apply elem_of_app in Hwhere as [Hwhere|Hwhere].
      * apply elem_of_cons in Hwhere as [->|Hwhere]; [lia|].
        pose proof (proj1 (Forall_forall _ _) Hfirst m' Hwhere) as Hle.
        cbv beta in Hle. lia.
      * exists m'. split; [done|].
        intros m [->|Hm]%elem_of_cons; [done|].
        pose proof (proj1 (Forall_forall _ _) Hfirst m Hm) as Hle.
        cbv beta in Hle. lia.
    + intros (m' & Hm' & Hlt). exists m'. split.
      * apply messages_of_elem.
        assert (m' ∈ selected) as Hs by (rewrite <- Hperm; set_solver).
        apply Hselected in Hs. naive_solver.
      * apply Hlt. set_solver.
Qed.

(** [alice] reads her conversation with [bob]: three messages, oldest
    first, and no more. *)
Lemma message_page_is_the_newest_fifty_witness :
  ∃ page,
    ConversationMessagesView.get (merge_sort newest_first) scenario.db_chat
      scenario.alice 7 None = Some (page, false)
    ∧ length page = 3%nat
    ∧ StronglySorted (λ a b, (msg_created_at a ≤ msg_created_at b)%Z) page.
Proof.
  pose proof (message_page_is_the_newest_fifty (merge_sort newest_first)
                scenario.db_chat scenario.alice 7 None
                merge_sort_orders_newest_first) as Hpage.
  destruct (ConversationMessagesView.get (merge_sort newest_first)
              scenario.db_chat scenario.alice 7 None)
    as [[page has_more]|] eqn:Hget; [|vm_compute in Hget; discriminate].
  assert (has_more = false) as ->.
  { apply (f_equal (λ o, match o with Some (_, b) => b | None => true end))
      in Hget.
    vm_compute in Hget. congruence. }
  assert (length page = 3%nat) as Hlen.
  { apply (f_equal (λ o, match o with
                         | Some (p, _) => length p
                         | None => 0%nat
                         end)) in Hget.
    revert Hget. vm_compute. by intros <-. }
  destruct Hpage as (c & rest & _ & _ & _ & _ & _ & _ & Hsorted & _).
  by exists page.
Defined.

Lemma messages_of_same_id d c c' :
  conv_id c = conv_id c' → messages_of d c = messages_of d c'.
Proof. intros Hid. unfold messages_of. by rewrite Hid. Qed.

Lemma first_page order d (reader : str) cid page has_more :
  ConversationMessagesView.get order d reader cid None
  = Some (page, has_more) →
  ∃ c, conv_id c = cid
       ∧ page = reverse (take 50 (order (messages_of d c))).
Proof.
  unfold ConversationMessagesView.get.
  destruct (conversation_of d reader cid) as [c|] eqn:Hc; [|done].
  apply conversation_of_Some in Hc as (_ & Hid & _).
  cbv zeta. intros [= <- _]. by exists c.
Qed.

(** Two answers of the database to the same ordered query show the same
    sequence of [created_at] values. *)
Lemma answers_agree_on_times order1 order2 (l : list Message) :
  orders_newest_first order1 → orders_newest_first order2 →
  msg_created_at <$> order1 l = msg_created_at <$> order2 l.
Proof.
  intros H1 H2.
  destruct (H1 l) as [Hp1 Hs1]. destruct (H2 l) as [Hp2 Hs2].
  apply (StronglySorted_unique_strong (λ x y : Z, (y ≤ x)%Z)).
  - intros x1 x2 _ _ Hle Hge. lia.
  - by apply (StronglySorted_fmap msg_created_at newest_first).
  - by apply (StronglySorted_fmap msg_created_at newest_first).
  - by rewrite Hp1, Hp2.
Qed.

(** They are the same answer when no two rows have the same
    [created_at]. *)
Lemma answers_agree_without_ties order1 order2 (l : list Message) :
  orders_newest_first order1 → orders_newest_first order2 →
  NoDup (msg_created_at <$> l) →
  order1 l = order2 l.
Proof.
  intros H1 H2 Hdistinct.
  destruct (H1 l) as [Hp1 Hs1]. destruct (H2 l) as [Hp2 Hs2].
  assert (∀ x y, x ∈ l → y ∈ l → msg_created_at x = msg_created_at y →
                 x = y) as Hinj.
  { clear -Hdistinct. induction l as [|a l IH]; intros x y Hx Hy E.
    { by apply elem_of_nil in Hx. }
    rewrite fmap_cons in Hdistinct.
    apply NoDup_cons in Hdistinct as [Ha Hl].
    apply elem_of_cons in Hx as [->|Hx], Hy as [->|Hy]; try done.
    - destruct Ha. rewrite E. apply list_elem_of_fmap. by exists y.
    - destruct Ha. rewrite <- E. apply list_elem_of_fmap. by exists x.
    - by apply IH. }
  apply (StronglySorted_unique_strong newest_first); try done.
  - intros x1 x2 Hx1 Hx2 Hle Hge. unfold newest_first in *.
    rewrite Hp1 in Hx1. rewrite Hp2 in Hx2. apply Hinj; [done..|lia].
  - by rewrite Hp1, Hp2.
Qed.

Lemma recent_end_of_page {A} (sorted : list A) :
  reverse (take 20 sorted)
  = drop (length (reverse (take 50 sorted)) - 20) (reverse (take 50 sorted)).
Proof. rewrite length_reverse, <- reverse_take, take_take. done. Qed.

(** X27.  The [recent_messages] of the detail serializer are the end of
    the first page of [ConversationMessagesView.get].  The two come from
    two queries, and the database may order rows of equal [created_at]
    differently in each: they show the same [created_at] values, those
    of the page's last 20 entries in the same order; and when no two
    messages of the conversation have the same [created_at], the recent
    messages are the page's last 20 entries themselves, the whole page
    when it has at most 20. *)
Theorem recent_messages_end_the_first_page order_page order_recent d
  (reader : str) c page has_more :
  orders_newest_first order_page → orders_newest_first order_recent →
  ConversationMessagesView.get order_page d reader (conv_id c) None
  = Some (page, has_more) →
  let recent := ConversationSerializer.get_recent_messages order_recent d c in
  msg_created_at <$> recent
  = drop (length page - 20) (msg_created_at <$> page)
  ∧ (NoDup (msg_created_at <$> messages_of d c) →
     recent = drop (length page - 20) page
     ∧ ((length page ≤ 20)%nat → recent = page)).
Proof.
  intros Hpage Hrecent (c' & Hid & ->)%first_page recent.
  rewrite (messages_of_same_id d c' c Hid).
  unfold recent, ConversationSerializer.get_recent_messages.
  set (l := messages_of d c).
  split.
  - rewrite fmap_reverse, fmap_take.
    rewrite (answers_agree_on_times order_recent order_page l) by done.
    rewrite <- fmap_take, <- fmap_reverse, recent_end_of_page.
    by rewrite fmap_drop.
  - intros Hdistinct.
    rewrite (answers_agree_without_ties order_recent order_page l) by done.
    rewrite recent_end_of_page. split; [done|].
    intros Hle.
    replace (length (reverse (take 50 (order_page l))) - 20)%nat
      with 0%nat by lia.
    done.
Qed.

(** The conversation of [alice] and [bob] has three messages, written
    at different times: the recent messages are its whole first page. *)
Lemma recent_messages_end_the_first_page_witness :
  ∃ page,
    ConversationMessagesView.get (merge_sort newest_first) scenario.db_chat
      scenario.alice (conv_id scenario.conversation_ab) None
    = Some (page, false)
    ∧ ConversationSerializer.get_recent_messages (merge_sort newest_first)
        scenario.db_chat scenario.conversation_ab = page.
Proof.
  destruct (ConversationMessagesView.get (merge_sort newest_first)
              scenario.db_chat scenario.alice
              (conv_id scenario.conversation_ab) None)
    as [[page has_more]|] eqn:Hget; [|vm_compute in Hget; discriminate].
  assert (has_more = false) as ->.
  { apply (f_equal (λ o, match o with Some (_, b) => b | None => true end))
      in Hget.
    vm_compute in Hget. congruence. }
  assert (length page ≤ 20)%nat as Hlen.
  { apply (f_equal (λ o, match o with
                         | Some (p, _) => length p
                         | None => 0%nat
                         end)) in Hget.
    revert Hget. vm_compute. intros <-. lia. }
  assert (NoDup (msg_created_at
                   <$> messages_of scenario.db_chat scenario.conversation_ab))
    as Hdistinct.
  { refine (bool_decide_unpack _ _). vm_compute. exact I. }
  exists page. split; [done|].
  exact (proj2 (proj2 (recent_messages_end_the_first_page
                         (merge_sort newest_first) (merge_sort newest_first)
                         _ _ _ _ _ merge_sort_orders_newest_first
                         merge_sort_orders_newest_first Hget) Hdistinct)
           Hlen).
Defined.

(** X28.  [get_last_message] is [None] exactly when the conversation has
    no message.  Otherwise it describes a message of the conversation
    that no other is newer than.  The first page of
    [ConversationMessagesView.get], which comes from another query, ends
    with a message of the same [created_at], and with that very message
    when no other message of the conversation has that [created_at].
    The [content] of the description starts with the first 50
    characters of the text, is the whole text when that has at most 50,
    and is the first 50 characters followed by three dots when it has
    more. *)
Theorem last_message_is_the_newest order_last d c :
  orders_newest_first order_last →
  match ConversationSerializer.get_last_message order_last d c with
  | None => ∀ m, m ∈ messages d → conversation m ≠ conv_id c
  | Some lm =>
      ∃ m, m ∈ messages d ∧ conversation m = conv_id c
        ∧ (∀ m', m' ∈ messages d → conversation m' = conv_id c →
             (msg_created_at m' ≤ msg_created_at m)%Z)
        ∧ (∀ order_page reader page has_more,
             orders_newest_first order_page →
             ConversationMessagesView.get order_page d reader (conv_id c)
               None
             = Some (page, has_more) →
             ∃ m', last page = Some m'
                   ∧ msg_created_at m' = msg_created_at m
                   ∧ ((∀ m'', m'' ∈ messages d →
                         conversation m'' = conv_id c →
                         msg_created_at m'' = msg_created_at m → m'' = m) →
                      m' = m))
        ∧ ConversationSerializer.last_sender_username lm = sender m
        ∧ ConversationSerializer.last_created_at lm = msg_created_at m
        ∧ ConversationSerializer.last_is_read lm = is_read m
        ∧ take 50 (ConversationSerializer.last_content lm)
          = take 50 (content m)
        ∧ ((length (content m) ≤ 50)%nat →
           ConversationSerializer.last_content lm = content m)
        ∧ ((50 < length (content m))%nat →
           ConversationSerializer.last_content lm
           = take 50 (content m) ++ py "...")
  end.
Proof.
  intros Hlast. unfold ConversationSerializer.get_last_message.
  destruct (Hlast (messages_of d c)) as [Hperm Hsorted].
  destruct (order_last (messages_of d c)) as [|m sorted] eqn:Hs.
  { intros m Hm Hconv.
    assert (m ∈ messages_of d c) as Hin by by apply messages_of_elem.
    rewrite <- Hperm in Hin. by apply elem_of_nil in Hin. }
  apply StronglySorted_cons in Hsorted as [Hfirst _].
  assert (m ∈ messages_of d c) as Hm by (rewrite <- Hperm; set_solver).
  apply messages_of_elem in Hm as [Hm Hconv].
  assert (∀ m', m' ∈ messages d → conversation m' = conv_id c →
                (msg_created_at m' ≤ msg_created_at m)%Z) as Hnewest.
  { intros m' Hm' Hconv'.
    assert (m' ∈ m :: sorted) as Hin
      by (rewrite Hperm; by apply messages_of_elem).
    apply elem_of_cons in Hin as [->|Hin]; [done|].
    exact (proj1 (Forall_forall _ _) Hfirst m' Hin). }
  exists m. cbn [ConversationSerializer.last_content
                  ConversationSerializer.last_sender_username
                  ConversationSerializer.last_created_at
                  ConversationSerializer.last_is_read].
  split_and!; try done.
  - intros order_page reader page has_more Hpage
      (c' & Hid & ->)%first_page.
    rewrite (messages_of_same_id d c' c Hid), last_reverse.
    pose proof (answers_agree_on_times order_page order_last
                  (messages_of d c) Hpage Hlast) as Htimes.
    rewrite Hs in Htimes.
    destruct (Hpage (messages_of d c)) as [Hperm' _].
    destruct (order_page (messages_of d c)) as [|m' sorted'] eqn:Hs';
      [done|].
    injection Htimes as Htime Htimes.
    exists m'. split; [done|]. split; [done|].
    intros Honly.
    assert (m' ∈ messages_of d c) as Hm'
      by (rewrite <- Hperm'; set_solver).
    apply messages_of_elem in Hm' as [Hm' Hconv'].
    by apply Honly.
  - unfold serializers.preview, pystr.len.
    destruct (decide (length (content m) ≤ 50)%nat) as [Hle|Hgt].
    + rewrite (proj2 (N.ltb_ge _ _)) by lia.
      by rewrite app_nil_r, take_take.
    + rewrite take_app_le by (rewrite length_take; lia).
      by rewrite take_take.
  - intros Hle. unfold serializers.preview, pystr.len.
    rewrite (proj2 (N.ltb_ge _ _)) by lia.
    by rewrite app_nil_r, take_ge.
  - intros Hgt. unfold serializers.preview, pystr.len.
    by rewrite (proj2 (N.ltb_lt _ _)) by lia.
Qed.

(** The last message of the conversation of [alice] and [bob] is the
    one written at 5. *)
Lemma last_message_is_the_newest_witness :
  ∃ lm,
    ConversationSerializer.get_last_message (merge_sort newest_first)
      scenario.db_chat scenario.conversation_ab = Some lm
    ∧ ConversationSerializer.last_created_at lm = 5%Z
    ∧ ∀ m, m ∈ messages scenario.db_chat →
        conversation m = conv_id scenario.conversation_ab →
        (msg_created_at m ≤ 5)%Z.
Proof.
  pose proof (last_message_is_the_newest (merge_sort newest_first)
                scenario.db_chat scenario.conversation_ab
                merge_sort_orders_newest_first) as Hlast.
  destruct (ConversationSerializer.get_last_message (merge_sort newest_first)
              scenario.db_chat scenario.conversation_ab)
    as [lm|] eqn:Hget; [|vm_compute in Hget; discriminate].
  assert (ConversationSerializer.last_created_at lm = 5%Z) as Htime.
  { apply (f_equal (λ o, match o with
                         | Some x => ConversationSerializer.last_created_at x
                         | None => 0%Z
                         end)) in Hget.
    vm_compute in Hget. symmetry. exact Hget. }
  destruct Hlast as (m & _ & _ & Hnewest & _ & _ & Hcreated & _).
  exists lm. split; [done|]. split; [done|].
  intros m' Hm' Hconv. rewrite <- Htime, Hcreated. by apply Hnewest.
Defined.

(** ** The read flag *)

Lemma filter_fmap_length_le {A} (P : A → Prop) `{!∀ x, Decision (P x)}
  (f : A → A) (l : list A) :
  (∀ x, P (f x) → P x) →
  (length (filter P (f <$> l)) ≤ length (filter P l))%nat.
Proof.
  intros Hf. induction l as [|x l IH]; [done|].
  rewrite fmap_cons, !filter_cons.
  destruct (decide (P (f x))) as [Hfx|Hfx].
  - rewrite decide_True by auto. cbn. lia.
  - destruct (decide (P x)); cbn; lia.
Qed.

Lemma save_read_fields_found (self : Message) d :
  self ∈ messages d →
  message.save_read_fields self d
  = Some {| users := users d; follows := follows d;
            conversations := conversations d;
            messages :=
              (λ r, if decide (msg_id r = msg_id self)
                    then {| msg_id := msg_id r; conversation := conversation r;
                            sender := sender r; content := content r;
                            msg_created_at := msg_created_at r;
                            read_at := read_at self;
                            is_read := is_read self |}
                    else r) <$> messages d;
            next_uuid := next_uuid d |}.
Proof.
  intros Hin. unfold message.save_read_fields.
  rewrite bool_decide_eq_true_2; [done|].
  apply Exists_exists. by exists self.
Qed.

Lemma save_read_fields_row (self : Message) d d' :
  self ∈ messages d →
  message.save_read_fields self d = Some d' → self ∈ messages d'.
Proof.
  intros Hin. rewrite (save_read_fields_found self d Hin). intros [= <-].
  cbn [messages]. apply list_elem_of_fmap. exists self.
  rewrite decide_True by done. split; [by destruct self|done].
Qed.

(** X29.  [Message.mark_as_read] on a stored message leaves it read;
    a message that was read already keeps its [read_at] and nothing is
    written; an unread one gets the clock reading and its row is
    updated; marking again changes nothing; and no unread count of any
    conversation and reader goes up. *)
Theorem message_mark_as_read_once t t' d m :
  m ∈ messages d →
  ∃ m1 d1,
    message.mark_as_read t d m = Some (m1, d1)
    ∧ is_read m1 = true
    ∧ (is_read m = true → m1 = m ∧ d1 = d)
    ∧ (is_read m = false → read_at m1 = Some t ∧ m1 ∈ messages d1)
    ∧ message.mark_as_read t' d1 m1 = Some (m1, d1)
    ∧ ∀ c reader, (models.get_unread_count d1 c reader
                   ≤ models.get_unread_count d c reader)%nat.
Proof.
  intros Hin. unfold message.mark_as_read at 1.
  destruct (is_read m) eqn:Hread; cbn [negb].
  { exists m, d. split_and!; try done.
    unfold message.mark_as_read. by rewrite Hread. }
  assert (msg_id (views.set_read t m) = msg_id m) as Hid by done.
  assert (∃ d1, message.save_read_fields (views.set_read t m) d = Some d1
                ∧ views.set_read t m ∈ messages d1
                ∧ ∀ c reader, (models.get_unread_count d1 c reader
                               ≤ models.get_unread_count d c reader)%nat)
    as (d1 & Hsave & Hrow & Hcount).
  { unfold message.save_read_fields.
    rewrite bool_decide_eq_true_2 by (apply Exists_exists; by exists m).
    eexists. split; [done|]. split.
    - cbn [messages]. apply list_elem_of_fmap. exists m.
      by rewrite decide_True.
    - intros c reader. unfold models.get_unread_count. cbn [messages].
      apply filter_fmap_length_le. intros x.
      destruct (decide _); [|done]. cbn. naive_solver. }
  exists (views.set_read t m), d1.
  rewrite Hsave. cbn. split_and!; try done.
Qed.

(** Marking [bob]'s unread message of the sample conversation. *)
Lemma message_mark_as_read_once_witness :
  ∃ m1 d1,
    message.mark_as_read 50%Z scenario.db_chat
      (scenario.message 10 scenario.bob (py "are you there?") 5%Z None)
    = Some (m1, d1)
    ∧ read_at m1 = Some 50%Z
    ∧ message.mark_as_read 60%Z d1 m1 = Some (m1, d1).
Proof.
  assert (scenario.message 10 scenario.bob (py "are you there?") 5%Z None
          ∈ messages scenario.db_chat) as Hin.
  { apply (proj1 (bool_decide_eq_true _)). vm_compute. reflexivity. }
  destruct (message_mark_as_read_once 50%Z 60%Z _ _ Hin)
    as (m1 & d1 & Hrun & _ & _ & Hunread & Hagain & _).
  exists m1, d1. split_and!; [done| |done].
  apply Hunread. vm_compute. reflexivity.
Defined.

Lemma post_created_status t1 t2 t3 d (user : str) receiver_in content_in s m
  cid room d' :
  SendMessageView.post t1 t2 t3 d user receiver_in content_in
  = ((s, SendMessageView.created m cid room), d') → s = 201.
Proof.
  unfold SendMessageView.post.
  destruct (serializers.SendMessageSerializer _ _ _) as [?|[? ?]]; [done|].
  destruct (bool_decide _); [done|].
  destruct (MyUser_objects_get _ _); [|done].
  destruct (permissions.can_message_user _ _ _) as [can reason].
  destruct (negb can); [done|].
  destruct (models.get_or_create_between _ _ _ _) as [[c created] d0].
  cbn. by intros [= <- _ _ _ _].
Qed.

Lemma post_messages t1 t2 t3 d (user : str) receiver_in content_in :
  let r := SendMessageView.post t1 t2 t3 d user receiver_in content_in in
  messages r.2 = messages d
  ∨ ∃ m, messages r.2 = messages d ++ [m]
         ∧ is_read m = false ∧ read_at m = None.
Proof.
  cbv zeta.
  destruct (SendMessageView.post t1 t2 t3 d user receiver_in content_in)
    as [[s body] d'] eqn:Hrun.
  destruct body as [e|msg| |m cid room].
  4: { pose proof (post_created_status _ _ _ _ _ _ _ _ _ _ _ _ Hrun) as ->.
       apply post_created_inv in Hrun
         as (receiver & text & _ & Hother & _ & Hm & _ & _ & ->).
       cbv zeta in Hm. subst m.
       destruct (one_conversation_facts t1 d user receiver
                   (not_eq_sym Hother)) as (_ & _ & _ & _ & _ & Hmessages).
       right. eexists. cbn. rewrite Hmessages. done. }
  all: left; unfold SendMessageView.post in Hrun;
    destruct (serializers.SendMessageSerializer _ _ _) as [?|[? ?]];
    [by simplify_eq|];
    destruct (bool_decide _); [by simplify_eq|];
    (destruct (MyUser_objects_get _ _); [|by simplify_eq]);
    destruct (permissions.can_message_user _ _ _) as [can reason];
    destruct (negb can); [by simplify_eq|];
    destruct (models.get_or_create_between _ _ _ _) as [[c created] d0];
    by simplify_eq.
Qed.

(** X30.  Every writer keeps the read flag and the read time in step:
    if each stored message is read exactly when it has a [read_at], the
    same holds after [MarkMessagesReadView.patch], after
    [SendMessageView.post], after [StartConversationView.post] and
    after [Message.mark_as_read] on such a message. *)
Theorem writers_keep_read_state_consistent d :
  Forall read_state_consistent (messages d) →
  (∀ t user cid n d',
     views.patch t d user cid = Ok (n, d') →
     Forall read_state_consistent (messages d'))
  ∧ (∀ t1 t2 t3 user receiver_in content_in,
       Forall read_state_consistent
         (messages
            (SendMessageView.post t1 t2 t3 d user receiver_in content_in).2))
  ∧ (∀ t user name,
       Forall read_state_consistent
         (messages (StartConversationView.post t d user name).2))
  ∧ (∀ t m m1 d1,
       read_state_consistent m →
       message.mark_as_read t d m = Some (m1, d1) →
       read_state_consistent m1
       ∧ Forall read_state_consistent (messages d1)).
Proof.
  intros Hd. split_and!.
  - intros t user cid n d' (c & _ & _ & _ & _ & _ & ->)%patch_found.
    cbn [messages]. apply Forall_fmap. eapply Forall_impl; [exact Hd|].
    intros m Hm. cbn. destruct (decide _); [|done].
    unfold read_state_consistent. cbn. split; [by eexists|done].
  - intros t1 t2 t3 user receiver_in content_in.
    destruct (post_messages t1 t2 t3 d user receiver_in content_in)
      as [->|(m & -> & Hread & Hat)]; [done|].
    apply Forall_app. split; [done|]. apply Forall_singleton.
    unfold read_state_consistent. rewrite Hread, Hat.
    split; [done|]. by intros [? ?].
  - intros t user name.
    destruct (StartConversationView.post t d user name)
      as [[s body] d'] eqn:Hrun.
    cbn [snd].
    destruct body as [msg| |c created].
    3: { apply start_post_inv in Hrun
           as (other & _ & _ & _ & _ & _ & Hgoc & _).
         pose proof (get_or_create_between_write t d user other) as Hw.
         cbv zeta in Hw. rewrite Hgoc in Hw. cbn [fst snd] in Hw.
         destruct Hw as (_ & _ & -> & _). done. }
    all: unfold StartConversationView.post in Hrun;
      destruct (negb (truthy name)); [by simplify_eq|];
      destruct (bool_decide _); [by simplify_eq|];
      (destruct (MyUser_objects_get _ _); [|by simplify_eq]);
      destruct (permissions.can_message_user _ _ _) as [can reason];
      destruct (negb can); [by simplify_eq|];
      destruct (models.get_or_create_between _ _ _ _) as [[c created] d0];
      by simplify_eq.
  - intros t m m1 d1 Hm. unfold message.mark_as_read.
    destruct (is_read m) eqn:Hread; cbn [negb]; [by intros [= <- <-]|].
    unfold message.save_read_fields.
    destruct (bool_decide _); [|done]. cbn. intros [= <- <-].
    assert (read_state_consistent (views.set_read t m)) as Hset.
    { unfold read_state_consistent. cbn. split; [by eexists|done]. }
    split; [done|]. cbn [messages].
    apply Forall_fmap. eapply Forall_impl; [exact Hd|].
    intros r Hr. cbn. destruct (decide _); [|done].
    unfold read_state_consistent. cbn. split; [by eexists|done].
Qed.

(** The sample database satisfies the invariant, and so does the
    database after [alice] has marked her conversation read. *)
Lemma writers_keep_read_state_consistent_witness :
  ∃ d', views.patch 50%Z scenario.db_chat scenario.alice 7 = Ok (1%nat, d')
        ∧ Forall read_state_consistent (messages d').
Proof.
  destruct (views.patch 50%Z scenario.db_chat scenario.alice 7)
    as [[n d']|e] eqn:Hrun; [|vm_compute in Hrun; discriminate].
  assert (n = 1%nat) as ->.
  { apply (f_equal (λ r, match r with Ok (k, _) => k | Raise _ => 0%nat end))
      in Hrun.
    vm_compute in Hrun. congruence. }
  exists d'. split; [done|].
  assert (Forall read_state_consistent (messages scenario.db_chat)) as Hd.
  { unfold read_state_consistent.
    refine (bool_decide_unpack _ _). vm_compute. exact I. }
  exact (proj1 (writers_keep_read_state_consistent _ Hd) _ _ _ _ _ Hrun).
Defined.
